(** * The cluster metadata control plane of
      [clustering/administration/real_reql_cluster_interface.cc]

    A shallow embedding of [real_reql_cluster_interface_t]: the database and
    table operations over the semilattice metadata, the propagation barrier
    [wait_for_metadata_to_propagate], and the table readiness waiter
    [table_waiter_t] with the multi-table protocol of [table_wait].

    Conventions.
    - A [uuid_u] (and so a [namespace_id_t], a [database_id_t], a
      [server_id_t]) is a natural number [N]; a [std::map] keyed by uuids is
      a [gmap N _], iterated in ascending key order; a
      [std::set<name_string_t>] that is only filled is a [gset string], one
      that is iterated is the list of its elements in iteration order
      (ascending).
    - A function that returns [bool] and fills [error_out] returns a
      [reql_result]; a failed [guarantee], a failed [r_sanity_check] and
      [interrupted_exc_t] are the abnormal [outcome]s, threaded through the
      calls by the bind of [outcome].
    - The state of the interface is a [world]: the value of
      [semilattice_root_view], the cross-thread watchables of every thread,
      and the table status observed through the directory.  The thread a
      function runs on ([get_thread_id()]) is an explicit argument. *)

From stdpp Require Import gmap strings list fin_maps sorting.


Open Scope N_scope.

(** ** Identifiers and names *)

Abbreviation uuid_u := N (only parsing).
Abbreviation namespace_id_t := N (only parsing).
Abbreviation database_id_t := N (only parsing).
Abbreviation server_id_t := N (only parsing).
Abbreviation name_string_t := string (only parsing).

(** ** Semilattices *)

(** The overloaded [semilattice_join(T *a, const T &b)] of [rpc/semilattice]:
    [semilattice_join a b] is the value of [*a] after the call. *)
Class Semilattice (T : Type) := semilattice_join : T → T → T.
Global Hint Mode Semilattice ! : typeclass_instances.

(** [is_joined]: join the divisor into a copy of the multiple and compare
    the copy with the original. *)
Definition is_joined {T} `{Semilattice T, EqDecision T}
    (multiple divisor : T) : bool :=
  let cpy := multiple in
  let cpy := semilattice_join cpy divisor in
  bool_decide (cpy = multiple).

(** Modelled from the spec: [versioned_t] ([rpc/semilattice/joins/versioned.hpp]
    is not among the sources).  A value with a version stamp; the join keeps
    the side with the later stamp (last writer wins per field), and [set]
    writes a value whose stamp is later than the one it replaces. *)
Module Versioned.
Record t (T : Type) := mk { get_ref : T; stamp : N }.
Global Arguments mk {T} _ _.
Global Arguments get_ref {T} _.
Global Arguments stamp {T} _.

Definition make {T} (v : T) : t T := mk v 0.
Definition set {T} (v : T) (old : t T) : t T := mk v (N.succ (stamp old)).
Definition join {T} (a b : t T) : t T :=
  if stamp a <? stamp b then b else a.

Global Instance versioned_eq_dec {T} `{EqDecision T} : EqDecision (t T).
Proof. solve_decision. Defined.
Global Instance versioned_semilattice {T} : Semilattice (t T) := join.
End Versioned.
Abbreviation versioned_t := Versioned.t.

(** Modelled from the spec: [deletable_t] ([rpc/semilattice/joins/deletable.hpp]
    is not among the sources).  A soft-deletable entry: either a live value
    or a tombstone; a tombstone is never revived, so in a join the
    tombstone wins. *)
Module Deletable.
Inductive t (T : Type) := Live (v : T) | Deleted.
Global Arguments Live {T} _.
Global Arguments Deleted {T}.

Definition make_deletable {T} (v : T) : t T := Live v.
Definition is_deleted {T} (d : t T) : bool :=
  match d with Live _ => false | Deleted => true end.
Definition mark_deleted {T} (d : t T) : t T := Deleted.
(** [get_ref] and [get_mutable] are only legal on a live entry. *)
Definition get_ref {T} (d : t T) : option T :=
  match d with Live v => Some v | Deleted => None end.
Definition join {T} `{Semilattice T} (a b : t T) : t T :=
  match a, b with
  | Live x, Live y => Live (semilattice_join x y)
  | _, _ => Deleted
  end.

Global Instance deletable_eq_dec {T} `{EqDecision T} : EqDecision (t T).
Proof. solve_decision. Defined.
Global Instance deletable_semilattice {T} `{Semilattice T} : Semilattice (t T) := join.
End Deletable.
Abbreviation deletable_t := Deletable.t.
Abbreviation Live := Deletable.Live.
Abbreviation Deleted := Deletable.Deleted.
Abbreviation make_deletable := Deletable.make_deletable.

(** Modelled from the spec: the join of two [std::map]s
    ([rpc/semilattice/joins/map.hpp] is not among the sources): keys of
    either side are kept, and the values of a key present on both sides
    are joined. *)
Global Instance map_semilattice {V} `{Semilattice V} : Semilattice (gmap N V) :=
  λ a b, union_with (λ x y, Some (semilattice_join x y)) a b.

(** ** The metadata *)

(** Modelled from the spec: the replication information of a table
    ([table_replication_info_t], [table_config_t], [table_shard_scheme_t]
    are declared outside the sources): a shard scheme given by its split
    points, and for each shard the replica servers and the director. *)
Record table_shard_config_t := mk_shard_config {
  replicas : list server_id_t;
  director : server_id_t;
}.
Record table_config_t := mk_table_config { shards : list table_shard_config_t }.
Record table_shard_scheme_t := mk_shard_scheme { split_points : list string }.
Definition one_shard : table_shard_scheme_t := mk_shard_scheme [].
Record table_replication_info_t := mk_repli_info {
  config : table_config_t;
  shard_scheme : table_shard_scheme_t;
}.

Global Instance table_shard_config_eq_dec : EqDecision table_shard_config_t.
Proof. solve_decision. Defined.
Global Instance table_config_eq_dec : EqDecision table_config_t.
Proof. solve_decision. Defined.
Global Instance table_shard_scheme_eq_dec : EqDecision table_shard_scheme_t.
Proof. solve_decision. Defined.
Global Instance table_replication_info_eq_dec : EqDecision table_replication_info_t.
Proof. solve_decision. Defined.

(** Modelled from the spec: [database_semilattice_metadata_t] (declared
    outside the sources). *)
Record database_semilattice_metadata_t := mk_database {
  db_name : versioned_t name_string_t;
}.

(** Modelled from the spec: [namespace_semilattice_metadata_t] (declared
    outside the sources). *)
Record namespace_semilattice_metadata_t := mk_namespace {
  ns_name : versioned_t name_string_t;
  ns_database : versioned_t database_id_t;
  ns_primary_key : versioned_t string;
  ns_replication_info : versioned_t table_replication_info_t;
}.

Global Instance database_eq_dec : EqDecision database_semilattice_metadata_t.
Proof. solve_decision. Defined.
Global Instance namespace_eq_dec : EqDecision namespace_semilattice_metadata_t.
Proof. solve_decision. Defined.

(** Modelled from the spec: the join of two database entries is
    field-wise. *)
Global Instance database_semilattice : Semilattice database_semilattice_metadata_t :=
  λ a b, mk_database (semilattice_join (db_name a) (db_name b)).
(** Modelled from the spec: the join of two table entries is field-wise. *)
Global Instance namespace_semilattice : Semilattice namespace_semilattice_metadata_t :=
  λ a b, mk_namespace
    (semilattice_join (ns_name a) (ns_name b))
    (semilattice_join (ns_database a) (ns_database b))
    (semilattice_join (ns_primary_key a) (ns_primary_key b))
    (semilattice_join (ns_replication_info a) (ns_replication_info b)).

(** [databases_semilattice_metadata_t] and [namespaces_semilattice_metadata_t]
    are structs with one field, the map from id to deletable entry; they are
    identified with that map ([cow_ptr_t] has value semantics). *)
Abbreviation databases_semilattice_metadata_t :=
  (gmap N (deletable_t database_semilattice_metadata_t)) (only parsing).
Abbreviation namespaces_semilattice_metadata_t :=
  (gmap N (deletable_t namespace_semilattice_metadata_t)) (only parsing).

(** Modelled from the spec: [cluster_semilattice_metadata_t] (declared
    outside the sources), restricted to the two fields the interface uses;
    its join is field-wise. *)
Record cluster_semilattice_metadata_t := mk_cluster {
  rdb_namespaces : namespaces_semilattice_metadata_t;
  databases : databases_semilattice_metadata_t;
}.

Global Instance cluster_eq_dec : EqDecision cluster_semilattice_metadata_t.
Proof. solve_decision. Defined.
Global Instance cluster_semilattice : Semilattice cluster_semilattice_metadata_t :=
  λ a b, mk_cluster
    (semilattice_join (rdb_namespaces a) (rdb_namespaces b))
    (semilattice_join (databases a) (databases b)).

(** ** Outcomes *)

(** Error kinds of the interface (the text written to [error_out]). *)
Inductive error_t :=
  | AlreadyExists (kind qualified_name : string)
  | NotFound (kind qualified_name : string)
  | ConfigurationError (detail : string).

Global Instance error_eq_dec : EqDecision error_t.
Proof. solve_decision. Defined.

(** [true] with a result, or [false] with [error_out] filled. *)
Inductive reql_result (A : Type) :=
  | Success (a : A)
  | Failure (e : error_t).
Global Arguments Success {A} _.
Global Arguments Failure {A} _.

(** A call returns, or is cut short by [interrupted_exc_t] (the interruptor
    was pulsed while the call was blocked), or dies in a [guarantee], or
    throws from an [r_sanity_check]. *)
Inductive outcome (A : Type) :=
  | Returned (a : A)
  | Interrupted
  | GuaranteeFailed
  | SanityCheckFailed.
Global Arguments Returned {A} _.
Global Arguments Interrupted {A}.
Global Arguments GuaranteeFailed {A}.
Global Arguments SanityCheckFailed {A}.

Global Instance outcome_ret : MRet outcome := λ A a, Returned a.
Global Instance outcome_bind : MBind outcome := λ A B k o,
  match o with
  | Returned a => k a
  | Interrupted => Interrupted
  | GuaranteeFailed => GuaranteeFailed
  | SanityCheckFailed => SanityCheckFailed
  end.

Definition guarantee (cond : bool) : outcome () :=
  if cond then Returned () else GuaranteeFailed.

(** [guarantee(p.has())] followed by the use of [*p]. *)
Definition guarantee_has {T} (p : option T) : outcome T :=
  match p with Some x => Returned x | None => GuaranteeFailed end.

(** [r_sanity_check(p.has())] followed by the use of [*p]. *)
Definition sanity_check_has {T} (p : option T) : outcome T :=
  match p with Some x => Returned x | None => SanityCheckFailed end.

(** A blocking call that did not come back was interrupted. *)
Definition interruptible {T} (r : option T) : outcome T :=
  match r with Some x => Returned x | None => Interrupted end.

(** ** Watchables *)

(** Modelled from the spec: a watchable as seen by a caller blocked on it
    ([concurrency/watchable.hpp] is not among the sources): the value it
    holds now, and the values it will be updated to, in order, while the
    caller is blocked on it.  The interruptor is taken to be pulsed only
    when the updates have run out and the caller would stay blocked. *)
Record watchable (T : Type) := mk_watchable {
  w_value : T;
  w_pending : list T;
}.
Global Arguments mk_watchable {T} _ _.
Global Arguments w_value {T} _.
Global Arguments w_pending {T} _.

(** All the values a caller blocked on the watchable can observe. *)
Definition w_history {T} (w : watchable T) : list T := w_value w :: w_pending w.

(** Modelled from the spec: the loop of [run_until_satisfied], which
    evaluates the predicate once eagerly and again on every update, and
    returns at the first value that satisfies it; [None] is the
    interruption. *)
Fixpoint run_until_loop {T} (fun_ : T → bool) (cur : T) (pending : list T)
    : option (watchable T) :=
  if fun_ cur then Some (mk_watchable cur pending)
  else match pending with
       | [] => None
       | next :: rest => run_until_loop fun_ next rest
       end.

(** Modelled from the spec: [run_until_satisfied] of a watchable, from the
    value it holds now. *)
Definition run_until_satisfied {T} (fun_ : T → bool) (w : watchable T)
    : option (watchable T) :=
  run_until_loop fun_ (w_value w) (w_pending w).

(** ** The world *)

(** Modelled from the spec: [table_readiness_t] (declared outside the
    sources), ordered Unready < Writes < Reads < Finished. *)
Inductive table_readiness_t := unready | writes | reads | finished.

Global Instance table_readiness_eq_dec : EqDecision table_readiness_t.
Proof. solve_decision. Defined.

Definition readiness_rank (r : table_readiness_t) : N :=
  match r with unready => 0 | writes => 1 | reads => 2 | finished => 3 end.

(** What [table_status_backend] knows at one moment: the readiness of each
    table it has a row for. *)
Abbreviation table_status_t := (gmap N table_readiness_t) (only parsing).

(** [threadnum_t] *)
Abbreviation threadnum_t := nat (only parsing).

(** The state of the interface.  [home_thread] is the home thread of
    [semilattice_root_view].  [cross_thread_namespace_watchables] and
    [cross_thread_database_watchables] hold one watchable per thread, once
    the constructor has run.  [directory] is the table status as the
    waiters see it: the status at the call of a waiter, and the status at
    each change of the directory while a waiter is blocked; the directory
    does not move while no waiter is blocked. *)
Record world := mk_world {
  semilattice_root_view : cluster_semilattice_metadata_t;
  home_thread : threadnum_t;
  cross_thread_namespace_watchables :
    list (watchable namespaces_semilattice_metadata_t);
  cross_thread_database_watchables :
    list (watchable databases_semilattice_metadata_t);
  directory : watchable table_status_t;
}.

Definition set_namespace_watchable (threadnum : threadnum_t) nsw (w : world) : world :=
  mk_world (semilattice_root_view w) (home_thread w)
           (<[threadnum := nsw]> (cross_thread_namespace_watchables w))
           (cross_thread_database_watchables w) (directory w).
Definition set_database_watchable (threadnum : threadnum_t) dbw (w : world) : world :=
  mk_world (semilattice_root_view w) (home_thread w)
           (cross_thread_namespace_watchables w)
           (<[threadnum := dbw]> (cross_thread_database_watchables w)) (directory w).
Definition set_directory (w : world) d : world :=
  mk_world (semilattice_root_view w) (home_thread w)
           (cross_thread_namespace_watchables w)
           (cross_thread_database_watchables w) d.

(** ** The propagation barrier *)

(** [wait_for_metadata_to_propagate] on the thread [threadnum]: first the
    namespaces watchable of the thread, then its databases watchable. *)
Definition wait_for_metadata_to_propagate
    (metadata : cluster_semilattice_metadata_t) (threadnum : threadnum_t)
    (w : world) : outcome world :=
  nsw ← guarantee_has (cross_thread_namespace_watchables w !! threadnum);
  nsw ← interruptible
          (run_until_satisfied (λ md, is_joined md (rdb_namespaces metadata)) nsw);
  let w := set_namespace_watchable threadnum nsw w in
  dbw ← guarantee_has (cross_thread_database_watchables w !! threadnum);
  dbw ← interruptible
          (run_until_satisfied (λ md, is_joined md (databases metadata)) dbw);
  mret (set_database_watchable threadnum dbw w).

(** ** [std::map] operations *)

(** [std::map::insert] keeps the old entry when the key is present. *)
Definition std_map_insert {V} (k : N) (v : V) (m : gmap N V) : gmap N V :=
  match m !! k with
  | Some _ => m
  | None => <[k := v]> m
  end.

(** The entries of a [std::map] in iteration order (ascending keys). *)
Definition key_le {V} (x y : N * V) : Prop := (x.1 ≤ y.1)%N.
Global Instance key_le_dec {V} (x y : N * V) : Decision (key_le x y).
Proof. unfold key_le. apply _. Defined.
Global Instance key_le_total {V} : Total (@key_le V).
Proof. intros x y. unfold key_le. lia. Qed.
Global Instance key_le_trans {V} : Transitive (@key_le V).
Proof. intros x y z. unfold key_le. lia. Qed.

Definition std_map_elements {V} (m : gmap N V) : list (N * V) :=
  merge_sort key_le (map_to_list m).

(** [m.begin()], when [m] is not empty. *)
Definition std_map_begin {V} (m : gmap N V) : option (N * V) :=
  head (std_map_elements m).

(** ** The metadata searcher *)

(** [metadata_searcher_t], its search status and [check_metadata_status]
    are declared in [clustering/administration/metadata.hpp], which is not
    among the sources. *)

(** Modelled from the spec: the answers of [find_uniq], which are no match,
    the match, or several matches. *)
Inductive metadata_search_status_t :=
  | METADATA_SUCCESS
  | METADATA_ERR_NONE
  | METADATA_ERR_MULTIPLE.

(** Modelled from the spec: [find_next] of [metadata_searcher_t] walks the
    entries in map order, skips the deleted ones and stops at those that
    satisfy the predicate; these are all the entries it stops at, from
    [begin()] to [end()]. *)
Definition find_all {T} (pred : T → bool) (m : gmap N (deletable_t T))
    : list (N * T) :=
  omap (λ kv, match kv.2 with
              | Deletable.Live v => if pred v then Some (kv.1, v) else None
              | Deletable.Deleted => None
              end)
       (std_map_elements m).

(** Modelled from the spec: [find_uniq] of [metadata_searcher_t] returns the
    first match and tells whether there is none, one, or several. *)
Definition find_uniq {T} (pred : T → bool) (m : gmap N (deletable_t T))
    : option (N * T) * metadata_search_status_t :=
  match find_all pred m with
  | [] => (None, METADATA_ERR_NONE)
  | [it] => (Some it, METADATA_SUCCESS)
  | it :: _ => (Some it, METADATA_ERR_MULTIPLE)
  end.

(** Modelled from the spec: [check_metadata_status] maps no match, when one
    is expected, to the error "does not exist", a match, when none is
    expected, to "already exists", and treats several matches as a
    consistency fault, which is fatal. *)
Definition check_metadata_status (status : metadata_search_status_t)
    (entity_type entity_name : string) (expect_present : bool)
    : outcome (reql_result ()) :=
  match status with
  | METADATA_SUCCESS =>
      if expect_present then Returned (Success ())
      else Returned (Failure (AlreadyExists entity_type entity_name))
  | METADATA_ERR_NONE =>
      if expect_present then Returned (Failure (NotFound entity_type entity_name))
      else Returned (Success ())
  | METADATA_ERR_MULTIPLE => GuaranteeFailed
  end.

(** Modelled from the spec: the predicate of a search for a database by
    name. *)
Definition database_by_name (name : name_string_t)
    (db : database_semilattice_metadata_t) : bool :=
  bool_decide (Versioned.get_ref (db_name db) = name).

(** Modelled from the spec: [namespace_predicate_t], built from a database
    id, or from a name and a database id. *)
Definition namespace_predicate_t (name : option name_string_t)
    (db_id : database_id_t) (ns : namespace_semilattice_metadata_t) : bool :=
  match name with
  | Some n => bool_decide (Versioned.get_ref (ns_name ns) = n)
  | None => true
  end && bool_decide (Versioned.get_ref (ns_database ns) = db_id).

(** ** The store *)

(** Modelled from the spec: a new value of the store is sent to a
    cross-thread watchable, where it arrives after the updates already
    under way. *)
Definition publish {T} (v : T) (w : watchable T) : watchable T :=
  mk_watchable (w_value w) (w_pending w ++ [v]).

(** Modelled from the spec: [semilattice_root_view->join] merges the value
    into the store, and the new value of each field is sent to the
    watchables of every thread. *)
Definition root_view_join (metadata : cluster_semilattice_metadata_t)
    (w : world) : world :=
  let joined := semilattice_join (semilattice_root_view w) metadata in
  mk_world joined (home_thread w)
    (publish (rdb_namespaces joined) <$> cross_thread_namespace_watchables w)
    (publish (databases joined) <$> cross_thread_database_watchables w)
    (directory w).

(** [get_namespaces_metadata] and [get_databases_metadata]: the copies held
    by the cross-thread watchables of the thread. *)
Definition get_namespaces_metadata (threadnum : threadnum_t) (w : world)
    : outcome namespaces_semilattice_metadata_t :=
  nsw ← sanity_check_has (cross_thread_namespace_watchables w !! threadnum);
  mret (w_value nsw).
Definition get_databases_metadata (threadnum : threadnum_t) (w : world)
    : outcome databases_semilattice_metadata_t :=
  dbw ← sanity_check_has (cross_thread_database_watchables w !! threadnum);
  mret (w_value dbw).

(** ** Database operations *)

Definition rethinkdb : string := "rethinkdb".

(** [db_create] called on the thread [threadnum]; [fresh] is the value
    [generate_uuid()] returns. *)
Definition db_create (name : name_string_t) (fresh : uuid_u)
    (threadnum : threadnum_t) (w : world) : outcome (reql_result () * world) :=
  _ ← guarantee (bool_decide (name ≠ rethinkdb));
  let metadata := semilattice_root_view w in
  let '(_, status) := find_uniq (database_by_name name) (databases metadata) in
  found ← check_metadata_status status "Database" name false;
  match found with
  | Failure e => mret (Failure e, w)
  | Success _ =>
    let db := mk_database (Versioned.make name) in
    let metadata :=
      mk_cluster (rdb_namespaces metadata)
                 (std_map_insert fresh (make_deletable db) (databases metadata)) in
    let w := root_view_join metadata w in
    let metadata := semilattice_root_view w in
    w ← wait_for_metadata_to_propagate metadata threadnum w;
    mret (Success (), w)
  end.

(** The loop of [db_drop] over the live tables of the database: each is
    marked deleted in place. *)
Definition mark_tables_deleted (db_id : database_id_t)
    (namespaces : namespaces_semilattice_metadata_t)
    : namespaces_semilattice_metadata_t :=
  foldl (λ acc it, <[it.1 := Deletable.mark_deleted (Live it.2)]> acc)
        namespaces
        (find_all (namespace_predicate_t None db_id) namespaces).

Definition db_drop (name : name_string_t) (threadnum : threadnum_t) (w : world)
    : outcome (reql_result () * world) :=
  _ ← guarantee (bool_decide (name ≠ rethinkdb));
  let metadata := semilattice_root_view w in
  let '(it, status) := find_uniq (database_by_name name) (databases metadata) in
  found ← check_metadata_status status "Database" name true;
  match found with
  | Failure e => mret (Failure e, w)
  | Success _ =>
    '(db_id, db_metadata) ← guarantee_has it;
    (* Delete the database *)
    let dbs := <[db_id := Deletable.mark_deleted (Live db_metadata)]>
                 (databases metadata) in
    (* Delete all of the tables in the database *)
    let nss := mark_tables_deleted db_id (rdb_namespaces metadata) in
    let metadata := mk_cluster nss dbs in
    let w := root_view_join metadata w in
    let metadata := semilattice_root_view w in
    w ← wait_for_metadata_to_propagate metadata threadnum w;
    mret (Success (), w)
  end.

(** [db_list] called on the thread [threadnum]: the names are collected
    into [names_out]. *)
Definition db_list (threadnum : threadnum_t) (w : world)
    : outcome (gset name_string_t) :=
  db_metadata ← get_databases_metadata threadnum w;
  mret (foldl (λ names_out it, names_out ∪ {[ Versioned.get_ref (db_name it.2) ]})
              ∅
              (find_all (λ _, true) db_metadata)).

(** ** Table handles and table resolution *)

(** [ql::db_t]: a database already resolved to its id and name. *)
Module ql.
Record db_t := mk_db { id : uuid_u; name : string }.
End ql.

Definition qualified_name (db : ql.db_t) (name : name_string_t) : string :=
  (ql.name db ++ "." ++ name)%string.

(** The loop of [get_table_ids_for_query] over the requested names, in the
    iteration order of the set. *)
Fixpoint resolve_names (db : ql.db_t) (table_names : list name_string_t)
    (ns_metadata : namespaces_semilattice_metadata_t)
    (table_map_out : gmap N name_string_t)
    : outcome (reql_result (gmap N name_string_t)) :=
  match table_names with
  | [] => mret (Success table_map_out)
  | name :: table_names =>
    let '(it, status) :=
      find_uniq (namespace_predicate_t (Some name) (ql.id db)) ns_metadata in
    found ← check_metadata_status status "Table" (qualified_name db name) true;
    match found with
    | Failure e => mret (Failure e)
    | Success _ =>
      '(table_id, ns) ← guarantee_has it;
      resolve_names db table_names ns_metadata
        (std_map_insert table_id (Versioned.get_ref (ns_name ns)) table_map_out)
    end
  end.

(** [get_table_ids_for_query] called on the thread [threadnum]. *)
Definition get_table_ids_for_query (db : ql.db_t)
    (table_names : list name_string_t) (threadnum : threadnum_t) (w : world)
    : outcome (reql_result (gmap N name_string_t)) :=
  _ ← guarantee (bool_decide (ql.name db ≠ rethinkdb));
  let table_map_out : gmap N name_string_t := ∅ in
  ns_metadata ← get_namespaces_metadata threadnum w;
  match table_names with
  | [] =>
    mret (Success (
      foldl (λ out it, std_map_insert it.1 (Versioned.get_ref (ns_name it.2)) out)
            table_map_out
            (find_all (namespace_predicate_t None (ql.id db)) ns_metadata)))
  | _ => resolve_names db table_names ns_metadata table_map_out
  end.

(** ** The table status backend *)

(** Modelled from the spec: a row of the table status backend carries the
    id of its table and a field that encodes the readiness. *)
Record status_row := mk_row { row_id : namespace_id_t; row_readiness : table_readiness_t }.

(** Modelled from the spec: [get_table_readiness] of the table status
    backend finds nothing for a table the backend does not know. *)
Definition get_table_readiness (status : table_status_t) (table_id : namespace_id_t)
    : option table_readiness_t :=
  status !! table_id.

(** Modelled from the spec: [read_row] of the table status backend gives
    no row for a table the backend does not know. *)
Definition read_row (status : table_status_t) (table_id : namespace_id_t)
    : option status_row :=
  mk_row table_id <$> status !! table_id.

(** [table_meta_read] against the status backend: one row per table of the
    map that still has one, in map order. *)
Definition table_meta_read (status : table_status_t)
    (table_map : gmap N name_string_t) : list status_row :=
  omap (λ pair, read_row status pair.1) (std_map_elements table_map).

(** [deleted_table_error_message]: the tables with a row are erased from the
    copy of the map, and the first one left is named; there is one
    ([rassert]). *)
Definition deleted_table_error_message (db : ql.db_t)
    (table_map : gmap N name_string_t) (result_array : list status_row)
    : outcome error_t :=
  let table_map := foldl (λ m row, delete (row_id row) m) table_map result_array in
  first ← guarantee_has (std_map_begin table_map);
  mret (NotFound "Table" (qualified_name db first.2)).

(** ** The table readiness waiter *)

(** [int]: 32 bits in two's complement, from [INT_MIN] to [INT_MAX]; a
    result out of that range wraps around. *)
Definition INT_MAX : Z := (2 ^ 31 - 1)%Z.
Definition INT_MIN : Z := (- 2 ^ 31)%Z.
Definition wrap_int (z : Z) : Z := ((z - INT_MIN) mod 2 ^ 32 + INT_MIN)%Z.
Global Arguments wrap_int : simpl never.

(** Modelled from the spec: the loop of [run_all_until_satisfied], which
    calls the function once eagerly and again on every change, until it
    returns [true]; the function may update the state [S] it captures, and
    [None] is the interruption. *)
Fixpoint run_all_until_loop {S T} (fun_ : T → S → bool * S) (s : S)
    (cur : T) (pending : list T) : option (S * watchable T) :=
  let '(satisfied, s) := fun_ cur s in
  if satisfied then Some (s, mk_watchable cur pending)
  else match pending with
       | [] => None
       | next :: rest => run_all_until_loop fun_ s next rest
       end.

(** Modelled from the spec: [run_all_until_satisfied] of a watchable map,
    from the value it holds now. *)
Definition run_all_until_satisfied {S T} (fun_ : T → S → bool * S) (s : S)
    (w : watchable T) : option (S * watchable T) :=
  run_all_until_loop fun_ s (w_value w) (w_pending w).

Module table_waiter_t.
Record t := mk { deleted : bool; table_id : namespace_id_t }.

Inductive waited_t := WAITED | IMMEDIATE.
Global Instance waited_eq_dec : EqDecision waited_t.
Proof. solve_decision. Defined.

Definition new (_table_id : namespace_id_t) : t := mk false _table_id.

(** [actual_readiness >= wait_readiness] on the enum. *)
Definition do_check (status : table_status_t)
    (wait_readiness : table_readiness_t) (self : t) : bool * t :=
  let actual_readiness := get_table_readiness status (table_id self) in
  match actual_readiness with
  | None => (true, mk true (table_id self))
  | Some actual =>
      (bool_decide (readiness_rank wait_readiness ≤ readiness_rank actual), self)
  end.

(** [num_checks] is an [int] and counts every check: [++num_checks] wraps
    from [INT_MAX] to [INT_MIN]. *)
Definition wait_ready (wait_readiness : table_readiness_t) (self : t)
    (table_directory : watchable table_status_t)
    : option (waited_t * t * watchable table_status_t) :=
  let num_checks := 0%Z in
  match run_all_until_satisfied
          (λ d '(num_checks, self),
             let num_checks := wrap_int (num_checks + 1) in
             let '(r, self) := do_check d wait_readiness self in
             (r, (num_checks, self)))
          (num_checks, self) table_directory with
  | None => None
  | Some ((num_checks, self), table_directory) =>
      Some (if bool_decide (1 < num_checks)%Z then WAITED else IMMEDIATE,
            self, table_directory)
  end.

Definition check_ready (wait_readiness : table_readiness_t) (self : t)
    (table_directory : watchable table_status_t) : bool * t :=
  do_check (w_value table_directory) wait_readiness self.

Definition is_deleted (self : t) : bool := deleted self.
End table_waiter_t.

(** ** The multi-table wait of [table_wait] *)

(** The first [for] of the loop body: every waiter waits in turn. *)
Fixpoint wait_each (readiness : table_readiness_t)
    (waiters : list table_waiter_t.t) (immediate : bool)
    (dir : watchable table_status_t)
    : option (bool * list table_waiter_t.t * watchable table_status_t) :=
  match waiters with
  | [] => Some (immediate, [], dir)
  | w :: waiters =>
    match table_waiter_t.wait_ready readiness w dir with
    | None => None
    | Some (res, w, dir) =>
      let immediate :=
        immediate && bool_decide (res = table_waiter_t.IMMEDIATE) in
      match wait_each readiness waiters immediate dir with
      | None => None
      | Some (immediate, waiters, dir) => Some (immediate, w :: waiters, dir)
      end
    end
  end.

(** The second pass: [redo] is set at the first waiter that is not ready,
    and the pass stops there. *)
Fixpoint second_pass (readiness : table_readiness_t)
    (waiters : list table_waiter_t.t) (dir : watchable table_status_t)
    : bool * list table_waiter_t.t :=
  match waiters with
  | [] => (false, [])
  | w :: waiters =>
    let '(ready, w) := table_waiter_t.check_ready readiness w dir in
    if negb ready then (true, w :: waiters)
    else let '(redo, waiters) := second_pass readiness waiters dir in
         (redo, w :: waiters)
  end.

(** [while (true)]: one unit of fuel per turn of the loop; [None] is the
    loop still running when the fuel is spent. *)
Fixpoint table_wait_loop (fuel : nat) (readiness : table_readiness_t)
    (waiters : list table_waiter_t.t) (dir : watchable table_status_t)
    : option (outcome (list table_waiter_t.t * watchable table_status_t)) :=
  match fuel with
  | O => None
  | S fuel =>
    match wait_each readiness waiters true dir with
    | None => Some Interrupted
    | Some (immediate, waiters, dir) =>
      if negb immediate && bool_decide (1 < length waiters)%nat then
        (* Do a second pass to make sure no tables changed while we were waiting *)
        let '(redo, waiters) := second_pass readiness waiters dir in
        if redo then table_wait_loop fuel readiness waiters dir
        else Some (Returned (waiters, dir))
      else Some (Returned (waiters, dir))
    end
  end.

(** Every turn of the loop but the last one uses up an update of the
    directory, so this much fuel is never spent. *)
Definition table_wait_fuel (dir : watchable table_status_t) : nat :=
  S (length (w_pending dir)).

(** [table_wait] called on the thread [threadnum]; [resp_out] tells whether
    the caller passed a non-null [resp_out], and the rows are what it is
    filled with.  The loop gets fuel it never spends. *)
Definition table_wait (db : ql.db_t) (tables : list name_string_t)
    (readiness : table_readiness_t) (resp_out : bool)
    (threadnum : threadnum_t) (w : world)
    : outcome (reql_result (option (list status_row)) * world) :=
  resolved ← get_table_ids_for_query db tables threadnum w;
  match resolved with
  | Failure e => mret (Failure e, w)
  | Success table_map =>
    let waiters := (λ pair, table_waiter_t.new pair.1) <$> std_map_elements table_map in
    (* Loop until all tables are ready *)
    '(_, dir) ← default Interrupted
                  (table_wait_loop (table_wait_fuel (directory w)) readiness
                                   waiters (directory w));
    let w := set_directory w dir in
    if resp_out then
      let datum_result := table_meta_read (w_value dir) table_map in
      if negb (bool_decide (tables = []))
         && negb (bool_decide (length tables = length datum_result)) then
        e ← deleted_table_error_message db table_map datum_result;
        mret (Failure e, w)
      else mret (Success (Some datum_result), w)
    else mret (Success None, w)
  end.

(** ** Table creation and reconfiguration *)

(** Modelled from the spec: [table_generate_config_params_t] (declared
    outside the sources), with the three fields [table_create] sets. *)
Record table_generate_config_params_t := mk_params {
  num_shards : Z;
  num_replicas : gmap name_string_t Z;
  director_tag : name_string_t;
}.

Definition nil_uuid : uuid_u := 0.

Section collaborators.
(** The collaborators of the interface that live outside the sources are
    parameters: whatever they compute, the interface passes it on. *)

(** [std::map<server_id_t, int>] and [calculate_server_usage], which adds
    the servers of one table configuration to the usage. *)
Variable calculate_server_usage : table_config_t → gmap N Z → gmap N Z.

(** [table_generate_config], from the table id (or [nil_uuid]), the
    directory (or [nullptr]), the usage, the parameters and the shard
    scheme. *)
Variable table_generate_config :
  uuid_u → option table_status_t → gmap N Z → table_generate_config_params_t →
  table_shard_scheme_t → outcome (reql_result table_config_t).

(** [calculate_split_points_intelligently], from the table id, the number
    of shards and the old shard scheme. *)
Variable calculate_split_points_intelligently :
  namespace_id_t → Z → table_shard_scheme_t →
  outcome (reql_result table_shard_scheme_t).

(** [ql::datum_t] and [convert_table_config_to_datum]. *)
Variable datum_t : Type.
Variable convert_table_config_to_datum : table_config_t → datum_t.

(** [table_create] called on the thread [threadnum]; [fresh] is the value
    [generate_uuid()] returns for [namespace_id].  The block under
    [thread_switcher] runs on the home thread of [semilattice_root_view]. *)
Definition table_create (name : name_string_t) (db : ql.db_t)
    (primary_dc : option name_string_t) (hard_durability : bool)
    (primary_key : string) (fresh : uuid_u) (threadnum : threadnum_t) (w : world)
    : outcome (reql_result () * world) :=
  _ ← guarantee (bool_decide (ql.name db ≠ rethinkdb));
  let metadata := semilattice_root_view w in
  let namespaces := rdb_namespaces metadata in
  (* Make sure there isn't an existing table with the same name *)
  let '(_, status) :=
    find_uniq (namespace_predicate_t (Some name) (ql.id db)) namespaces in
  found ← check_metadata_status status "Table" (qualified_name db name) false;
  match found with
  | Failure e => mret (Failure e, w)
  | Success _ =>
    (* We can't meaningfully pick shard points, so create only one shard *)
    let repli_info_shard_scheme := one_shard in
    (* Construct a configuration for the new namespace *)
    let server_usage :=
      foldl (λ usage it,
               match it.2 with
               | Deletable.Deleted => usage
               | Deletable.Live ns =>
                   calculate_server_usage
                     (config (Versioned.get_ref (ns_replication_info ns))) usage
               end)
            (∅ : gmap N Z) (std_map_elements namespaces) in
    let config_params :=
      mk_params 1 {[ "default" := 1%Z ]} "default" in
    generated ← table_generate_config nil_uuid None server_usage config_params
                  repli_info_shard_scheme;
    match generated with
    | Failure e => mret (Failure e, w)
    | Success repli_info_config =>
      let repli_info := mk_repli_info repli_info_config repli_info_shard_scheme in
      let table_metadata :=
        mk_namespace (Versioned.make name) (Versioned.make (ql.id db))
                     (Versioned.make primary_key) (Versioned.make repli_info) in
      let namespace_id := fresh in
      let namespaces :=
        std_map_insert namespace_id (make_deletable table_metadata) namespaces in
      let metadata := mk_cluster namespaces (databases metadata) in
      let w := root_view_join metadata w in
      let metadata := semilattice_root_view w in
      w ← wait_for_metadata_to_propagate metadata (home_thread w) w;
      let ct_db := ql.mk_db (ql.id db) (ql.name db) in
      (* This could fail if the table is deleted, but we don't care about that *)
      '(_wait_res, w) ← table_wait ct_db [name] writes false (home_thread w) w;
      w ← wait_for_metadata_to_propagate metadata threadnum w;
      mret (Success (), w)
    end
  end.

(** [table_reconfigure] *)
Definition table_reconfigure (db : ql.db_t) (name : name_string_t)
    (params : table_generate_config_params_t) (dry_run : bool) (w : world)
    : outcome (reql_result datum_t * world) :=
  _ ← guarantee (bool_decide (ql.name db ≠ rethinkdb));
  (* Find the specified table in the semilattice metadata *)
  let metadata := semilattice_root_view w in
  let namespaces := rdb_namespaces metadata in
  let '(ns_metadata_it, status) :=
    find_uniq (namespace_predicate_t (Some name) (ql.id db)) namespaces in
  found ← check_metadata_status status "Table" (qualified_name db name) true;
  match found with
  | Failure e => mret (Failure e, w)
  | Success _ =>
    '(table_id, ns) ← guarantee_has ns_metadata_it;
    let server_usage :=
      foldl (λ usage it,
               if bool_decide (it.1 = table_id) then
                 (* We don't want to take into account the table's current
                    configuration, since we're about to change that anyway *)
                 usage
               else calculate_server_usage
                      (config (Versioned.get_ref (ns_replication_info it.2)))
                      usage)
            (∅ : gmap N Z) (find_all (λ _, true) namespaces) in
    split ← calculate_split_points_intelligently table_id (num_shards params)
              (shard_scheme (Versioned.get_ref (ns_replication_info ns)));
    match split with
    | Failure e => mret (Failure e, w)
    | Success new_shard_scheme =>
      (* This just generates a new configuration; it doesn't put it in the
         semilattices. *)
      generated ← table_generate_config table_id (Some (w_value (directory w)))
                    server_usage params new_shard_scheme;
      match generated with
      | Failure e => mret (Failure e, w)
      | Success new_config =>
        let new_repli_info := mk_repli_info new_config new_shard_scheme in
        let w :=
          if negb dry_run then
            (* Commit the change *)
            let ns :=
              mk_namespace (ns_name ns) (ns_database ns) (ns_primary_key ns)
                (Versioned.set new_repli_info (ns_replication_info ns)) in
            let metadata :=
              mk_cluster (<[table_id := Live ns]> namespaces)
                         (databases metadata) in
            root_view_join metadata w
          else w in
        mret (Success (convert_table_config_to_datum new_config), w)
      end
    end
  end.
End collaborators.

(** ** The other operations on databases and tables *)

(** [db_find] called on the thread [threadnum]: the handle of the database
    of that name in the copy of the thread.  When the status is a success
    [it] is the match. *)
Definition db_find (name : name_string_t) (threadnum : threadnum_t) (w : world)
    : outcome (reql_result ql.db_t) :=
  _ ← guarantee (bool_decide (name ≠ rethinkdb));
  (* Find the specified database *)
  db_metadata ← get_databases_metadata threadnum w;
  let '(it, status) := find_uniq (database_by_name name) db_metadata in
  found ← check_metadata_status status "Database" name true;
  match found with
  | Failure e => mret (Failure e)
  | Success _ =>
    '(id, _) ← guarantee_has it;
    mret (Success (ql.mk_db id name))
  end.

(** [table_drop] called on the thread [threadnum].  The entry a successful
    search stops at is live, which the code checks with a [guarantee]. *)
Definition table_drop (name : name_string_t) (db : ql.db_t)
    (threadnum : threadnum_t) (w : world) : outcome (reql_result () * world) :=
  _ ← guarantee (bool_decide (ql.name db ≠ rethinkdb));
  let metadata := semilattice_root_view w in
  let namespaces := rdb_namespaces metadata in
  (* Find the specified table *)
  let '(ns_metadata, status) :=
    find_uniq (namespace_predicate_t (Some name) (ql.id db)) namespaces in
  found ← check_metadata_status status "Table" (qualified_name db name) true;
  match found with
  | Failure e => mret (Failure e, w)
  | Success _ =>
    '(table_id, ns) ← guarantee_has ns_metadata;
    (* Delete the table. *)
    let namespaces :=
      <[table_id := Deletable.mark_deleted (Live ns)]> namespaces in
    let metadata := mk_cluster namespaces (databases metadata) in
    let w := root_view_join metadata w in
    let metadata := semilattice_root_view w in
    w ← wait_for_metadata_to_propagate metadata threadnum w;
    mret (Success (), w)
  end.

(** [table_list] called on the thread [threadnum]: the names of the entries
    the searcher stops at, which are live, are collected into
    [names_out]. *)
Definition table_list (db : ql.db_t) (threadnum : threadnum_t) (w : world)
    : outcome (gset name_string_t) :=
  _ ← guarantee (bool_decide (ql.name db ≠ rethinkdb));
  ns_metadata ← get_namespaces_metadata threadnum w;
  mret (foldl (λ names_out it, names_out ∪ {[ Versioned.get_ref (ns_name it.2) ]})
              ∅
              (find_all (namespace_predicate_t None (ql.id db)) ns_metadata)).

Section namespace_repo.
(** [namespace_repo.get_namespace_interface] hands out the access to the
    interface of a table; it may block, and be interrupted. *)
Variable namespace_interface_access_t : Type.
Variable get_namespace_interface :
  namespace_id_t → outcome namespace_interface_access_t.

(** What [table_find] builds a [real_table_t] from, apart from the
    changefeed client of the interface, which is the same for all. *)
Record real_table_t := mk_real_table {
  namespace_id : namespace_id_t;
  namespace_access : namespace_interface_access_t;
  pkey : string;
}.

(** [table_find] called on the thread [threadnum]: the interface is asked
    for once the table is found. *)
Definition table_find (name : name_string_t) (db : ql.db_t)
    (threadnum : threadnum_t) (w : world) : outcome (reql_result real_table_t) :=
  _ ← guarantee (bool_decide (ql.name db ≠ rethinkdb));
  (* Find the specified table in the semilattice metadata *)
  namespaces_metadata ← get_namespaces_metadata threadnum w;
  let '(ns_metadata_it, status) :=
    find_uniq (namespace_predicate_t (Some name) (ql.id db)) namespaces_metadata in
  found ← check_metadata_status status "Table" (qualified_name db name) true;
  match found with
  | Failure e => mret (Failure e)
  | Success _ =>
    '(table_id, ns) ← guarantee_has ns_metadata_it;
    access ← get_namespace_interface table_id;
    mret (Success (mk_real_table table_id access
                     (Versioned.get_ref (ns_primary_key ns))))
  end.
End namespace_repo.

(** ** Reading from the artificial table backends *)

(** [table_meta_read], [deleted_table_error_message] and
    [table_meta_read_by_name] against any [artificial_table_backend_t].  A
    backend is used through its [read_row], which answers with a row, with
    no row, or with an error, and may be interrupted; a row is a
    [ql::datum_t], and [row_uuid] is [convert_uuid_from_datum] of its field
    [id]. *)
Module artificial_table_backend_t.
Section backend.
Variable datum_t : Type.
Variable row_uuid : datum_t → option uuid_u.

(** The loop of [table_meta_read] over the pairs of the map, with the rows
    added to [array_builder]. *)
Fixpoint read_rows (read_row : uuid_u → outcome (reql_result (option datum_t)))
    (pairs : list (N * name_string_t)) (array_builder : list datum_t)
    : outcome (reql_result (list datum_t)) :=
  match pairs with
  | [] => mret (Success array_builder)
  | pr :: pairs =>
    read ← read_row pr.1;
    match read with
    | Failure e => mret (Failure e)
    | Success row =>
      read_rows read_row pairs
        match row with
        | Some row => array_builder ++ [row]
        | None => array_builder
        end
    end
  end.

Definition table_meta_read (read_row : uuid_u → outcome (reql_result (option datum_t)))
    (table_map : gmap N name_string_t) : outcome (reql_result (list datum_t)) :=
  read_rows read_row (std_map_elements table_map) [].

(** The loop of [deleted_table_error_message]: the id of each row, which
    it must have ([guarantee]), is erased from the copy of the map. *)
Fixpoint erase_rows (table_map : gmap N name_string_t) (result_array : list datum_t)
    : outcome (gmap N name_string_t) :=
  match result_array with
  | [] => mret table_map
  | row :: result_array =>
    table_id ← guarantee_has (row_uuid row);
    erase_rows (delete table_id table_map) result_array
  end.

(** The first table left in the copy of the map is named; the code asserts
    that there is one ([rassert]). *)
Definition deleted_table_error_message (db : ql.db_t)
    (table_map : gmap N name_string_t) (result_array : list datum_t)
    : outcome error_t :=
  table_map ← erase_rows table_map result_array;
  (* Only report the 'first' missing table *)
  first ← guarantee_has (std_map_begin table_map);
  mret (NotFound "Table" (qualified_name db first.2)).

(** [table_meta_read_by_name] called on the thread [threadnum]. *)
Definition table_meta_read_by_name
    (read_row : uuid_u → outcome (reql_result (option datum_t)))
    (db : ql.db_t) (tables : list name_string_t)
    (threadnum : threadnum_t) (w : world) : outcome (reql_result (list datum_t)) :=
  resolved ← get_table_ids_for_query db tables threadnum w;
  match resolved with
  | Failure e => mret (Failure e)
  | Success table_map =>
    read ← table_meta_read read_row table_map;
    match read with
    | Failure e => mret (Failure e)
    | Success res_out =>
      if negb (bool_decide (tables = []))
         && negb (bool_decide (length tables = length res_out)) then
        e ← deleted_table_error_message db table_map res_out;
        mret (Failure e)
      else mret (Success res_out)
    end
  end.

(** [table_config]: the rows of [admin_tables->table_config_backend], which
    the response streams. *)
Definition table_config
    (table_config_backend : uuid_u → outcome (reql_result (option datum_t)))
    (db : ql.db_t) (tables : list name_string_t)
    (threadnum : threadnum_t) (w : world) : outcome (reql_result (list datum_t)) :=
  table_meta_read_by_name table_config_backend db tables threadnum w.
End backend.
Global Arguments read_rows {datum_t} _ _ _.
Global Arguments table_meta_read {datum_t} _ _.
Global Arguments erase_rows {datum_t} _ _ _.
Global Arguments deleted_table_error_message {datum_t} _ _ _ _.
Global Arguments table_meta_read_by_name {datum_t} _ _ _ _ _ _.
Global Arguments table_config {datum_t} _ _ _ _ _ _.
End artificial_table_backend_t.

(** The table status backend as an [artificial_table_backend_t]: its
    [read_row] above, on the status the directory shows, always answers. *)
Definition table_status_backend (status : table_status_t) (table_id : uuid_u)
    : outcome (reql_result (option status_row)) :=
  Returned (Success (read_row status table_id)).

(** [table_status] called on the thread [threadnum]: the rows of
    [admin_tables->table_status_backend], which the response streams. *)
Definition table_status (db : ql.db_t) (tables : list name_string_t)
    (threadnum : threadnum_t) (w : world)
    : outcome (reql_result (list status_row)) :=
  artificial_table_backend_t.table_meta_read_by_name
    (λ row, Some (row_id row)) (table_status_backend (w_value (directory w)))
    db tables threadnum w.

(** ** Sequences of database operations *)

Inductive db_op :=
  | DbCreate (name : name_string_t) (fresh : uuid_u)
  | DbDrop (name : name_string_t).

Definition run_db_op (op : db_op) (threadnum : threadnum_t) (w : world)
    : outcome (reql_result () * world) :=
  match op with
  | DbCreate name fresh => db_create name fresh threadnum w
  | DbDrop name => db_drop name threadnum w
  end.

(** The world after the operations, when each of them returned [true]. *)
Fixpoint run_db_ops (ops : list db_op) (threadnum : threadnum_t) (w : world)
    : option world :=
  match ops with
  | [] => Some w
  | op :: ops =>
    match run_db_op op threadnum w with
    | Returned (Success _, w) => run_db_ops ops threadnum w
    | _ => None
    end
  end.

Definition created_names (ops : list db_op) : list name_string_t :=
  omap (λ op, match op with DbCreate n _ => Some n | DbDrop _ => None end) ops.
Definition created_ids (ops : list db_op) : list uuid_u :=
  omap (λ op, match op with DbCreate _ i => Some i | DbDrop _ => None end) ops.
Definition dropped_names (ops : list db_op) : list name_string_t :=
  omap (λ op, match op with DbCreate _ _ => None | DbDrop n => Some n end) ops.

(** The world before anything was written: an empty store, and for each of
    the [num_threads] threads empty copies with nothing under way. *)
Definition empty_world (num_threads : nat) : world :=
  mk_world (mk_cluster ∅ ∅) 0%nat
           (replicate num_threads (mk_watchable ∅ []))
           (replicate num_threads (mk_watchable ∅ []))
           (mk_watchable ∅ []).

(** ** Invariants of the metadata *)

(** The copies of the thread subsume the metadata, or values that do are
    on their way to them. *)
Definition will_subsume (threadnum : threadnum_t)
    (metadata : cluster_semilattice_metadata_t) (w : world) : Prop :=
  ∃ nsw dbw,
    cross_thread_namespace_watchables w !! threadnum = Some nsw
    ∧ cross_thread_database_watchables w !! threadnum = Some dbw
    ∧ Exists (λ md, is_joined md (rdb_namespaces metadata) = true) (w_history nsw)
    ∧ Exists (λ md, is_joined md (databases metadata) = true) (w_history dbw).

(** The constructor has set up the watchables of the thread. *)
Definition has_watchables (threadnum : threadnum_t) (w : world) : Prop :=
  is_Some (cross_thread_namespace_watchables w !! threadnum)
  ∧ is_Some (cross_thread_database_watchables w !! threadnum).

(** Some live database has the name. *)
Definition names_database (dbs : databases_semilattice_metadata_t)
    (name : name_string_t) : Prop :=
  ∃ id db, dbs !! id = Some (Live db) ∧ Versioned.get_ref (db_name db) = name.

(** The uniqueness invariant of the data model: among the live databases
    the name is unique. *)
Definition database_names_unique (dbs : databases_semilattice_metadata_t) : Prop :=
  ∀ id1 id2 db1 db2,
    dbs !! id1 = Some (Live db1) → dbs !! id2 = Some (Live db2) →
    Versioned.get_ref (db_name db1) = Versioned.get_ref (db_name db2) →
    id1 = id2.

(** Among the live tables the pair of database and name is unique. *)
Definition table_names_unique (nss : namespaces_semilattice_metadata_t) : Prop :=
  ∀ id1 id2 ns1 ns2,
    nss !! id1 = Some (Live ns1) → nss !! id2 = Some (Live ns2) →
    Versioned.get_ref (ns_name ns1) = Versioned.get_ref (ns_name ns2) →
    Versioned.get_ref (ns_database ns1) = Versioned.get_ref (ns_database ns2) →
    id1 = id2.

(** [older] is an earlier state of [newer]: since then entries were only
    added or marked deleted. *)
Definition entries_le {T} (older newer : gmap N (deletable_t T)) : Prop :=
  ∀ id e, older !! id = Some e →
          newer !! id = Some e ∨ newer !! id = Some Deleted.

(** The state reached by a sequence [done] of successful database
    operations from the empty world, seen from the thread [threadnum] that
    ran them. *)
Record db_inv (threadnum : threadnum_t) (w : world) (done : list db_op) : Prop :=
  mk_db_inv {
    inv_unique : database_names_unique (databases (semilattice_root_view w));
    inv_ids : ∀ id, is_Some (databases (semilattice_root_view w) !! id) →
                    id ∈ created_ids done;
    inv_names : ∀ n, names_database (databases (semilattice_root_view w)) n
                     ↔ n ∈ created_names done ∧ n ∉ dropped_names done;
    inv_dropped : ∀ n, n ∈ dropped_names done → n ∈ created_names done;
    inv_has : has_watchables threadnum w;
    inv_history :
      ∀ dbw, cross_thread_database_watchables w !! threadnum = Some dbw →
             Forall (λ v, entries_le v (databases (semilattice_root_view w)))
                    (w_history dbw)
             ∧ is_joined (w_value dbw) (databases (semilattice_root_view w)) = true;
  }.

(** ** Readiness *)

(** The callback [wait_ready] passes to [run_all_until_satisfied]: one more
    check counted, then [do_check]. *)
Definition wait_ready_fun (r : table_readiness_t) (d : table_status_t)
    (st : Z * table_waiter_t.t) : bool * (Z * table_waiter_t.t) :=
  let '(num_checks, self) := st in
  let num_checks := wrap_int (num_checks + 1) in
  let '(res, self) := table_waiter_t.do_check d r self in
  (res, (num_checks, self)).

(** What [wait_ready] returns after [num_checks] checks. *)
Definition waited_after (num_checks : Z) : table_waiter_t.waited_t :=
  if bool_decide (1 < wrap_int num_checks)%Z
  then table_waiter_t.WAITED else table_waiter_t.IMMEDIATE.

(** The values of the directory, the one at the call and the ones that
    follow, are no more than [num_checks] counts without wrapping. *)
Definition counts_in_int {T} (dir : watchable T) : Prop :=
  (Z.of_nat (length (w_history dir)) ≤ INT_MAX)%Z.

(** The table has reached the readiness, or the status backend has no such
    table. *)
Definition ready_or_deleted (status : table_status_t)
    (wait_readiness : table_readiness_t) (table_id : namespace_id_t) : bool :=
  match get_table_readiness status table_id with
  | None => true
  | Some actual =>
      bool_decide (readiness_rank wait_readiness ≤ readiness_rank actual)
  end.

(** The results of the individual waits of one turn of the loop of
    [table_wait], in the order of the waiters. *)
Fixpoint wait_results (readiness : table_readiness_t)
    (waiters : list table_waiter_t.t) (dir : watchable table_status_t)
    : option (list table_waiter_t.waited_t) :=
  match waiters with
  | [] => Some []
  | w :: waiters =>
    match table_waiter_t.wait_ready readiness w dir with
    | None => None
    | Some (res, _, dir) => (res ::.) <$> wait_results readiness waiters dir
    end
  end.

(** ** Table resolution *)

(** The live table [id] has the name and belongs to the database. *)
Definition resolves (nss : namespaces_semilattice_metadata_t) (db : ql.db_t)
    (name : name_string_t) (id : namespace_id_t) : Prop :=
  ∃ ns, nss !! id = Some (Live ns)
        ∧ Versioned.get_ref (ns_name ns) = name
        ∧ Versioned.get_ref (ns_database ns) = ql.id db.

(** In the words of the spec, "the first missing table in id order": of the
    tables of an id-to-name map, taken in ascending id order, the first one
    that is not a live table any more. *)
Definition first_missing_in_id_order (table_map : gmap N name_string_t)
    (nss : namespaces_semilattice_metadata_t) : option name_string_t :=
  head (omap (λ pair, match nss !! pair.1 with
                      | Some (Deletable.Live _) => None
                      | _ => Some pair.2
                      end)
             (std_map_elements table_map)).

(** The value a call returns, without the world it leaves. *)
Definition result_of {A} (o : outcome (A * world)) : outcome A :=
  '(a, _) ← o; mret a.

(** The entry of a table after [replication_info.set(new_repli_info)]. *)
Definition set_replication_info (new_repli_info : table_replication_info_t)
    (ns : namespace_semilattice_metadata_t) : namespace_semilattice_metadata_t :=
  mk_namespace (ns_name ns) (ns_database ns) (ns_primary_key ns)
               (Versioned.set new_repli_info (ns_replication_info ns)).

(** The server usage [table_create] hands to [table_generate_config]: that
    of all the live tables. *)
Definition server_usage_of_all (calculate_server_usage : table_config_t → gmap N Z → gmap N Z)
    (namespaces : namespaces_semilattice_metadata_t) : gmap N Z :=
  foldl (λ usage it,
           match it.2 with
           | Deletable.Deleted => usage
           | Deletable.Live ns =>
               calculate_server_usage
                 (config (Versioned.get_ref (ns_replication_info ns))) usage
           end)
        (∅ : gmap N Z) (std_map_elements namespaces).

(** The server usage [table_reconfigure] hands to [table_generate_config]:
    that of the live tables other than the one that is reconfigured. *)
Definition server_usage_of_others
    (calculate_server_usage : table_config_t → gmap N Z → gmap N Z)
    (table_id : namespace_id_t)
    (namespaces : namespaces_semilattice_metadata_t) : gmap N Z :=
  foldl (λ usage it,
           if bool_decide (it.1 = table_id) then usage
           else calculate_server_usage
                  (config (Versioned.get_ref (ns_replication_info it.2)))
                  usage)
        (∅ : gmap N Z) (find_all (λ _, true) namespaces).

(** The entry [table_create] makes for the new table. *)
Definition new_table_metadata (name : name_string_t) (db : ql.db_t)
    (primary_key : string) (repli_info_config : table_config_t)
    : namespace_semilattice_metadata_t :=
  mk_namespace (Versioned.make name) (Versioned.make (ql.id db))
               (Versioned.make primary_key)
               (Versioned.make (mk_repli_info repli_info_config one_shard)).

(** ** Reading "first missing in id order" as a property of the resolution *)

(** In the words of the spec: when the names resolved to [table_map] in the
    world [w_before] and the resolution fails in the world [w], the failure
    names the first table of [table_map], in id order, that is missing in
    [w]. *)
Definition reports_first_missing_by_id (db : ql.db_t)
    (table_names : list name_string_t) (threadnum : threadnum_t)
    (w_before w : world) : Prop :=
  ∀ table_map e nss,
    get_table_ids_for_query db table_names threadnum w_before
      = Returned (Success table_map) →
    get_table_ids_for_query db table_names threadnum w = Returned (Failure e) →
    get_namespaces_metadata threadnum w = Returned nss →
    ∃ missing,
      first_missing_in_id_order table_map nss = Some missing
      ∧ e = NotFound "Table" (qualified_name db missing).

(** ** What the calling thread reads after a write *)

(** The store subsumes the value: joining the value into the store changes
    nothing. *)
Definition subsumed_by {T} `{Semilattice T} (v store : T) : Prop :=
  semilattice_join v store = store.

(** The copies of the thread, and the values on their way to them, are
    values the store had or subsumes: the thread has its watchables, and
    they never hold anything the store does not know. *)
Definition follows_store (threadnum : threadnum_t) (w : world) : Prop :=
  ∃ nsw dbw,
    cross_thread_namespace_watchables w !! threadnum = Some nsw
    ∧ cross_thread_database_watchables w !! threadnum = Some dbw
    ∧ Forall (λ v, subsumed_by v (rdb_namespaces (semilattice_root_view w)))
             (w_history nsw)
    ∧ Forall (λ v, subsumed_by v (databases (semilattice_root_view w)))
             (w_history dbw).

(** The thread reads the store itself from its copies. *)
Definition reads_store (threadnum : threadnum_t) (w : world) : Prop :=
  get_namespaces_metadata threadnum w
  = Returned (rdb_namespaces (semilattice_root_view w))
  ∧ get_databases_metadata threadnum w
    = Returned (databases (semilattice_root_view w)).

(** ** Concrete worlds *)

Module examples.
Definition db_d : ql.db_t := ql.mk_db 1 "d".
Definition other_db : ql.db_t := ql.mk_db 2 "e".

Definition one_replica : table_config_t :=
  mk_table_config [mk_shard_config [100] 100].

Definition table (db : ql.db_t) (name : name_string_t)
    : namespace_semilattice_metadata_t :=
  new_table_metadata name db "id" one_replica.

(** One thread, whose copy of the tables is [nss], as is the store. *)
Definition world_of_tables (nss : namespaces_semilattice_metadata_t) : world :=
  mk_world (mk_cluster nss ∅) 0%nat [mk_watchable nss []] [mk_watchable ∅ []]
           (mk_watchable ∅ []).

(** Table [a] has the greater id, table [b] the smaller. *)
Definition tables_live : namespaces_semilattice_metadata_t :=
  {[ 9 := Live (table db_d "a"); 3 := Live (table db_d "b") ]}.
Definition tables_dropped : namespaces_semilattice_metadata_t :=
  {[ 9 := Deleted; 3 := Deleted ]}.

(** Database [a] under id 5, with table [t] under id 10, and a table of
    another database under id 11. *)
Definition db_a : ql.db_t := ql.mk_db 5 "a".
Definition world_to_drop : world :=
  let nss : namespaces_semilattice_metadata_t :=
    {[ 10 := Live (table db_a "t"); 11 := Live (table other_db "t") ]} in
  let dbs : databases_semilattice_metadata_t :=
    {[ 5 := Live (mk_database (Versioned.make "a")) ]} in
  mk_world (mk_cluster nss dbs) 0%nat [mk_watchable nss []] [mk_watchable dbs []]
           (mk_watchable ∅ []).

Definition db_ops : list db_op :=
  [DbCreate "a" 1; DbCreate "b" 2; DbDrop "a"].

(** Two threads, thread 0 being the home thread of the store; an update is
    under way to the copy of the tables of thread 0 in which table 7 is a
    tombstone. *)
Definition world_with_tombstone : world :=
  mk_world (mk_cluster ∅ ∅) 0%nat
           [mk_watchable ∅ [ {[ 7 := Deleted ]} ]; mk_watchable ∅ []]
           [mk_watchable ∅ []; mk_watchable ∅ []]
           (mk_watchable ∅ []).

(** Collaborators that always answer the same. *)
Definition usage_unchanged (_ : table_config_t) (usage : gmap N Z) : gmap N Z :=
  usage.
Definition generate_one_replica (_ : uuid_u) (_ : option table_status_t)
    (_ : gmap N Z) (_ : table_generate_config_params_t)
    (_ : table_shard_scheme_t) : outcome (reql_result table_config_t) :=
  Returned (Success one_replica).

(** Two tables whose readiness regresses while the other one is awaited:
    table 1 becomes ready when table 2 stops being so, and the other way
    round, until both are ready. *)
Definition flapping_directory : watchable table_status_t :=
  mk_watchable {[ 1 := unready; 2 := finished ]}
               [ {[ 1 := finished; 2 := unready ]};
                 {[ 1 := unready; 2 := finished ]};
                 {[ 1 := finished; 2 := finished ]} ].

Definition two_shards : table_config_t :=
  mk_table_config [mk_shard_config [100] 100; mk_shard_config [101] 101].
Definition split_in_two (_ : namespace_id_t) (_ : Z) (_ : table_shard_scheme_t)
    : outcome (reql_result table_shard_scheme_t) :=
  Returned (Success (mk_shard_scheme ["m"])).
Definition generate_two_shards (_ : uuid_u) (_ : option table_status_t)
    (_ : gmap N Z) (_ : table_generate_config_params_t)
    (_ : table_shard_scheme_t) : outcome (reql_result table_config_t) :=
  Returned (Success two_shards).

Definition reconfigure_a (dry_run : bool)
    : outcome (reql_result table_config_t * world) :=
  table_reconfigure usage_unchanged generate_two_shards split_in_two
    table_config_t (λ c, c) db_d "a"
    (mk_params 2 {[ "default" := 1%Z ]} "default") dry_run
    (world_of_tables tables_live).

(** The configuration of table 9 in the store a call leaves. *)
Definition config_of_a (o : outcome (reql_result table_config_t * world))
    : option table_config_t :=
  match o with
  | Returned (_, w) =>
      match rdb_namespaces (semilattice_root_view w) !! 9 with
      | Some (Deletable.Live ns) =>
          Some (config (Versioned.get_ref (ns_replication_info ns)))
      | _ => None
      end
  | _ => None
  end.

(** The tables [a] and [b] of database [d], with table [a] ready for
    writes and table [b] becoming ready at the next change of the
    directory. *)
Definition world_with_status : world :=
  mk_world (mk_cluster tables_live ∅) 0%nat
           [mk_watchable tables_live []] [mk_watchable ∅ []]
           (mk_watchable {[ 9 := writes; 3 := unready ]}
                         [ {[ 9 := writes; 3 := finished ]} ]).

(** A repository of interfaces that hands out the id it is asked for. *)
Definition interface_of (table_id : namespace_id_t) : outcome N :=
  Returned table_id.

(** A status in which table 9 has a row and table 3 has none. *)
Definition status_without_b : table_status_t := {[ 9 := finished ]}.

(** Two threads and an empty store; the table of id 7 is not ready, and
    gets ready for writes at the next change of the directory. *)
Definition world_before_create : world :=
  set_directory (empty_world 2)
    (mk_watchable {[ 7 := unready ]} [ {[ 7 := writes ]} ]).
End examples.

(** * Properties *)

(** ** Waiting on a watchable *)

Lemma is_joined_true {T} `{Semilattice T, EqDecision T} (multiple divisor : T) :
  is_joined multiple divisor = true ↔ semilattice_join multiple divisor = multiple.
Proof. unfold is_joined. apply bool_decide_eq_true. Qed.

Lemma run_until_loop_Some {T} (f : T → bool) cur pending wt :
  run_until_loop f cur pending = Some wt →
  f (w_value wt) = true ∧
  ∃ skipped, cur :: pending = skipped ++ w_history wt
             ∧ Forall (λ x, f x = false) skipped.
Proof.
  revert cur. induction pending as [|next rest IH]; intros cur; simpl.
  - destruct (f cur) eqn:Hf; [|done]. intros [= <-]. split; [done|].
    exists []. by split.
  - destruct (f cur) eqn:Hf.
    + intros [= <-]. split; [done|]. exists []. by split.
    + intros Hrec. destruct (IH _ Hrec) as (Hsat & skipped & Heq & Hall).
      split; [done|]. exists (cur :: skipped). split.
      * simpl. by rewrite Heq.
      * by constructor.
Qed.

Lemma run_until_loop_None {T} (f : T → bool) cur pending :
  run_until_loop f cur pending = None ↔ Forall (λ x, f x = false) (cur :: pending).
Proof.
  revert cur. induction pending as [|next rest IH]; intros cur; simpl.
  - destruct (f cur) eqn:Hf.
    + split; [done|]. intros Hall. apply Forall_inv in Hall. congruence.
    + split; [|done]. intros _. by repeat constructor.
  - destruct (f cur) eqn:Hf.
    + split; [done|]. intros Hall. apply Forall_inv in Hall. congruence.
    + rewrite IH. split; [by constructor|]. apply Forall_inv_tail.
Qed.

Lemma run_until_satisfied_cases {T} (f : T → bool) (x : watchable T) :
  match run_until_satisfied f x with
  | Some x' =>
      f (w_value x') = true
      ∧ ∃ skipped, w_history x = skipped ++ w_history x'
                   ∧ Forall (λ v, f v = false) skipped
  | None => Forall (λ v, f v = false) (w_history x)
  end.
Proof.
  unfold run_until_satisfied.
  destruct (run_until_loop f (w_value x) (w_pending x)) as [x'|] eqn:Hrun.
  - by apply run_until_loop_Some.
  - by apply run_until_loop_None.
Qed.

Lemma watchable_eta {T} (x : watchable T) : mk_watchable (w_value x) (w_pending x) = x.
Proof. by destruct x. Qed.

Lemma run_until_satisfied_now {T} (f : T → bool) (x : watchable T) :
  f (w_value x) = true → run_until_satisfied f x = Some x.
Proof.
  intros Hf. unfold run_until_satisfied.
  destruct (w_pending x) eqn:Hp; simpl; rewrite Hf; by rewrite <- Hp, watchable_eta.
Qed.

(** ** The propagation barrier *)

(** The three ways [wait_for_metadata_to_propagate] ends. *)
Lemma wait_for_metadata_to_propagate_cases
    (metadata : cluster_semilattice_metadata_t) (threadnum : nat) (w : world) :
  match wait_for_metadata_to_propagate metadata threadnum w with
  | Returned w' =>
      semilattice_root_view w' = semilattice_root_view w
      ∧ home_thread w' = home_thread w
      ∧ directory w' = directory w
      ∧ ∃ nsw nsw' dbw dbw',
          cross_thread_namespace_watchables w !! threadnum = Some nsw
          ∧ cross_thread_database_watchables w !! threadnum = Some dbw
          ∧ cross_thread_namespace_watchables w'
            = <[threadnum := nsw']> (cross_thread_namespace_watchables w)
          ∧ cross_thread_database_watchables w'
            = <[threadnum := dbw']> (cross_thread_database_watchables w)
          ∧ (∃ skipped,
               w_history nsw = skipped ++ w_history nsw'
               ∧ Forall (λ md, is_joined md (rdb_namespaces metadata) = false) skipped)
          ∧ (∃ skipped,
               w_history dbw = skipped ++ w_history dbw'
               ∧ Forall (λ md, is_joined md (databases metadata) = false) skipped)
          ∧ is_joined (w_value nsw') (rdb_namespaces metadata) = true
          ∧ is_joined (w_value dbw') (databases metadata) = true
  | Interrupted =>
      (∃ nsw, cross_thread_namespace_watchables w !! threadnum = Some nsw
              ∧ Forall (λ md, is_joined md (rdb_namespaces metadata) = false)
                       (w_history nsw))
      ∨ (∃ dbw, cross_thread_database_watchables w !! threadnum = Some dbw
                ∧ Forall (λ md, is_joined md (databases metadata) = false)
                         (w_history dbw))
  | GuaranteeFailed =>
      cross_thread_namespace_watchables w !! threadnum = None
      ∨ cross_thread_database_watchables w !! threadnum = None
  | SanityCheckFailed => False
  end.
Proof.
  unfold wait_for_metadata_to_propagate.
  destruct (cross_thread_namespace_watchables w !! threadnum) as [nsw|] eqn:Hnsw;
    simpl; [|by left].
  pose proof (run_until_satisfied_cases
                (λ md, is_joined md (rdb_namespaces metadata)) nsw) as Hns.
  destruct (run_until_satisfied _ nsw) as [nsw'|]; simpl.
  2:{ left. by exists nsw. }
  destruct Hns as (Hnsat & Hnskip).
  destruct (cross_thread_database_watchables w !! threadnum) as [dbw|] eqn:Hdbw;
    simpl; [|by right].
  pose proof (run_until_satisfied_cases
                (λ md, is_joined md (databases metadata)) dbw) as Hdb.
  destruct (run_until_satisfied _ dbw) as [dbw'|]; simpl.
  2:{ right. by exists dbw. }
  destruct Hdb as (Hdsat & Hdskip).
  split_and!; [done..|]. by exists nsw, nsw', dbw, dbw'.
Qed.

(** C1. [wait_for_metadata_to_propagate] is the subsumption wait: [is_joined]
    holds exactly when joining the divisor into the multiple gives back the
    multiple.  The wait touches neither the store nor the directory nor the
    watchables of other threads.  When it returns, each of the two copies
    of the thread (namespaces, databases) has skipped only values that did
    not subsume its part of the target, and now holds one that does, which
    is what [get_namespaces_metadata] and [get_databases_metadata] then
    read.  It is interrupted only if one of the two copies never subsumes
    its part, and it fails its guarantee only if the thread has no
    watchable. *)
Theorem wait_for_metadata_to_propagate_subsumes
    (metadata : cluster_semilattice_metadata_t) (threadnum : nat) (w : world) :
  (∀ (T : Type) (J : Semilattice T) (E : EqDecision T) (multiple divisor : T),
     is_joined multiple divisor = true
     ↔ semilattice_join multiple divisor = multiple) ∧
  match wait_for_metadata_to_propagate metadata threadnum w with
  | Returned w' =>
      semilattice_root_view w' = semilattice_root_view w
      ∧ directory w' = directory w
      ∧ (∀ other, other ≠ threadnum →
           cross_thread_namespace_watchables w' !! other
           = cross_thread_namespace_watchables w !! other
           ∧ cross_thread_database_watchables w' !! other
             = cross_thread_database_watchables w !! other)
      ∧ ∃ nsw nsw' dbw dbw',
          cross_thread_namespace_watchables w !! threadnum = Some nsw
          ∧ cross_thread_database_watchables w !! threadnum = Some dbw
          ∧ cross_thread_namespace_watchables w' !! threadnum = Some nsw'
          ∧ cross_thread_database_watchables w' !! threadnum = Some dbw'
          ∧ (∃ skipped,
               w_history nsw = skipped ++ w_history nsw'
               ∧ Forall (λ md, is_joined md (rdb_namespaces metadata) = false) skipped)
          ∧ (∃ skipped,
               w_history dbw = skipped ++ w_history dbw'
               ∧ Forall (λ md, is_joined md (databases metadata) = false) skipped)
          ∧ get_namespaces_metadata threadnum w' = Returned (w_value nsw')
          ∧ get_databases_metadata threadnum w' = Returned (w_value dbw')
          ∧ is_joined (w_value nsw') (rdb_namespaces metadata) = true
          ∧ is_joined (w_value dbw') (databases metadata) = true
  | Interrupted =>
      (∃ nsw, cross_thread_namespace_watchables w !! threadnum = Some nsw
              ∧ Forall (λ md, is_joined md (rdb_namespaces metadata) = false)
                       (w_history nsw))
      ∨ (∃ dbw, cross_thread_database_watchables w !! threadnum = Some dbw
                ∧ Forall (λ md, is_joined md (databases metadata) = false)
                         (w_history dbw))
  | GuaranteeFailed =>
      cross_thread_namespace_watchables w !! threadnum = None
      ∨ cross_thread_database_watchables w !! threadnum = None
  | SanityCheckFailed => False
  end.
Proof.
  split; [intros; apply is_joined_true|].
  pose proof (wait_for_metadata_to_propagate_cases metadata threadnum w) as Hc.
  destruct (wait_for_metadata_to_propagate metadata threadnum w) as [w'| | |];
    [|done..].
  destruct Hc as (Hst & _ & Hdir & nsw & nsw' & dbw & dbw'
                  & Hnsw & Hdbw & Hnsws & Hdbws & Hnsk & Hdsk & Hnj & Hdj).
  assert (cross_thread_namespace_watchables w' !! threadnum = Some nsw') as Hn'.
  { rewrite Hnsws. apply list_lookup_insert_eq. by eapply lookup_lt_Some. }
  assert (cross_thread_database_watchables w' !! threadnum = Some dbw') as Hd'.
  { rewrite Hdbws. apply list_lookup_insert_eq. by eapply lookup_lt_Some. }
  split_and!; [done..| |].
  - intros other Hne. rewrite Hnsws, Hdbws.
    by rewrite !list_lookup_insert_ne.
  - exists nsw, nsw', dbw, dbw'. split_and!; try done.
    + unfold get_namespaces_metadata. by rewrite Hn'.
    + unfold get_databases_metadata. by rewrite Hd'.
Qed.

(** ** The searcher *)

Lemma elem_of_std_map_elements {V} (m : gmap N V) k v :
  (k, v) ∈ std_map_elements m ↔ m !! k = Some v.
Proof.
  unfold std_map_elements. rewrite merge_sort_Permutation.
  apply elem_of_map_to_list.
Qed.

Lemma NoDup_fst_std_map_elements {V} (m : gmap N V) :
  NoDup (std_map_elements m).*1.
Proof.
  unfold std_map_elements. rewrite merge_sort_Permutation.
  apply NoDup_fst_map_to_list.
Qed.

Lemma elem_of_find_all {T} (pred : T → bool) (m : gmap N (deletable_t T)) id v :
  (id, v) ∈ find_all pred m ↔ m !! id = Some (Live v) ∧ pred v = true.
Proof.
  unfold find_all. rewrite list_elem_of_omap. split.
  - intros ([k d] & Hin & Hf). apply elem_of_std_map_elements in Hin.
    simpl in Hf. destruct d as [x|]; [|done].
    destruct (pred x) eqn:Hp; [|done]. by simplify_eq.
  - intros [Hm Hp]. exists (id, Live v). split.
    + by apply elem_of_std_map_elements.
    + simpl. by rewrite Hp.
Qed.

Lemma find_all_fst_sublist {T} (pred : T → bool) (m : gmap N (deletable_t T)) :
  (find_all pred m).*1 `sublist_of` (std_map_elements m).*1.
Proof.
  unfold find_all. induction (std_map_elements m) as [|[k d] l IH]; [done|].
  simpl. destruct d as [x|]; [destruct (pred x)|]; simpl;
    by (apply sublist_skip || apply sublist_cons).
Qed.

Lemma NoDup_fst_find_all {T} (pred : T → bool) (m : gmap N (deletable_t T)) :
  NoDup (find_all pred m).*1.
Proof.
  eapply sublist_NoDup; [|apply find_all_fst_sublist].
  apply NoDup_fst_std_map_elements.
Qed.

(** The three answers of [find_uniq]. *)
Lemma find_uniq_none {T} (pred : T → bool) (m : gmap N (deletable_t T)) it :
  find_uniq pred m = (it, METADATA_ERR_NONE) ↔
  it = None ∧ ∀ id v, m !! id = Some (Live v) → pred v = false.
Proof.
  unfold find_uniq. destruct (find_all pred m) as [|[id0 v0] [|it2 l]] eqn:Hall.
  - split.
    + intros [= <-]. split; [done|]. intros id v Hm.
      destruct (pred v) eqn:Hp; [|done].
      assert ((id, v) ∈ find_all pred m) as Hin by by apply elem_of_find_all.
      rewrite Hall in Hin. by apply elem_of_nil in Hin.
    + by intros [-> _].
  - split; [done|]. intros [_ Hno].
    assert ((id0, v0) ∈ find_all pred m) as Hin by (rewrite Hall; left).
    apply elem_of_find_all in Hin as [Hm Hp]. rewrite (Hno _ _ Hm) in Hp. done.
  - split; [done|]. intros [_ Hno].
    assert ((id0, v0) ∈ find_all pred m) as Hin by (rewrite Hall; left).
    apply elem_of_find_all in Hin as [Hm Hp]. rewrite (Hno _ _ Hm) in Hp. done.
Qed.

Lemma find_uniq_success {T} (pred : T → bool) (m : gmap N (deletable_t T)) it :
  find_uniq pred m = (it, METADATA_SUCCESS) ↔
  ∃ id v, it = Some (id, v) ∧ m !! id = Some (Live v) ∧ pred v = true
          ∧ ∀ id' v', m !! id' = Some (Live v') → pred v' = true → id' = id.
Proof.
  unfold find_uniq. destruct (find_all pred m) as [|[id0 v0] [|[id1 v1] l]] eqn:Hall.
  - split; [done|]. intros (id & v & _ & Hm & Hp & _).
    assert ((id, v) ∈ find_all pred m) as Hin by by apply elem_of_find_all.
    rewrite Hall in Hin. by apply elem_of_nil in Hin.
  - split.
    + intros [= <-]. exists id0, v0.
      assert ((id0, v0) ∈ find_all pred m) as Hin by (rewrite Hall; left).
      apply elem_of_find_all in Hin as [Hm Hp]. repeat split; [done..|].
      intros id' v' Hm' Hp'.
      assert ((id', v') ∈ find_all pred m) as Hin' by by apply elem_of_find_all.
      rewrite Hall in Hin'. apply list_elem_of_singleton in Hin'. congruence.
    + intros (id & v & -> & Hm & Hp & _). f_equal. f_equal.
      assert ((id, v) ∈ find_all pred m) as Hin by by apply elem_of_find_all.
      rewrite Hall in Hin. by apply list_elem_of_singleton in Hin.
  - split; [done|]. intros (id & v & _ & _ & _ & Huniq).
    pose proof (NoDup_fst_find_all pred m) as Hnd. rewrite Hall in Hnd.
    assert ((id0, v0) ∈ find_all pred m) as Hin0 by (rewrite Hall; left).
    assert ((id1, v1) ∈ find_all pred m) as Hin1
      by (rewrite Hall; right; left).
    apply elem_of_find_all in Hin0 as [Hm0 Hp0].
    apply elem_of_find_all in Hin1 as [Hm1 Hp1].
    pose proof (Huniq _ _ Hm0 Hp0). pose proof (Huniq _ _ Hm1 Hp1). subst.
    simpl in Hnd. apply NoDup_cons in Hnd as [Hnot _]. exfalso. apply Hnot. left.
Qed.

Lemma find_uniq_multiple {T} (pred : T → bool) (m : gmap N (deletable_t T)) it :
  find_uniq pred m = (it, METADATA_ERR_MULTIPLE) →
  ∃ id1 v1 id2 v2, id1 ≠ id2
    ∧ m !! id1 = Some (Live v1) ∧ pred v1 = true
    ∧ m !! id2 = Some (Live v2) ∧ pred v2 = true.
Proof.
  unfold find_uniq. destruct (find_all pred m) as [|[id0 v0] [|[id1 v1] l]] eqn:Hall;
    [done..|]. intros _.
  pose proof (NoDup_fst_find_all pred m) as Hnd. rewrite Hall in Hnd.
  assert ((id0, v0) ∈ find_all pred m) as Hin0 by (rewrite Hall; left).
  assert ((id1, v1) ∈ find_all pred m) as Hin1 by (rewrite Hall; right; left).
  apply elem_of_find_all in Hin0 as [Hm0 Hp0].
  apply elem_of_find_all in Hin1 as [Hm1 Hp1].
  exists id0, v0, id1, v1. repeat split; [|done..].
  intros ->. simpl in Hnd. apply NoDup_cons in Hnd as [Hnot _]. apply Hnot. left.
Qed.

(** ** Joins *)

Lemma versioned_join_idemp {T} (a : versioned_t T) : semilattice_join a a = a.
Proof.
  unfold semilattice_join, Versioned.versioned_semilattice, Versioned.join.
  by rewrite N.ltb_irrefl.
Qed.

Lemma database_join_idemp (a : database_semilattice_metadata_t) :
  semilattice_join a a = a.
Proof.
  destruct a. unfold semilattice_join, database_semilattice. simpl.
  by rewrite versioned_join_idemp.
Qed.

Lemma namespace_join_idemp (a : namespace_semilattice_metadata_t) :
  semilattice_join a a = a.
Proof.
  destruct a. unfold semilattice_join, namespace_semilattice. simpl.
  by rewrite !versioned_join_idemp.
Qed.

Lemma deletable_join_idemp {T} `{Semilattice T} (a : deletable_t T) :
  (∀ v : T, semilattice_join v v = v) → semilattice_join a a = a.
Proof.
  intros Hv. destruct a as [v|]; [|done].
  unfold semilattice_join, Deletable.deletable_semilattice. simpl. by rewrite Hv.
Qed.

Lemma lookup_map_join {V} `{Semilattice V} (a b : gmap N V) i :
  semilattice_join a b !! i =
  union_with (λ x y, Some (semilattice_join x y)) (a !! i) (b !! i).
Proof. unfold semilattice_join at 1, map_semilattice. apply lookup_union_with. Qed.

Lemma map_join_idemp {V} `{Semilattice V} (a : gmap N V) :
  (∀ v : V, semilattice_join v v = v) → semilattice_join a a = a.
Proof.
  intros Hv. apply map_eq. intros i. rewrite lookup_map_join.
  destruct (a !! i); simpl; by rewrite ?Hv.
Qed.

Lemma databases_join_idemp (a : databases_semilattice_metadata_t) :
  semilattice_join a a = a.
Proof.
  apply map_join_idemp. intros v. apply deletable_join_idemp, database_join_idemp.
Qed.

Lemma namespaces_join_idemp (a : namespaces_semilattice_metadata_t) :
  semilattice_join a a = a.
Proof.
  apply map_join_idemp. intros v. apply deletable_join_idemp, namespace_join_idemp.
Qed.

(** Joining a later state of a map into an earlier one gives the later
    state. *)
Lemma map_join_later {T} `{Semilattice T} (older newer : gmap N (deletable_t T)) :
  (∀ v : T, semilattice_join v v = v) →
  (∀ id, newer !! id = None → older !! id = None) →
  entries_le older newer →
  semilattice_join older newer = newer.
Proof.
  intros Hv Hdom Hle. apply map_eq. intros i. rewrite lookup_map_join.
  destruct (older !! i) as [e|] eqn:Ho.
  - destruct (Hle _ _ Ho) as [-> | ->]; simpl; f_equal.
    + by apply deletable_join_idemp.
    + by destruct e.
  - by destruct (newer !! i).
Qed.

(** ** The store *)

Lemma has_watchables_root_view_join threadnum md w :
  has_watchables threadnum w → has_watchables threadnum (root_view_join md w).
Proof.
  intros [[nsw Hn] [dbw Hd]]. unfold has_watchables, root_view_join. simpl.
  rewrite !list_lookup_fmap, Hn, Hd. split; by eexists.
Qed.

(** After a join into the store the barrier on the new value of the store
    is passed on every thread that has its watchables: the value itself is
    on its way to the copies of the thread. *)
Lemma wait_after_join (md : cluster_semilattice_metadata_t) threadnum (w : world)
    nsw dbw :
  cross_thread_namespace_watchables w !! threadnum = Some nsw →
  cross_thread_database_watchables w !! threadnum = Some dbw →
  let w1 := root_view_join md w in
  ∃ w' nsw' dbw',
    wait_for_metadata_to_propagate (semilattice_root_view w1) threadnum w1
    = Returned w'
    ∧ semilattice_root_view w' = semilattice_join (semilattice_root_view w) md
    ∧ home_thread w' = home_thread w
    ∧ directory w' = directory w
    ∧ cross_thread_namespace_watchables w'
      = <[threadnum := nsw']> (cross_thread_namespace_watchables w1)
    ∧ cross_thread_database_watchables w'
      = <[threadnum := dbw']> (cross_thread_database_watchables w1)
    ∧ cross_thread_namespace_watchables w' !! threadnum = Some nsw'
    ∧ cross_thread_database_watchables w' !! threadnum = Some dbw'
    ∧ is_joined (w_value nsw') (rdb_namespaces (semilattice_root_view w')) = true
    ∧ is_joined (w_value dbw') (databases (semilattice_root_view w')) = true
    ∧ (∃ skipped,
         w_history nsw ++ [rdb_namespaces (semilattice_root_view w')]
         = skipped ++ w_history nsw')
    ∧ (∃ skipped,
         w_history dbw ++ [databases (semilattice_root_view w')]
         = skipped ++ w_history dbw').
Proof.
  intros Hn Hd w1.
  assert (cross_thread_namespace_watchables w1 !! threadnum
          = Some (publish (rdb_namespaces (semilattice_root_view w1)) nsw)) as Hn1.
  { unfold w1, root_view_join. simpl. by rewrite list_lookup_fmap, Hn. }
  assert (cross_thread_database_watchables w1 !! threadnum
          = Some (publish (databases (semilattice_root_view w1)) dbw)) as Hd1.
  { unfold w1, root_view_join. simpl. by rewrite list_lookup_fmap, Hd. }
  pose proof (wait_for_metadata_to_propagate_cases
                (semilattice_root_view w1) threadnum w1) as Hcases.
  destruct (wait_for_metadata_to_propagate (semilattice_root_view w1) threadnum w1)
    as [w'| | |]; [| | |done].
  - destruct Hcases as (Hst & Hhome & Hdir & nsw0 & nsw' & dbw0 & dbw'
                        & Hn0 & Hd0 & Hnsws & Hdbws
                        & (ns & Hns & _) & (ds & Hds & _) & Hjn & Hjd).
    rewrite Hn1 in Hn0. rewrite Hd1 in Hd0. simplify_eq.
    exists w', nsw', dbw'. rewrite Hst. split_and!; try done.
    + rewrite Hnsws. apply list_lookup_insert_eq. by eapply lookup_lt_Some.
    + rewrite Hdbws. apply list_lookup_insert_eq. by eapply lookup_lt_Some.
    + by exists ns.
    + by exists ds.
  - exfalso. destruct Hcases as [(x & Hx & Hall) | (x & Hx & Hall)];
      rewrite Forall_forall in Hall.
    + rewrite Hn1 in Hx. simplify_eq.
      specialize (Hall (rdb_namespaces (semilattice_root_view w1))).
      rewrite (proj2 (is_joined_true _ _)) in Hall
        by apply namespaces_join_idemp.
      assert (true = false) as [=]. apply Hall.
      unfold w_history, publish. simpl.
      apply elem_of_cons. right. apply elem_of_app. right. left.
    + rewrite Hd1 in Hx. simplify_eq.
      specialize (Hall (databases (semilattice_root_view w1))).
      rewrite (proj2 (is_joined_true _ _)) in Hall
        by apply databases_join_idemp.
      assert (true = false) as [=]. apply Hall.
      unfold w_history, publish. simpl.
      apply elem_of_cons. right. apply elem_of_app. right. left.
  - exfalso. destruct Hcases as [Hx | Hx]; congruence.
Qed.

(** ** [db_create] *)

Lemma std_map_insert_fresh {V} (k : N) (v : V) (m : gmap N V) :
  m !! k = None → std_map_insert k v m = <[k := v]> m.
Proof. intros Hk. unfold std_map_insert. by rewrite Hk. Qed.

Lemma entries_le_refl {T} (m : gmap N (deletable_t T)) : entries_le m m.
Proof. intros id e He. by left. Qed.

Lemma entries_le_insert_fresh {T} (m : gmap N (deletable_t T)) k e :
  m !! k = None → entries_le m (<[k := e]> m).
Proof.
  intros Hk id e' He. left. rewrite lookup_insert_ne; [done|]. congruence.
Qed.

Lemma entries_le_trans {T} (a b c : gmap N (deletable_t T)) :
  entries_le a b → entries_le b c → entries_le a c.
Proof.
  intros Hab Hbc id e He. destruct (Hab _ _ He) as [Hb | Hb].
  - by apply Hbc.
  - right. by destruct (Hbc _ _ Hb).
Qed.

Lemma names_database_by_name dbs name :
  names_database dbs name ↔
  ∃ id db, dbs !! id = Some (Live db) ∧ database_by_name name db = true.
Proof.
  unfold names_database, database_by_name.
  split; intros (id & db & Hm & Hn); exists id, db; split; try done.
  - by apply bool_decide_eq_true.
  - by apply bool_decide_eq_true in Hn.
Qed.

Lemma names_database_or_not dbs name :
  names_database dbs name ∨ ¬ names_database dbs name.
Proof.
  destruct (find_uniq (database_by_name name) dbs) as [it status] eqn:Hf.
  destruct status.
  - left. apply find_uniq_success in Hf as (id & db & _ & Hm & Hp & _).
    apply names_database_by_name. by exists id, db.
  - right. apply find_uniq_none in Hf as [_ Hno].
    rewrite names_database_by_name. intros (id & db & Hm & Hp).
    rewrite (Hno _ _ Hm) in Hp. done.
  - left. apply find_uniq_multiple in Hf as (id & db & _ & _ & _ & Hm & Hp & _).
    apply names_database_by_name. by exists id, db.
Qed.

(** Under the uniqueness invariant [find_uniq] by name never finds several
    databases. *)
Lemma find_uniq_database_unique dbs name it :
  database_names_unique dbs →
  find_uniq (database_by_name name) dbs ≠ (it, METADATA_ERR_MULTIPLE).
Proof.
  intros Huniq Hf.
  apply find_uniq_multiple in Hf as (i1 & v1 & i2 & v2 & Hne & H1 & P1 & H2 & P2).
  apply bool_decide_eq_true in P1, P2. apply Hne.
  apply (Huniq _ _ _ _ H1 H2). congruence.
Qed.

Lemma find_uniq_database_cases dbs name :
  database_names_unique dbs →
  (names_database dbs name
   ∧ ∃ id db, find_uniq (database_by_name name) dbs = (Some (id, db), METADATA_SUCCESS)
              ∧ dbs !! id = Some (Live db)
              ∧ Versioned.get_ref (db_name db) = name)
  ∨ (¬ names_database dbs name
     ∧ find_uniq (database_by_name name) dbs = (None, METADATA_ERR_NONE)).
Proof.
  intros Huniq.
  destruct (find_uniq (database_by_name name) dbs) as [it status] eqn:Hf.
  destruct status.
  - left. apply find_uniq_success in Hf as (id & db & -> & Hm & Hp & _).
    apply bool_decide_eq_true in Hp. split; [by exists id, db|].
    by exists id, db.
  - right. apply find_uniq_none in Hf as [-> Hno]. split; [|done].
    intros (id & db & Hm & Hn). specialize (Hno _ _ Hm).
    unfold database_by_name in Hno. by apply bool_decide_eq_false in Hno.
  - by apply find_uniq_database_unique in Hf.
Qed.

Lemma cluster_join_unfold (a b : cluster_semilattice_metadata_t) :
  semilattice_join a b =
  mk_cluster (semilattice_join (rdb_namespaces a) (rdb_namespaces b))
             (semilattice_join (databases a) (databases b)).
Proof. done. Qed.

Lemma databases_join_insert_fresh (dbs : databases_semilattice_metadata_t) k e :
  dbs !! k = None → semilattice_join dbs (<[k := e]> dbs) = <[k := e]> dbs.
Proof.
  intros Hk. apply map_join_later.
  - apply database_join_idemp.
  - intros id Hid. apply lookup_insert_None in Hid. tauto.
  - by apply entries_le_insert_fresh.
Qed.

Lemma database_names_unique_insert dbs k name :
  database_names_unique dbs → ¬ names_database dbs name →
  database_names_unique (<[k := Live (mk_database (Versioned.make name))]> dbs).
Proof.
  intros Huniq Hfree i1 i2 d1 d2 H1 H2 Hn.
  apply lookup_insert_Some in H1 as [[<- H1] | [Hne1 H1]];
    apply lookup_insert_Some in H2 as [[<- H2] | [Hne2 H2]]; simplify_eq; simpl in *.
  - done.
  - exfalso. apply Hfree. by exists i2, d2.
  - exfalso. apply Hfree. by exists i1, d1.
  - by apply (Huniq _ _ _ _ H1 H2).
Qed.

(** What [db_create] does, by the answer of the search. *)
Lemma db_create_found name fresh threadnum w :
  name ≠ rethinkdb →
  database_names_unique (databases (semilattice_root_view w)) →
  names_database (databases (semilattice_root_view w)) name →
  db_create name fresh threadnum w
  = Returned (Failure (AlreadyExists "Database" name), w).
Proof.
  intros Hname Huniq Hex. unfold db_create.
  rewrite bool_decide_eq_true_2 by done. simpl.
  destruct (find_uniq_database_cases _ name Huniq)
    as [(_ & id & db & -> & _) | [Hno _]]; [done|]. by destruct Hno.
Qed.

Lemma db_create_free name fresh threadnum w nsw dbw :
  name ≠ rethinkdb →
  ¬ names_database (databases (semilattice_root_view w)) name →
  cross_thread_namespace_watchables w !! threadnum = Some nsw →
  cross_thread_database_watchables w !! threadnum = Some dbw →
  ∃ w' dbw',
    db_create name fresh threadnum w = Returned (Success (), w')
    ∧ semilattice_root_view w' =
        semilattice_join (semilattice_root_view w)
          (mk_cluster (rdb_namespaces (semilattice_root_view w))
             (std_map_insert fresh
                (Live (mk_database (Versioned.make name)))
                (databases (semilattice_root_view w))))
    ∧ directory w' = directory w
    ∧ has_watchables threadnum w'
    ∧ length (cross_thread_namespace_watchables w')
      = length (cross_thread_namespace_watchables w)
    ∧ length (cross_thread_database_watchables w')
      = length (cross_thread_database_watchables w)
    ∧ cross_thread_database_watchables w' !! threadnum = Some dbw'
    ∧ is_joined (w_value dbw') (databases (semilattice_root_view w')) = true
    ∧ (∃ skipped,
         w_history dbw ++ [databases (semilattice_root_view w')]
         = skipped ++ w_history dbw').
Proof.
  intros Hname Hfree Hn Hd. unfold db_create.
  rewrite bool_decide_eq_true_2 by done.
  cbv beta zeta iota delta [guarantee mbind outcome_bind].
  destruct (find_uniq (database_by_name name) _) as [it status] eqn:Hf.
  destruct status.
  - exfalso. apply find_uniq_success in Hf as (id & db & _ & Hm & Hp & _).
    apply Hfree, names_database_by_name. by exists id, db.
  - cbv beta zeta iota delta [check_metadata_status mbind outcome_bind].
    match goal with |- context [root_view_join ?md w] =>
      destruct (wait_after_join md threadnum w nsw dbw Hn Hd)
        as (w' & nsw' & dbw' & -> & Hst & _ & Hdir & Hnsws & Hdbws & Hn' & Hd'
            & _ & Hjd & _ & Hds)
    end.
    assert (has_watchables threadnum w') as Hhas by (split; by eexists).
    exists w', dbw'. split_and!; try done.
    + rewrite Hnsws, length_insert. unfold root_view_join. simpl.
      by rewrite length_fmap.
    + rewrite Hdbws, length_insert. unfold root_view_join. simpl.
      by rewrite length_fmap.
  - exfalso. apply find_uniq_multiple in Hf as (id & db & _ & _ & _ & Hm & Hp & _).
    apply Hfree, names_database_by_name. by exists id, db.
Qed.

(** C2. For a name other than the reserved one, on a store that satisfies
    the uniqueness invariant, with a generated id not in use, called on a
    thread that has its watchables: [db_create] fails with AlreadyExists
    exactly when some live database has the name, and it fails in no other
    way; otherwise it returns [true], the databases of the store are the old
    ones plus the one new live entry under the generated id, every other
    entry and all the tables are as before, the invariant still holds, and a
    further [db_create] of the same name fails with AlreadyExists. *)
Theorem db_create_already_exists_iff (name : name_string_t) (fresh : uuid_u)
    (threadnum : nat) (w : world) :
  name ≠ rethinkdb →
  database_names_unique (databases (semilattice_root_view w)) →
  databases (semilattice_root_view w) !! fresh = None →
  has_watchables threadnum w →
  let dbs := databases (semilattice_root_view w) in
  (db_create name fresh threadnum w
   = Returned (Failure (AlreadyExists "Database" name), w)
   ↔ names_database dbs name)
  ∧ (∀ e w', db_create name fresh threadnum w = Returned (Failure e, w') →
             e = AlreadyExists "Database" name ∧ w' = w)
  ∧ (¬ names_database dbs name →
     ∃ w', db_create name fresh threadnum w = Returned (Success (), w')
       ∧ databases (semilattice_root_view w')
         = <[fresh := Live (mk_database (Versioned.make name))]> dbs
       ∧ (∀ id, id ≠ fresh → databases (semilattice_root_view w') !! id = dbs !! id)
       ∧ rdb_namespaces (semilattice_root_view w')
         = rdb_namespaces (semilattice_root_view w)
       ∧ database_names_unique (databases (semilattice_root_view w'))
       ∧ has_watchables threadnum w'
       ∧ ∀ fresh', db_create name fresh' threadnum w'
                   = Returned (Failure (AlreadyExists "Database" name), w')).
Proof.
  intros Hname Huniq Hfresh [[nsw Hn] [dbw Hd]] dbs.
  assert (¬ names_database dbs name →
     ∃ w', db_create name fresh threadnum w = Returned (Success (), w')
       ∧ databases (semilattice_root_view w')
         = <[fresh := Live (mk_database (Versioned.make name))]> dbs
       ∧ rdb_namespaces (semilattice_root_view w')
         = rdb_namespaces (semilattice_root_view w)
       ∧ has_watchables threadnum w') as Hsucc.
  { intros Hfree.
    destruct (db_create_free name fresh threadnum w nsw dbw Hname Hfree Hn Hd)
      as (w' & dbw' & Hrun & Hst & _ & Hhas & _).
    exists w'. split; [done|]. rewrite Hst, cluster_join_unfold. simpl.
    rewrite std_map_insert_fresh by done. split_and!; [|apply namespaces_join_idemp|done].
    by apply databases_join_insert_fresh. }
  split; [split|split].
  - intros Hrun. destruct (names_database_or_not dbs name) as [|Hfree]; [done|].
    destruct (Hsucc Hfree) as (w' & Hrun' & _). congruence.
  - by apply db_create_found.
  - intros e w' Hrun. destruct (names_database_or_not dbs name) as [Hex|Hfree].
    + rewrite (db_create_found name fresh threadnum w) in Hrun by done.
      by simplify_eq.
    + destruct (Hsucc Hfree) as (w'' & Hrun' & _). congruence.
  - intros Hfree. destruct (Hsucc Hfree) as (w' & Hrun & Hdbs & Hnss & Hhas).
    exists w'. rewrite Hdbs. split_and!; try done.
    + intros id Hid. by rewrite lookup_insert_ne.
    + by apply database_names_unique_insert.
    + intros fresh'. apply db_create_found; [done|..]; rewrite Hdbs.
      * by apply database_names_unique_insert.
      * exists fresh, (mk_database (Versioned.make name)).
        by rewrite lookup_insert_eq.
Qed.

(** ** [db_drop] *)

Lemma entries_le_mark_deleted {T} (m : gmap N (deletable_t T)) k :
  entries_le m (<[k := Deleted]> m).
Proof.
  intros id e He. destruct (decide (k = id)) as [->|Hne].
  - right. by rewrite lookup_insert_eq.
  - left. by rewrite lookup_insert_ne.
Qed.

Lemma foldl_mark_deleted_lookup {T} (l : list (N * T)) (m : gmap N (deletable_t T)) i :
  foldl (λ acc it, <[it.1 := Deletable.mark_deleted (Live it.2)]> acc) m l !! i
  = if decide (i ∈ l.*1) then Some Deleted else m !! i.
Proof.
  revert m. induction l as [|[k v] l IH]; intros m; simpl.
  - destruct (decide (i ∈ [])) as [Hin|]; [|done]. by apply elem_of_nil in Hin.
  - rewrite IH. destruct (decide (i ∈ l.*1)) as [Hin|Hnin].
    + rewrite decide_True; [done|]. by right.
    + destruct (decide (k = i)) as [->|Hne].
      * rewrite lookup_insert_eq. rewrite decide_True; [done|]. left.
      * rewrite lookup_insert_ne by done. rewrite decide_False; [done|].
        intros Hin. apply elem_of_cons in Hin as [?|?]; [congruence|done].
Qed.

Lemma elem_of_find_all_fst {T} (pred : T → bool) (m : gmap N (deletable_t T)) id :
  id ∈ (find_all pred m).*1 ↔ ∃ v, m !! id = Some (Live v) ∧ pred v = true.
Proof.
  rewrite list_elem_of_fmap. split.
  - intros ([k v] & -> & Hin). apply elem_of_find_all in Hin. by exists v.
  - intros (v & Hm & Hp). exists (id, v). split; [done|]. by apply elem_of_find_all.
Qed.

(** The cascade of [db_drop]: exactly the live tables of the database
    become tombstones. *)
Lemma mark_tables_deleted_lookup db_id (nss : namespaces_semilattice_metadata_t) i :
  mark_tables_deleted db_id nss !! i =
  match nss !! i with
  | Some (Deletable.Live ns) =>
      if bool_decide (Versioned.get_ref (ns_database ns) = db_id)
      then Some Deleted else Some (Live ns)
  | other => other
  end.
Proof.
  unfold mark_tables_deleted. rewrite foldl_mark_deleted_lookup.
  destruct (decide (i ∈ _)) as [Hin|Hnin].
  - apply elem_of_find_all_fst in Hin as (v & -> & Hp).
    unfold namespace_predicate_t in Hp. simpl in Hp. by rewrite Hp.
  - destruct (nss !! i) as [[ns|]|] eqn:Hm; try done.
    destruct (bool_decide _) eqn:Hp; [|done].
    exfalso. apply Hnin, elem_of_find_all_fst. by exists ns.
Qed.

Lemma namespaces_join_mark_deleted db_id (nss : namespaces_semilattice_metadata_t) :
  semilattice_join nss (mark_tables_deleted db_id nss) = mark_tables_deleted db_id nss.
Proof.
  apply map_join_later.
  - apply namespace_join_idemp.
  - intros id. rewrite mark_tables_deleted_lookup.
    destruct (nss !! id) as [[ns|]|]; try done. by destruct (bool_decide _).
  - intros id e He. rewrite mark_tables_deleted_lookup, He.
    destruct e as [ns|]; [|by left]. destruct (bool_decide _); [by right|by left].
Qed.

Lemma databases_join_mark_deleted (dbs : databases_semilattice_metadata_t) k :
  is_Some (dbs !! k) →
  semilattice_join dbs (<[k := Deleted]> dbs) = <[k := Deleted]> dbs.
Proof.
  intros [e He]. apply map_join_later.
  - apply database_join_idemp.
  - intros id Hid. apply lookup_insert_None in Hid. tauto.
  - apply entries_le_mark_deleted.
Qed.

Lemma database_names_unique_delete dbs k :
  database_names_unique dbs → database_names_unique (<[k := Deleted]> dbs).
Proof.
  intros Huniq i1 i2 d1 d2 H1 H2 Hn.
  apply lookup_insert_Some in H1 as [[_ [=]] | [_ H1]].
  apply lookup_insert_Some in H2 as [[_ [=]] | [_ H2]].
  by apply (Huniq _ _ _ _ H1 H2).
Qed.

Lemma names_database_mark_deleted dbs k db n :
  database_names_unique dbs → dbs !! k = Some (Live db) →
  names_database (<[k := Deleted]> dbs) n
  ↔ names_database dbs n ∧ n ≠ Versioned.get_ref (db_name db).
Proof.
  intros Huniq Hk. split.
  - intros (id & d & Hm & Hn).
    apply lookup_insert_Some in Hm as [[_ [=]] | [Hne Hm]].
    split; [by exists id, d|]. intros ->. apply Hne.
    by apply (Huniq _ _ _ _ Hk Hm).
  - intros [(id & d & Hm & Hn) Hne]. exists id, d. split; [|done].
    rewrite lookup_insert_ne; [done|]. intros <-. congruence.
Qed.

Lemma db_drop_absent name threadnum w :
  name ≠ rethinkdb →
  ¬ names_database (databases (semilattice_root_view w)) name →
  db_drop name threadnum w = Returned (Failure (NotFound "Database" name), w).
Proof.
  intros Hname Hno. unfold db_drop. rewrite bool_decide_eq_true_2 by done. simpl.
  destruct (find_uniq (database_by_name name) _) as [it status] eqn:Hf.
  destruct status; [| done |].
  - exfalso. apply find_uniq_success in Hf as (id & db & _ & Hm & Hp & _).
    apply Hno, names_database_by_name. by exists id, db.
  - exfalso. apply find_uniq_multiple in Hf as (id & db & _ & _ & _ & Hm & Hp & _).
    apply Hno, names_database_by_name. by exists id, db.
Qed.

Lemma db_drop_present name threadnum w id db nsw dbw :
  name ≠ rethinkdb →
  database_names_unique (databases (semilattice_root_view w)) →
  databases (semilattice_root_view w) !! id = Some (Live db) →
  Versioned.get_ref (db_name db) = name →
  cross_thread_namespace_watchables w !! threadnum = Some nsw →
  cross_thread_database_watchables w !! threadnum = Some dbw →
  ∃ w' dbw',
    db_drop name threadnum w = Returned (Success (), w')
    ∧ semilattice_root_view w' =
        mk_cluster (mark_tables_deleted id (rdb_namespaces (semilattice_root_view w)))
                   (<[id := Deleted]> (databases (semilattice_root_view w)))
    ∧ directory w' = directory w
    ∧ has_watchables threadnum w'
    ∧ length (cross_thread_namespace_watchables w')
      = length (cross_thread_namespace_watchables w)
    ∧ length (cross_thread_database_watchables w')
      = length (cross_thread_database_watchables w)
    ∧ cross_thread_database_watchables w' !! threadnum = Some dbw'
    ∧ is_joined (w_value dbw') (databases (semilattice_root_view w')) = true
    ∧ (∃ skipped,
         w_history dbw ++ [databases (semilattice_root_view w')]
         = skipped ++ w_history dbw').
Proof.
  intros Hname Huniq Hm Hname_db Hn Hd. unfold db_drop.
  rewrite bool_decide_eq_true_2 by done.
  cbv beta zeta iota delta [guarantee mbind outcome_bind].
  destruct (find_uniq_database_cases _ name Huniq)
    as [(_ & id' & db' & -> & Hm' & Hn') | [Hno _]].
  2:{ destruct Hno. by exists id, db. }
  assert (id' = id) as -> by (apply (Huniq _ _ _ _ Hm' Hm); congruence).
  assert (db' = db) as -> by congruence.
  cbv beta zeta iota delta [check_metadata_status guarantee_has mbind outcome_bind].
  match goal with |- context [root_view_join ?md w] =>
    destruct (wait_after_join md threadnum w nsw dbw Hn Hd)
      as (w' & nsw' & dbw' & -> & Hst & _ & Hdir & Hnsws & Hdbws & Hn1 & Hd1
          & _ & Hjd & _ & Hds)
  end.
  assert (has_watchables threadnum w') as Hhas by (split; by eexists).
  exists w', dbw'. split_and!; try done.
  - rewrite Hst, cluster_join_unfold. simpl.
    rewrite namespaces_join_mark_deleted.
    rewrite databases_join_mark_deleted by by eexists. done.
  - rewrite Hnsws, length_insert. unfold root_view_join. simpl.
    by rewrite length_fmap.
  - rewrite Hdbws, length_insert. unfold root_view_join. simpl.
    by rewrite length_fmap.
Qed.

(** C3. For a name other than the reserved one, on a store that satisfies
    the uniqueness invariant, called on a thread that has its watchables:
    [db_drop] fails with NotFound exactly when no live database has the
    name, and it fails in no other way; when the live database [id] has the
    name it returns [true], the entry of [id] stays in the map as a
    tombstone, every other database entry is as before, a table entry is a
    tombstone afterwards if it was live in database [id] and is unchanged
    otherwise, and a further [db_drop] of the same name fails with
    NotFound. *)
Theorem db_drop_not_found_iff (name : name_string_t) (threadnum : nat) (w : world) :
  name ≠ rethinkdb →
  database_names_unique (databases (semilattice_root_view w)) →
  has_watchables threadnum w →
  let dbs := databases (semilattice_root_view w) in
  let nss := rdb_namespaces (semilattice_root_view w) in
  (db_drop name threadnum w = Returned (Failure (NotFound "Database" name), w)
   ↔ ¬ names_database dbs name)
  ∧ (∀ e w', db_drop name threadnum w = Returned (Failure e, w') →
             e = NotFound "Database" name ∧ w' = w)
  ∧ (∀ id db, dbs !! id = Some (Live db) → Versioned.get_ref (db_name db) = name →
     ∃ w', db_drop name threadnum w = Returned (Success (), w')
       ∧ databases (semilattice_root_view w') !! id = Some Deleted
       ∧ (∀ id', id' ≠ id → databases (semilattice_root_view w') !! id' = dbs !! id')
       ∧ (∀ tid, rdb_namespaces (semilattice_root_view w') !! tid =
            match nss !! tid with
            | Some (Deletable.Live ns) =>
                if bool_decide (Versioned.get_ref (ns_database ns) = id)
                then Some Deleted else Some (Live ns)
            | other => other
            end)
       ∧ db_drop name threadnum w'
         = Returned (Failure (NotFound "Database" name), w')).
Proof.
  intros Hname Huniq [[nsw Hnsw] [dbw Hdbw]] dbs nss.
  split; [split|split].
  - intros Hrun Hex. destruct Hex as (id & db & Hm & Hn).
    destruct (db_drop_present name threadnum w id db nsw dbw Hname Huniq Hm Hn
                Hnsw Hdbw) as (w' & ? & Hrun' & _).
    congruence.
  - by apply db_drop_absent.
  - intros e w' Hrun. destruct (names_database_or_not dbs name) as [Hex|Hno].
    + destruct Hex as (id & db & Hm & Hn).
      destruct (db_drop_present name threadnum w id db nsw dbw Hname Huniq Hm Hn
                  Hnsw Hdbw) as (w'' & ? & Hrun' & _).
      congruence.
    + rewrite (db_drop_absent name threadnum w) in Hrun by done. by simplify_eq.
  - intros id db Hm Hn.
    destruct (db_drop_present name threadnum w id db nsw dbw Hname Huniq Hm Hn
                Hnsw Hdbw) as (w' & ? & Hrun & Hst & _).
    exists w'. split; [done|].
    assert (¬ names_database (databases (semilattice_root_view w')) name) as Hgone.
    { rewrite Hst. simpl. rewrite (names_database_mark_deleted _ _ db) by done.
      intros [_ Hne]. by apply Hne. }
    rewrite Hst in *. simpl in *. split_and!.
    + by rewrite lookup_insert_eq.
    + intros id' Hne. by rewrite lookup_insert_ne.
    + intros tid. apply mark_tables_deleted_lookup.
    + apply db_drop_absent; [done|]. by rewrite Hst.
Qed.

(** ** [db_list] *)

Lemma elem_of_foldl_union_singleton {A} (f : A → string) (l : list A)
    (s : gset string) n :
  n ∈ foldl (λ acc it, acc ∪ {[ f it ]}) s l ↔ n ∈ s ∨ ∃ it, it ∈ l ∧ f it = n.
Proof.
  revert s. induction l as [|x l IH]; intros s; simpl.
  - split; [by left|]. intros [?|(it & Hin & _)]; [done|].
    by apply elem_of_nil in Hin.
  - rewrite IH. rewrite elem_of_union, elem_of_singleton. split.
    + intros [[? | ->] | (it & Hin & Hit)].
      * by left.
      * right. exists x. split; [left|done].
      * right. exists it. split; [by right|done].
    + intros [?|(it & Hin & Hit)]; [by left; left|].
      apply elem_of_cons in Hin as [->|Hin].
      * left. by right.
      * right. by exists it.
Qed.

Lemma elem_of_db_list threadnum w copy :
  get_databases_metadata threadnum w = Returned copy →
  ∃ names, db_list threadnum w = Returned names
           ∧ ∀ n, n ∈ names ↔ names_database copy n.
Proof.
  intros Hcopy. unfold db_list. rewrite Hcopy. simpl. eexists. split; [done|].
  intros n. rewrite elem_of_foldl_union_singleton. split.
  - intros [Hin|([id db] & Hin & Hn)]; [by apply not_elem_of_empty in Hin|].
    apply elem_of_find_all in Hin as [Hm _]. by exists id, db.
  - intros (id & db & Hm & Hn). right. exists (id, db). split; [|done].
    by apply elem_of_find_all.
Qed.

(** A copy that is an earlier state of the store and subsumes it has the
    live entries of the store. *)
Lemma same_live_entries {T} `{Semilattice T, EqDecision T}
    (copy store : gmap N (deletable_t T)) i v :
  entries_le copy store → is_joined copy store = true →
  copy !! i = Some (Live v) ↔ store !! i = Some (Live v).
Proof.
  intros Hle Hj. apply is_joined_true in Hj.
  assert (semilattice_join copy store !! i = copy !! i) as Hi by by rewrite Hj.
  rewrite lookup_map_join in Hi. split.
  - intros Hc. destruct (Hle _ _ Hc) as [Hs|Hs]; [done|].
    rewrite Hc, Hs in Hi. done.
  - intros Hs. rewrite Hs in Hi. destruct (copy !! i) as [e|] eqn:Hc; [|done].
    destruct (Hle _ _ Hc) as [Hs'|Hs']; congruence.
Qed.

Lemma names_database_insert_fresh dbs k name n :
  dbs !! k = None →
  names_database (<[k := Live (mk_database (Versioned.make name))]> dbs) n
  ↔ n = name ∨ names_database dbs n.
Proof.
  intros Hk. split.
  - intros (id & db & Hm & Hn).
    apply lookup_insert_Some in Hm as [[<- [= <-]] | [Hne Hm]].
    + by left.
    + right. by exists id, db.
  - intros [-> | (id & db & Hm & Hn)].
    + exists k, (mk_database (Versioned.make name)). by rewrite lookup_insert_eq.
    + exists id, db. split; [|done]. rewrite lookup_insert_ne; [done|]. congruence.
Qed.

Lemma history_after_join {T} (hist hist' skipped : list (gmap N (deletable_t T)))
    (old new : gmap N (deletable_t T)) :
  Forall (λ v, entries_le v old) hist → entries_le old new →
  hist ++ [new] = skipped ++ hist' →
  Forall (λ v, entries_le v new) hist'.
Proof.
  intros Hall Hle Heq.
  assert (Forall (λ v, entries_le v new) (hist ++ [new])) as Hall'.
  { apply Forall_app. split.
    - eapply Forall_impl; [exact Hall|]. intros v Hv. simpl in *.
      by apply (entries_le_trans v old new).
    - constructor; [apply entries_le_refl|constructor]. }
  rewrite Heq in Hall'. by apply Forall_app in Hall' as [_ ?].
Qed.

Lemma db_inv_empty num_threads threadnum :
  (threadnum < num_threads)%nat → db_inv threadnum (empty_world num_threads) [].
Proof.
  intros Hthr. split; simpl.
  - intros ? ? ? ? Hm. by rewrite lookup_empty in Hm.
  - intros id [e He]. by rewrite lookup_empty in He.
  - intros n. split.
    + intros (id & db & Hm & _). by rewrite lookup_empty in Hm.
    + intros [Hin _]. by apply elem_of_nil in Hin.
  - intros n Hin. by apply elem_of_nil in Hin.
  - split; simpl; rewrite lookup_replicate_2 by done; by eexists.
  - intros dbw Hdbw. apply lookup_replicate in Hdbw as [-> _]. split; [|done].
    constructor; [apply entries_le_refl|constructor].
Qed.

Lemma created_ids_app a b : created_ids (a ++ b) = created_ids a ++ created_ids b.
Proof. apply omap_app. Qed.
Lemma created_names_app a b :
  created_names (a ++ b) = created_names a ++ created_names b.
Proof. apply omap_app. Qed.
Lemma dropped_names_app a b :
  dropped_names (a ++ b) = dropped_names a ++ dropped_names b.
Proof. apply omap_app. Qed.

(** One successful operation keeps the invariant. *)
Lemma db_inv_step threadnum w done op w' :
  db_inv threadnum w done →
  NoDup (created_names (done ++ [op])) → NoDup (created_ids (done ++ [op])) →
  run_db_op op threadnum w = Returned (Success (), w') →
  db_inv threadnum w' (done ++ [op]).
Proof.
  intros [Huniq Hids Hnames Hdropped [[nsw Hnsw] [dbw Hdbw]] Hhist] Hndn Hndi Hrun.
  destruct (Hhist dbw Hdbw) as [Hle _].
  rewrite created_names_app in Hndn. rewrite created_ids_app in Hndi.
  destruct op as [name fresh | name]; simpl in *.
  - (* db_create *)
    apply NoDup_app in Hndn as (_ & Hnew & _).
    apply NoDup_app in Hndi as (_ & Hfresh & _).
    assert (name ≠ rethinkdb) as Hname.
    { intros ->. unfold db_create in Hrun.
      by rewrite bool_decide_eq_false_2 in Hrun by (intros H; by apply H). }
    assert (databases (semilattice_root_view w) !! fresh = None) as Hfree_id.
    { destruct (databases (semilattice_root_view w) !! fresh) eqn:Hm; [|done].
      exfalso. apply (Hfresh fresh); [|left]. apply Hids. by eexists. }
    assert (¬ names_database (databases (semilattice_root_view w)) name) as Hfree.
    { intros Hex. rewrite db_create_found in Hrun by done. done. }
    destruct (db_create_free name fresh threadnum w nsw dbw Hname Hfree Hnsw Hdbw)
      as (w'' & dbw' & Hrun' & Hst & _ & Hhas & _ & _ & Hdbw' & Hj & skipped & Hsk).
    assert (w'' = w') as -> by congruence.
    assert (databases (semilattice_root_view w')
            = <[fresh := Live (mk_database (Versioned.make name))]>
                (databases (semilattice_root_view w))) as Hdbs.
    { rewrite Hst, cluster_join_unfold. simpl.
      rewrite std_map_insert_fresh by done. by apply databases_join_insert_fresh. }
    split.
    + rewrite Hdbs. by apply database_names_unique_insert.
    + intros id. rewrite Hdbs, created_ids_app. simpl. intros Hsome.
      apply elem_of_app. apply lookup_insert_is_Some in Hsome as [<-|[_ Hsome]].
      * right. left.
      * left. by apply Hids.
    + intros n. rewrite Hdbs, names_database_insert_fresh by done.
      rewrite created_names_app, dropped_names_app. simpl.
      rewrite app_nil_r, elem_of_app, list_elem_of_singleton, Hnames.
      split.
      * intros [-> | [? ?]]; [|tauto]. split; [by right|].
        intros Hd. apply (Hnew name); [by apply Hdropped|left].
      * intros [[? | ->] ?]; [right|left]; done.
    + intros n. rewrite created_names_app, dropped_names_app. simpl.
      rewrite app_nil_r, elem_of_app. intros Hd. left. by apply Hdropped.
    + done.
    + intros dbw0 Hdbw0. assert (dbw0 = dbw') as -> by congruence.
      split; [|done].
      eapply history_after_join; [exact Hle| |exact Hsk].
      rewrite Hdbs. by apply entries_le_insert_fresh.
  - (* db_drop *)
    assert (name ≠ rethinkdb) as Hname.
    { intros ->. unfold db_drop in Hrun.
      by rewrite bool_decide_eq_false_2 in Hrun by (intros H; by apply H). }
    destruct (names_database_or_not (databases (semilattice_root_view w)) name)
      as [(id & db & Hm & Hn)|Hno].
    2:{ rewrite db_drop_absent in Hrun by done. done. }
    destruct (db_drop_present name threadnum w id db nsw dbw Hname Huniq Hm Hn
                Hnsw Hdbw)
      as (w'' & dbw' & Hrun' & Hst & _ & Hhas & _ & _ & Hdbw' & Hj & skipped & Hsk).
    assert (w'' = w') as -> by congruence.
    assert (databases (semilattice_root_view w')
            = <[id := Deleted]> (databases (semilattice_root_view w))) as Hdbs
      by by rewrite Hst.
    split.
    + rewrite Hdbs. by apply database_names_unique_delete.
    + intros id'. rewrite Hdbs, created_ids_app. simpl. rewrite app_nil_r.
      intros Hsome. apply Hids.
      apply lookup_insert_is_Some in Hsome as [<-|[_ Hsome]]; [by eexists|done].
    + intros n. rewrite Hdbs, (names_database_mark_deleted _ _ db) by done.
      rewrite created_names_app, dropped_names_app. simpl.
      rewrite app_nil_r, not_elem_of_app, list_elem_of_singleton, Hnames, Hn.
      tauto.
    + intros n. rewrite created_names_app, dropped_names_app. simpl.
      rewrite app_nil_r, elem_of_app, list_elem_of_singleton.
      intros [Hd | ->]; [by apply Hdropped|].
      apply Hnames. by exists id, db.
    + done.
    + intros dbw0 Hdbw0. assert (dbw0 = dbw') as -> by congruence.
      split; [|done].
      eapply history_after_join; [exact Hle| |exact Hsk].
      rewrite Hdbs. apply entries_le_mark_deleted.
Qed.

Lemma db_inv_run threadnum ops : ∀ done w w',
  db_inv threadnum w done →
  NoDup (created_names (done ++ ops)) → NoDup (created_ids (done ++ ops)) →
  run_db_ops ops threadnum w = Some w' →
  db_inv threadnum w' (done ++ ops).
Proof.
  induction ops as [|op ops IH]; intros done w w' Hinv Hndn Hndi Hrun.
  - simpl in Hrun. simplify_eq. by rewrite app_nil_r.
  - simpl in Hrun.
    destruct (run_db_op op threadnum w) as [[[[]|e] w1]| | |] eqn:Hop; try done.
    replace (done ++ op :: ops) with ((done ++ [op]) ++ ops) in *
      by by rewrite <- app_assoc.
    apply (IH _ w1); try done.
    apply (db_inv_step threadnum w done); try done.
    + rewrite created_names_app in Hndn. by apply NoDup_app in Hndn as (? & _).
    + rewrite created_ids_app in Hndi. by apply NoDup_app in Hndi as (? & _).
Qed.

(** C4. [db_list] returns exactly the names of the live database entries of
    the copy of the calling thread; and after a sequence of [db_create] and
    [db_drop] that all returned [true], run on one thread from the empty
    world, with distinct created names and distinct generated ids, it
    returns exactly the names that were created and not dropped. *)
Theorem db_list_created_not_dropped :
  (∀ threadnum w copy,
     get_databases_metadata threadnum w = Returned copy →
     ∃ names, db_list threadnum w = Returned names
              ∧ ∀ n, n ∈ names ↔ names_database copy n)
  ∧ (∀ num_threads threadnum ops w',
       (threadnum < num_threads)%nat →
       NoDup (created_names ops) → NoDup (created_ids ops) →
       run_db_ops ops threadnum (empty_world num_threads) = Some w' →
       db_list threadnum w'
       = Returned (list_to_set (created_names ops) ∖ list_to_set (dropped_names ops))).
Proof.
  split; [apply elem_of_db_list|].
  intros num_threads threadnum ops w' Hthr Hndn Hndi Hrun.
  pose proof (db_inv_run threadnum ops [] (empty_world num_threads) w'
                (db_inv_empty num_threads threadnum Hthr) Hndn Hndi Hrun)
    as [Huniq Hids Hnames Hdropped [_ [dbw Hdbw]] Hhist].
  destruct (Hhist dbw Hdbw) as [Hle Hjoined]. apply Forall_inv in Hle.
  assert (get_databases_metadata threadnum w' = Returned (w_value dbw)) as Hcopy.
  { unfold get_databases_metadata. by rewrite Hdbw. }
  destruct (elem_of_db_list threadnum w' _ Hcopy) as (names & -> & Hin).
  f_equal. simpl in Hnames. apply set_eq. intros n.
  rewrite Hin, elem_of_difference, !elem_of_list_to_set, <- Hnames.
  unfold names_database.
  split; intros (id & db & Hm & Hn); exists id, db; split; try done.
  - by apply (same_live_entries _ _ _ _ Hle Hjoined).
  - by apply (same_live_entries _ _ _ _ Hle Hjoined).
Qed.

(** ** The table waiter *)

Import table_waiter_t.

Lemma do_check_fst status r self :
  (do_check status r self).1 = ready_or_deleted status r (table_id self).
Proof.
  unfold do_check, ready_or_deleted. by destruct (get_table_readiness _ _).
Qed.

Lemma do_check_table_id status r self :
  table_id (do_check status r self).2 = table_id self.
Proof. unfold do_check. by destruct (get_table_readiness _ _). Qed.

(** A check that fails leaves the waiter as it was. *)
Lemma do_check_false status r self self' :
  do_check status r self = (false, self') → self' = self.
Proof.
  unfold do_check. destruct (get_table_readiness _ _); [|done]. by intros [= _ <-].
Qed.

Lemma w_history_inj {T} (a b : watchable T) : w_history a = w_history b → a = b.
Proof. destruct a, b. unfold w_history. simpl. by intros [= -> ->]. Qed.

Lemma w_history_length {T} (a : watchable T) :
  length (w_history a) = S (length (w_pending a)).
Proof. done. Qed.

(** ** The counter of the checks *)

Lemma wrap_int_small z : (INT_MIN ≤ z ≤ INT_MAX)%Z → wrap_int z = z.
Proof.
  unfold wrap_int, INT_MIN, INT_MAX. intros Hz.
  rewrite Z.mod_small by lia. lia.
Qed.

Lemma wrap_int_add_l a b : wrap_int (wrap_int a + b) = wrap_int (a + b).
Proof.
  unfold wrap_int.
  replace ((a - INT_MIN) mod 2 ^ 32 + INT_MIN + b - INT_MIN)%Z
    with ((a - INT_MIN) mod 2 ^ 32 + b)%Z by lia.
  rewrite Z.add_mod_idemp_l by done.
  by replace (a - INT_MIN + b)%Z with (a + b - INT_MIN)%Z by lia.
Qed.

Lemma waited_after_one : waited_after 1 = IMMEDIATE.
Proof. reflexivity. Qed.

(** Below the bound of [int] the counter tells whether there was more than
    one check. *)
Lemma waited_after_small (n : nat) :
  (Z.of_nat (S n) ≤ INT_MAX)%Z →
  waited_after (Z.of_nat (S n)) = if decide (n = 0%nat) then IMMEDIATE else WAITED.
Proof.
  intros Hn. unfold waited_after. rewrite wrap_int_small.
  - destruct (decide (n = 0%nat)) as [->|Hne].
    + by rewrite bool_decide_eq_false_2 by lia.
    + by rewrite bool_decide_eq_true_2 by lia.
  - unfold INT_MIN. lia.
Qed.

(** At the bound it is reset: [INT_MAX] checks that fail and one that
    succeeds look like a single check. *)
Lemma waited_after_wrapped : waited_after (INT_MAX + 1) = IMMEDIATE.
Proof. reflexivity. Qed.

Lemma counts_in_int_suffix {T} (a b : watchable T) skipped :
  w_history a = skipped ++ w_history b → counts_in_int a → counts_in_int b.
Proof.
  unfold counts_in_int. intros -> Ha. rewrite length_app in Ha. lia.
Qed.

Lemma wait_ready_loop_cases r pending : ∀ cur n self,
  match run_all_until_loop (wait_ready_fun r) (n, self) cur pending with
  | Some ((n', self'), dir') =>
      ∃ skipped, cur :: pending = skipped ++ w_history dir'
        ∧ Forall (λ st, ready_or_deleted st r (table_id self) = false) skipped
        ∧ n' = wrap_int (n + Z.of_nat (S (length skipped)))
        ∧ do_check (w_value dir') r self = (true, self')
  | None =>
      Forall (λ st, ready_or_deleted st r (table_id self) = false) (cur :: pending)
  end.
Proof.
  induction pending as [|next rest IH]; intros cur n self; simpl;
    destruct (do_check cur r self) as [res self1] eqn:Hc;
    pose proof (do_check_fst cur r self) as Hfst; rewrite Hc in Hfst; simpl in Hfst;
    destruct res.
  - exists []. simpl. repeat split; [constructor|done].
  - by repeat constructor.
  - exists []. simpl. repeat split; [constructor|done].
  - apply do_check_false in Hc as ->.
    specialize (IH next (wrap_int (n + 1)) self).
    destruct (run_all_until_loop _ _ next rest) as [[[n' self'] dir']|].
    + destruct IH as (skipped & Heq & Hall & Hn & Hlast).
      exists (cur :: skipped). simpl length. rewrite Heq.
      repeat split; try done.
      * by constructor.
      * rewrite Hn, wrap_int_add_l. f_equal. lia.
    + by constructor.
Qed.

Lemma wait_ready_unfold r self dir :
  wait_ready r self dir =
  match run_all_until_loop (wait_ready_fun r) (0%Z, self) (w_value dir) (w_pending dir) with
  | None => None
  | Some ((num_checks, self), table_directory) =>
      Some (if bool_decide (1 < num_checks)%Z then WAITED else IMMEDIATE,
            self, table_directory)
  end.
Proof. done. Qed.

(** What [wait_ready] returns, and where it leaves the directory: the
    result is told by the number of the checks as the [int] holds it.  A
    single check gives Immediate; and when the values of the directory are
    no more than the [int] counts, only a single check does. *)
Lemma wait_ready_cases r self dir :
  match wait_ready r self dir with
  | Some (res, self', dir') =>
      ∃ skipped, w_history dir = skipped ++ w_history dir'
        ∧ Forall (λ st, ready_or_deleted st r (table_id self) = false) skipped
        ∧ res = waited_after (Z.of_nat (S (length skipped)))
        ∧ (skipped = [] → res = IMMEDIATE)
        ∧ (counts_in_int dir → res = IMMEDIATE → skipped = [])
        ∧ do_check (w_value dir') r self = (true, self')
  | None =>
      Forall (λ st, ready_or_deleted st r (table_id self) = false) (w_history dir)
  end.
Proof.
  rewrite wait_ready_unfold.
  pose proof (wait_ready_loop_cases r (w_pending dir) (w_value dir) 0%Z self) as H.
  destruct (run_all_until_loop _ _ _ _) as [[[n' self'] dir']|]; [|done].
  destruct H as (skipped & Heq & Hall & Hn & Hlast).
  assert ((if bool_decide (1 < n')%Z then WAITED else IMMEDIATE)
          = waited_after (Z.of_nat (S (length skipped)))) as Hres.
  { unfold waited_after. rewrite Hn. by rewrite Z.add_0_l. }
  exists skipped. split_and!; try done.
  - intros ->. by rewrite Hres.
  - intros Hfit. rewrite Hres. rewrite waited_after_small.
    + destruct (decide (length skipped = 0%nat)) as [Hz|]; [|done].
      intros _. by destruct skipped.
    + unfold counts_in_int in Hfit. change (w_history dir) with (w_value dir :: w_pending dir) in Hfit.
      rewrite Heq, length_app in Hfit. unfold w_history in Hfit. simpl length in Hfit. lia.
Qed.

(** The bound is needed: a wait that has skipped [INT_MAX] statuses has
    counted to [INT_MIN], and returns Immediate. *)
Lemma wait_ready_after_int_max r self dir res self' dir' skipped :
  wait_ready r self dir = Some (res, self', dir') →
  w_history dir = skipped ++ w_history dir' →
  Z.of_nat (length skipped) = INT_MAX →
  res = IMMEDIATE.
Proof.
  intros Hrun Heq Hlen.
  pose proof (wait_ready_cases r self dir) as Hc. rewrite Hrun in Hc.
  destruct Hc as (skipped' & Heq' & _ & -> & _).
  assert (length skipped' = length skipped) as Hsame.
  { apply (f_equal length) in Heq, Heq'. rewrite length_app in Heq, Heq'. lia. }
  rewrite Hsame, Nat2Z.inj_succ, Hlen. apply waited_after_wrapped.
Qed.

Lemma app_eq_self_inv {A} (skipped l : list A) : l = skipped ++ l → skipped = [].
Proof.
  intros Heq. apply (f_equal length) in Heq. rewrite length_app in Heq.
  destruct skipped; [done|]. simpl in Heq. lia.
Qed.


(** C6. When the status source reports no readiness for the table, the
    check of the waiter is satisfied for every target level and the waiter
    is marked deleted: [check_ready] returns [true], and [wait_ready]
    returns Immediate without moving the directory. *)
Theorem deleted_table_is_ready (wait_readiness : table_readiness_t)
    (self : t) (table_directory : watchable table_status_t) :
  get_table_readiness (w_value table_directory) (table_id self) = None →
  do_check (w_value table_directory) wait_readiness self
    = (true, mk true (table_id self))
  ∧ check_ready wait_readiness self table_directory
    = (true, mk true (table_id self))
  ∧ wait_ready wait_readiness self table_directory
    = Some (IMMEDIATE, mk true (table_id self), table_directory)
  ∧ is_deleted (mk true (table_id self)) = true.
Proof.
  intros Hnone.
  assert (do_check (w_value table_directory) wait_readiness self
          = (true, mk true (table_id self))) as Hcheck.
  { unfold do_check. by rewrite Hnone. }
  repeat split; try done.
  rewrite wait_ready_unfold. destruct table_directory as [cur pending].
  simpl in *. destruct pending; simpl; by rewrite Hcheck.
Qed.

(** ** The multi-table wait *)

Lemma wait_each_cases r ws : ∀ imm dir,
  match wait_each r ws imm dir with
  | Some (imm', ws', dir') =>
      table_id <$> ws' = table_id <$> ws
      ∧ ∃ results skipped,
          wait_results r ws dir = Some results
          ∧ length results = length ws
          ∧ w_history dir = skipped ++ w_history dir'
          ∧ (imm' = true ↔ imm = true ∧ Forall (λ res, res = IMMEDIATE) results)
          ∧ (skipped = [] → Forall (λ res, res = IMMEDIATE) results)
          ∧ (counts_in_int dir →
             Forall (λ res, res = IMMEDIATE) results → skipped = [])
          ∧ (skipped = [] →
             Forall (λ w, ready_or_deleted (w_value dir) r (table_id w) = true) ws)
  | None => wait_results r ws dir = None
  end.
Proof.
  induction ws as [|w ws IH]; intros imm dir; simpl.
  - split; [done|]. exists [], []. repeat split; try done; by intros [? _].
  - pose proof (wait_ready_cases r w dir) as Hw.
    destruct (wait_ready r w dir) as [[[res w1] dir1]|]; [|done].
    destruct Hw as (skipped1 & Heq1 & _ & _ & Himm1 & Hfit1 & Hlast1).
    specialize (IH (imm && bool_decide (res = IMMEDIATE)) dir1).
    destruct (wait_each r ws _ dir1) as [[[imm' ws'] dir']|]; [|by rewrite IH].
    destruct IH as (Hids & results & skipped2 & -> & Hlen & Heq2 & Himm2 & Hsk2
                    & Hfit2 & Hready).
    split.
    { simpl. f_equal; [|done].
      pose proof (do_check_table_id (w_value dir1) r w) as Hid.
      by rewrite Hlast1 in Hid. }
    exists (res :: results), (skipped1 ++ skipped2). simpl.
    split_and!.
    + done.
    + by rewrite Hlen.
    + by rewrite Heq1, Heq2, app_assoc.
    + rewrite Forall_cons, Himm2, andb_true_iff, bool_decide_eq_true. tauto.
    + intros [-> ->]%app_eq_nil. constructor; [by apply Himm1|by apply Hsk2].
    + intros Hfit [Hres Hall]%Forall_cons.
      rewrite (Hfit1 Hfit Hres), (Hfit2 (counts_in_int_suffix _ _ _ Heq1 Hfit) Hall).
      done.
    + intros [-> ->]%app_eq_nil. simpl in Heq1.
      apply w_history_inj in Heq1 as <-.
      constructor; [|by apply Hready].
      pose proof (do_check_fst (w_value dir) r w) as Hfst.
      by rewrite Hlast1 in Hfst.
Qed.

Lemma second_pass_cases r dir ws :
  table_id <$> (second_pass r ws dir).2 = table_id <$> ws
  ∧ ((second_pass r ws dir).1 = false
     ↔ Forall (λ w, ready_or_deleted (w_value dir) r (table_id w) = true) ws).
Proof.
  induction ws as [|w ws [IHids IHredo]]; simpl.
  - split; [done|]. split; [constructor|done].
  - unfold check_ready.
    pose proof (do_check_fst (w_value dir) r w) as Hfst.
    pose proof (do_check_table_id (w_value dir) r w) as Hid.
    destruct (do_check (w_value dir) r w) as [ready w1]. simpl in *.
    destruct ready; simpl.
    + destruct (second_pass r ws dir) as [redo ws']. simpl in *. split.
      * f_equal; [done|exact IHids].
      * rewrite IHredo. split; [by constructor|]. by intros [_ ?]%Forall_cons.
    + split; [by f_equal|]. split; [done|].
      intros [Hw _]%Forall_cons. congruence.
Qed.


(** With a single waiter, or none, the loop is left after the wait, in
    the status the wait returned at. *)
Lemma table_wait_loop_returned_one r fuel ws dir ws' dir' :
  (length ws ≤ 1)%nat →
  table_wait_loop fuel r ws dir = Some (Returned (ws', dir')) →
  table_id <$> ws' = table_id <$> ws
  ∧ Forall (λ w, ready_or_deleted (w_value dir') r (table_id w) = true) ws.
Proof.
  intros Hone. destruct fuel as [|fuel]; simpl; [done|].
  pose proof (wait_each_cases r ws true dir) as Hpass.
  destruct (wait_each r ws true dir) as [[[imm ws1] dir1]|] eqn:Hwe; [|done].
  destruct Hpass as (Hids & _).
  assert (length ws1 = length ws) as Hlen1.
  { apply (f_equal length) in Hids. by rewrite !length_fmap in Hids. }
  rewrite (bool_decide_eq_false_2 (1 < length ws1)%nat) by lia.
  rewrite andb_false_r. intros [= <- <-]. split; [done|].
  destruct ws as [|w [|w2 ws]]; [constructor| |simpl in Hone; lia].
  simpl in Hwe.
  pose proof (wait_ready_cases r w dir) as Hw.
  destruct (wait_ready r w dir) as [[[res w1] d1]|]; [|done].
  destruct Hw as (_ & _ & _ & _ & _ & _ & Hlast). simplify_eq.
  constructor; [|constructor].
  pose proof (do_check_fst (w_value dir1) r w) as Hfst.
  by rewrite Hlast in Hfst.
Qed.

(** As long as the directory takes no more values than the [int] of
    [wait_ready] counts, the tables are all ready or deleted when the loop
    is left. *)
Lemma table_wait_loop_returned r fuel : ∀ ws dir ws' dir',
  counts_in_int dir →
  table_wait_loop fuel r ws dir = Some (Returned (ws', dir')) →
  table_id <$> ws' = table_id <$> ws
  ∧ Forall (λ w, ready_or_deleted (w_value dir') r (table_id w) = true) ws.
Proof.
  induction fuel as [|fuel IH]; intros ws dir ws' dir' Hfit; simpl; [done|].
  pose proof (table_wait_loop_returned_one r (S fuel) ws dir ws' dir') as Hone.
  simpl in Hone.
  pose proof (wait_each_cases r ws true dir) as Hpass.
  destruct (wait_each r ws true dir) as [[[imm ws1] dir1]|] eqn:Hwe; [|done].
  destruct Hpass as (Hids & results & skipped & Hres & Hlen & Heq & Himm & Hsk
                     & Hskfit & Hready).
  pose proof (second_pass_cases r dir1 ws1) as [Hids2 Hredo].
  destruct (negb imm && bool_decide (1 < length ws1)%nat) eqn:Hcond.
  - destruct (second_pass r ws1 dir1) as [[] ws2] eqn:Hsp; simpl in *.
    + intros Hrec.
      apply IH in Hrec as [Hids' Hall]; [|by eapply counts_in_int_suffix].
      split; [congruence|].
      clear -Hall Hids2 Hids.
      rewrite <- Hids2 in Hids.
      apply (Forall_fmap table_id (λ i, ready_or_deleted (w_value dir') r i = true)).
      rewrite <- Hids.
      by apply (Forall_fmap table_id (λ i, ready_or_deleted (w_value dir') r i = true)).
    + intros [= <- <-]. split; [congruence|].
      apply (Forall_fmap table_id (λ i, ready_or_deleted (w_value dir1) r i = true)).
      rewrite <- Hids.
      apply (Forall_fmap table_id (λ i, ready_or_deleted (w_value dir1) r i = true)).
      by apply Hredo.
  - intros Hrun.
    apply andb_false_iff in Hcond as [Hi|Hlen1].
    + injection Hrun as <- <-. split; [done|].
      apply negb_false_iff in Hi. apply Himm in Hi as [_ Hall].
      apply (Hskfit Hfit) in Hall. specialize (Hready Hall). subst skipped.
      simpl in Heq. apply w_history_inj in Heq as <-. done.
    + apply bool_decide_eq_false in Hlen1. apply Hone; [|done].
      apply (f_equal length) in Hids. rewrite !length_fmap in Hids. lia.
Qed.

(** The loop ends within the fuel [table_wait] gives it. *)
Lemma table_wait_loop_fuel r fuel : ∀ ws dir,
  (length (w_pending dir) < fuel)%nat → table_wait_loop fuel r ws dir ≠ None.
Proof.
  induction fuel as [|fuel IH]; intros ws dir Hfuel; [lia|]. simpl.
  pose proof (wait_each_cases r ws true dir) as Hpass.
  destruct (wait_each r ws true dir) as [[[imm ws1] dir1]|]; [|done].
  destruct Hpass as (_ & results & skipped & _ & _ & Heq & Himm & Hsk & _).
  destruct (negb imm && bool_decide (1 < length ws1)%nat) eqn:Hcond; [|done].
  destruct (second_pass r ws1 dir1) as [[] ws2]; [|done].
  apply IH. apply andb_true_iff in Hcond as [Hi _]. apply negb_true_iff in Hi.
  assert (skipped ≠ []) as Hne.
  { intros Hs. apply Hsk in Hs. rewrite (proj2 Himm) in Hi; done. }
  apply (f_equal length) in Heq.
  rewrite length_app, !w_history_length in Heq.
  destruct skipped; [done|]. simpl in Heq. lia.
Qed.

(** ** [get_table_ids_for_query] *)

Lemma namespace_predicate_named name db_id ns :
  namespace_predicate_t (Some name) db_id ns = true ↔
  Versioned.get_ref (ns_name ns) = name ∧ Versioned.get_ref (ns_database ns) = db_id.
Proof.
  unfold namespace_predicate_t.
  by rewrite andb_true_iff, !bool_decide_eq_true.
Qed.

Lemma namespace_predicate_any db_id ns :
  namespace_predicate_t None db_id ns = true ↔
  Versioned.get_ref (ns_database ns) = db_id.
Proof. unfold namespace_predicate_t. simpl. by rewrite bool_decide_eq_true. Qed.

Lemma find_uniq_table_cases nss db name :
  table_names_unique nss →
  (∃ id ns, find_uniq (namespace_predicate_t (Some name) (ql.id db)) nss
            = (Some (id, ns), METADATA_SUCCESS)
            ∧ nss !! id = Some (Live ns)
            ∧ Versioned.get_ref (ns_name ns) = name
            ∧ Versioned.get_ref (ns_database ns) = ql.id db)
  ∨ ((∀ id, ¬ resolves nss db name id)
     ∧ find_uniq (namespace_predicate_t (Some name) (ql.id db)) nss
       = (None, METADATA_ERR_NONE)).
Proof.
  intros Huniq.
  destruct (find_uniq (namespace_predicate_t (Some name) (ql.id db)) nss)
    as [it status] eqn:Hf.
  destruct status.
  - left. apply find_uniq_success in Hf as (id & ns & -> & Hm & Hp & _).
    apply namespace_predicate_named in Hp as [Hn Hd]. by exists id, ns.
  - right. apply find_uniq_none in Hf as [-> Hno]. split; [|done].
    intros id (ns & Hm & Hn & Hd). specialize (Hno _ _ Hm).
    rewrite (proj2 (namespace_predicate_named _ _ _)) in Hno; done.
  - exfalso.
    apply find_uniq_multiple in Hf as (i1 & v1 & i2 & v2 & Hne & H1 & P1 & H2 & P2).
    apply namespace_predicate_named in P1 as [? ?].
    apply namespace_predicate_named in P2 as [? ?].
    apply Hne, (Huniq _ _ _ _ H1 H2); congruence.
Qed.

Lemma foldl_std_map_insert_lookup {A} (f : A → string) (l : list (N * A)) :
  NoDup l.*1 → ∀ (acc : gmap N string) id n,
  foldl (λ out it, std_map_insert it.1 (f it.2) out) acc l !! id = Some n
  ↔ acc !! id = Some n ∨ (acc !! id = None ∧ ∃ v, (id, v) ∈ l ∧ f v = n).
Proof.
  induction l as [|[k v] l IH]; intros Hnd acc id n; simpl.
  - split; [by left|]. intros [?|(_ & v & Hin & _)]; [done|].
    by apply elem_of_nil in Hin.
  - simpl in Hnd. apply NoDup_cons in Hnd as [Hk Hnd].
    rewrite (IH Hnd). unfold std_map_insert.
    destruct (acc !! k) as [x|] eqn:Hacc.
    + split.
      * intros [?|(? & v' & Hin & ?)]; [by left|]. right. split; [done|].
        exists v'. split; [by right|done].
      * intros [?|(Hnone & v' & Hin & ?)]; [by left|]. right. split; [done|].
        exists v'. split; [|done].
        apply elem_of_cons in Hin as [[= -> ->]|?]; [congruence|done].
    + destruct (decide (k = id)) as [->|Hne].
      * rewrite lookup_insert_eq, Hacc. split.
        -- intros [[= <-]|(? & _)]; [|done]. right. split; [done|].
           exists v. split; [left|done].
        -- intros [?|(_ & v' & Hin & <-)]; [done|]. left.
           apply elem_of_cons in Hin as [[= ->]|Hin]; [done|].
           exfalso. apply Hk. apply list_elem_of_fmap. by exists (id, v').
      * rewrite lookup_insert_ne by done. split.
        -- intros [?|(? & v' & Hin & ?)]; [by left|]. right. split; [done|].
           exists v'. split; [by right|done].
        -- intros [?|(? & v' & Hin & ?)]; [by left|]. right. split; [done|].
           exists v'. split; [|done].
           apply elem_of_cons in Hin as [[= ? ?]|?]; [congruence|done].
Qed.

Lemma resolves_unique nss db name id1 id2 :
  table_names_unique nss →
  resolves nss db name id1 → resolves nss db name id2 → id1 = id2.
Proof.
  intros Huniq (ns1 & H1 & Hn1 & Hd1) (ns2 & H2 & Hn2 & Hd2).
  apply (Huniq _ _ _ _ H1 H2); congruence.
Qed.

Lemma resolves_name nss db n1 n2 id :
  resolves nss db n1 id → resolves nss db n2 id → n1 = n2.
Proof. intros (ns1 & H1 & Hn1 & _) (ns2 & H2 & Hn2 & _). congruence. Qed.

Lemma resolve_names_all db nss names :
  table_names_unique nss →
  Forall (λ n, ∃ id, resolves nss db n id) names →
  ∀ acc, ∃ m,
    resolve_names db names nss acc = Returned (Success m)
    ∧ ∀ id n, m !! id = Some n
              ↔ acc !! id = Some n
                ∨ (acc !! id = None ∧ n ∈ names ∧ resolves nss db n id).
Proof.
  intros Huniq. induction names as [|name names IH]; intros Hall acc; simpl.
  - exists acc. split; [done|]. intros id n. split; [by left|].
    intros [?|(_ & Hin & _)]; [done|]. by apply elem_of_nil in Hin.
  - apply Forall_cons in Hall as [[id0 Hres0] Hall].
    destruct (find_uniq_table_cases nss db name Huniq)
      as [(id1 & ns1 & -> & Hm1 & Hn1 & Hd1) | [Hno _]]; [|by destruct (Hno id0)].
    simpl. rewrite Hn1.
    assert (resolves nss db name id1) as Hres1 by by exists ns1.
    destruct (IH Hall (std_map_insert id1 name acc)) as (m & -> & Hm).
    exists m. split; [done|]. intros id n. rewrite Hm. unfold std_map_insert.
    destruct (acc !! id1) as [x|] eqn:Hacc.
    + split.
      * intros [?|(? & ? & ?)]; [by left|]. right. split_and!; [done|by right|done].
      * intros [?|(Hnone & Hin & Hres)]; [by left|]. right. split_and!; try done.
        apply elem_of_cons in Hin as [->|?]; [|done].
        rewrite (resolves_unique _ _ _ _ _ Huniq Hres Hres1) in Hnone. congruence.
    + destruct (decide (id1 = id)) as [->|Hne].
      * rewrite lookup_insert_eq, Hacc. split.
        -- intros [[= <-]|(? & _)]; [|done]. right. split_and!; [done|left|done].
        -- intros [?|(_ & _ & Hres)]; [done|]. left. f_equal.
           by apply (resolves_name nss db _ _ id).
      * rewrite lookup_insert_ne by done. split.
        -- intros [?|(? & ? & ?)]; [by left|]. right.
           split_and!; [done|by right|done].
        -- intros [?|(? & Hin & Hres)]; [by left|]. right. split_and!; try done.
           apply elem_of_cons in Hin as [->|?]; [|done].
           by destruct Hne; apply (resolves_unique nss db name).
Qed.

Lemma resolve_names_missing db nss pre missing post :
  table_names_unique nss →
  Forall (λ n, ∃ id, resolves nss db n id) pre →
  (∀ id, ¬ resolves nss db missing id) →
  ∀ acc, resolve_names db (pre ++ missing :: post) nss acc
         = Returned (Failure (NotFound "Table" (qualified_name db missing))).
Proof.
  intros Huniq Hpre Hmiss. induction pre as [|name pre IH]; intros acc; simpl.
  - destruct (find_uniq_table_cases nss db missing Huniq)
      as [(id1 & ns1 & _ & Hm1 & Hn1 & Hd1) | [_ ->]]; [|done].
    destruct (Hmiss id1). by exists ns1.
  - apply Forall_cons in Hpre as [[id0 Hres0] Hpre].
    destruct (find_uniq_table_cases nss db name Huniq)
      as [(id1 & ns1 & -> & _) | [Hno _]]; [|by destruct (Hno id0)].
    simpl. by apply IH.
Qed.

(** C8, as the code has it.  For a database other than the reserved one,
    called on a thread whose copy of the tables satisfies the uniqueness
    invariant: with no requested name, [get_table_ids_for_query] returns the
    map from id to name of all the live tables of the database; with
    requested names that all resolve, it returns that map for exactly the
    requested names; and when some requested name does not resolve, it fails
    with NotFound naming the first such name in the iteration order of the
    requested set, whatever the ids. *)
Theorem get_table_ids_for_query_first_missing_name
    (db : ql.db_t) (table_names : list name_string_t) (threadnum : nat)
    (w : world) (nss : namespaces_semilattice_metadata_t) :
  ql.name db ≠ rethinkdb →
  get_namespaces_metadata threadnum w = Returned nss →
  table_names_unique nss →
  (table_names = [] →
   ∃ m, get_table_ids_for_query db table_names threadnum w = Returned (Success m)
     ∧ ∀ id n, m !! id = Some n ↔ resolves nss db n id)
  ∧ (table_names ≠ [] →
     Forall (λ n, ∃ id, resolves nss db n id) table_names →
     ∃ m, get_table_ids_for_query db table_names threadnum w = Returned (Success m)
       ∧ ∀ id n, m !! id = Some n ↔ n ∈ table_names ∧ resolves nss db n id)
  ∧ (∀ pre missing post,
       table_names = pre ++ missing :: post →
       Forall (λ n, ∃ id, resolves nss db n id) pre →
       (∀ id, ¬ resolves nss db missing id) →
       get_table_ids_for_query db table_names threadnum w
       = Returned (Failure (NotFound "Table" (qualified_name db missing)))).
Proof.
  intros Hdb Hcopy Huniq. unfold get_table_ids_for_query.
  rewrite bool_decide_eq_true_2 by done. rewrite Hcopy. simpl. split_and!.
  - intros ->. eexists. split; [done|]. intros id n.
    rewrite (foldl_std_map_insert_lookup (λ ns, Versioned.get_ref (ns_name ns)))
      by apply NoDup_fst_find_all.
    rewrite lookup_empty. split.
    + intros [?|(_ & ns & Hin & Hn)]; [done|].
      apply elem_of_find_all in Hin as [Hm Hp].
      apply namespace_predicate_any in Hp. by exists ns.
    + intros (ns & Hm & Hn & Hd). right. split; [done|]. exists ns.
      split; [|done]. apply elem_of_find_all. split; [done|].
      by apply namespace_predicate_any.
  - intros Hne Hall.
    destruct (resolve_names_all db nss table_names Huniq Hall ∅) as (m & Hrun & Hm).
    exists m. split; [by destruct table_names|].
    intros id n. rewrite Hm, lookup_empty. split.
    + by intros [?|(_ & ? & ?)].
    + intros [? ?]. by right.
  - intros pre missing post -> Hpre Hmiss.
    rewrite <- (resolve_names_missing db nss pre missing post Huniq Hpre Hmiss ∅).
    by destruct pre.
Qed.

(** ** [table_reconfigure] *)

Lemma versioned_join_set {T} (v : T) (old : versioned_t T) :
  semilattice_join old (Versioned.set v old) = Versioned.set v old.
Proof.
  unfold semilattice_join, Versioned.versioned_semilattice, Versioned.join, Versioned.set.
  simpl. rewrite (proj2 (N.ltb_lt _ _)); [done|]. lia.
Qed.

Lemma namespace_join_set_replication_info info ns :
  semilattice_join ns (set_replication_info info ns) = set_replication_info info ns.
Proof.
  unfold semilattice_join at 1, namespace_semilattice, set_replication_info. simpl.
  by rewrite !versioned_join_idemp, versioned_join_set.
Qed.

(** Joining the store with its copy in which one live table got a new
    replication info gives that copy. *)
Lemma cluster_join_reconfigured (store : cluster_semilattice_metadata_t)
    table_id ns info :
  rdb_namespaces store !! table_id = Some (Live ns) →
  semilattice_join store
    (mk_cluster (<[table_id := Live (set_replication_info info ns)]>
                   (rdb_namespaces store))
                (databases store))
  = mk_cluster (<[table_id := Live (set_replication_info info ns)]>
                  (rdb_namespaces store))
               (databases store).
Proof.
  intros Hm. rewrite cluster_join_unfold. simpl.
  rewrite databases_join_idemp. f_equal.
  apply map_eq. intros i. rewrite lookup_map_join.
  destruct (decide (table_id = i)) as [<-|Hne].
  - rewrite lookup_insert_eq, Hm. simpl. f_equal.
    unfold semilattice_join at 1, Deletable.deletable_semilattice, Deletable.join.
    f_equal. apply namespace_join_set_replication_info.
  - rewrite lookup_insert_ne by done.
    destruct (rdb_namespaces store !! i) as [e|]; [|done]. simpl. f_equal.
    apply deletable_join_idemp, namespace_join_idemp.
Qed.

(** A join into the store does not change what the threads read from
    their copies until the new value arrives. *)
Lemma get_metadata_root_view_join threadnum md w :
  get_namespaces_metadata threadnum (root_view_join md w)
  = get_namespaces_metadata threadnum w
  ∧ get_databases_metadata threadnum (root_view_join md w)
    = get_databases_metadata threadnum w.
Proof.
  unfold get_namespaces_metadata, get_databases_metadata, root_view_join. simpl.
  rewrite !list_lookup_fmap.
  split; by destruct (_ !! threadnum).
Qed.

Lemma find_uniq_table_found nss db name id ns :
  nss !! id = Some (Live ns) →
  Versioned.get_ref (ns_name ns) = name →
  Versioned.get_ref (ns_database ns) = ql.id db →
  (∀ id', resolves nss db name id' → id' = id) →
  find_uniq (namespace_predicate_t (Some name) (ql.id db)) nss
  = (Some (id, ns), METADATA_SUCCESS).
Proof.
  intros Hm Hn Hd Huniq. apply find_uniq_success. exists id, ns.
  split_and!; [done..| |].
  - by apply namespace_predicate_named.
  - intros id' ns' Hm' [Hn' Hd']%namespace_predicate_named.
    apply Huniq. by exists ns'.
Qed.

Lemma find_uniq_table_none nss db name :
  (∀ id, ¬ resolves nss db name id) →
  find_uniq (namespace_predicate_t (Some name) (ql.id db)) nss
  = (None, METADATA_ERR_NONE).
Proof.
  intros Hno. apply find_uniq_none. split; [done|]. intros id ns Hm.
  destruct (namespace_predicate_t (Some name) (ql.id db) ns) eqn:Hp; [|done].
  apply namespace_predicate_named in Hp as [Hn Hd].
  destruct (Hno id). by exists ns.
Qed.

Section reconfigure.
Variable calculate_server_usage : table_config_t → gmap N Z → gmap N Z.
Variable table_generate_config :
  uuid_u → option table_status_t → gmap N Z → table_generate_config_params_t →
  table_shard_scheme_t → outcome (reql_result table_config_t).
Variable calculate_split_points_intelligently :
  namespace_id_t → Z → table_shard_scheme_t →
  outcome (reql_result table_shard_scheme_t).
Variable datum_t : Type.
Variable convert_table_config_to_datum : table_config_t → datum_t.

Local Abbreviation reconfigure :=
  (table_reconfigure calculate_server_usage table_generate_config
     calculate_split_points_intelligently datum_t convert_table_config_to_datum).

(** What a successful [table_reconfigure] did. *)
Lemma table_reconfigure_success db name params dry_run w d w' :
  reconfigure db name params dry_run w = Returned (Success d, w') →
  ∃ table_id ns usage new_shard_scheme new_config,
    resolves (rdb_namespaces (semilattice_root_view w)) db name table_id
    ∧ rdb_namespaces (semilattice_root_view w) !! table_id = Some (Live ns)
    ∧ calculate_split_points_intelligently table_id (num_shards params)
        (shard_scheme (Versioned.get_ref (ns_replication_info ns)))
      = Returned (Success new_shard_scheme)
    ∧ table_generate_config table_id (Some (w_value (directory w))) usage
        params new_shard_scheme
      = Returned (Success new_config)
    ∧ d = convert_table_config_to_datum new_config
    ∧ w' = if dry_run then w
           else root_view_join
                  (mk_cluster
                     (<[table_id := Live (set_replication_info
                                            (mk_repli_info new_config new_shard_scheme)
                                            ns)]>
                        (rdb_namespaces (semilattice_root_view w)))
                     (databases (semilattice_root_view w)))
                  w.
Proof.
  unfold table_reconfigure.
  destruct (bool_decide (ql.name db ≠ rethinkdb)); simpl; [|done].
  destruct (find_uniq _ _) as [it status] eqn:Hf.
  destruct status; simpl; [|done..].
  apply find_uniq_success in Hf as (table_id & ns & -> & Hm & Hp & _).
  apply namespace_predicate_named in Hp as [Hn Hd]. simpl.
  match goal with |- context [foldl ?f ?a ?l] => set (usage := foldl f a l) end.
  destruct (calculate_split_points_intelligently _ _ _)
    as [[new_shard_scheme|e]| | |] eqn:Hsplit; simpl; [|done..].
  destruct (table_generate_config _ _ _ _ _)
    as [[new_config|e]| | |] eqn:Hgen; simpl; [|done..].
  intros [= <- <-].
  exists table_id, ns, usage, new_shard_scheme, new_config.
  split_and!; try done.
  - by exists ns.
  - by destruct dry_run.
Qed.

(** A [table_reconfigure] that fails leaves the world as it was. *)
Lemma table_reconfigure_failure db name params dry_run w e w' :
  reconfigure db name params dry_run w = Returned (Failure e, w') → w' = w.
Proof.
  unfold table_reconfigure.
  destruct (bool_decide (ql.name db ≠ rethinkdb)); simpl; [|done].
  destruct (find_uniq _ _) as [[[table_id ns]|] status].
  - destruct status; simpl; [|by intros [= _ <-]|done].
    destruct (calculate_split_points_intelligently _ _ _)
      as [[new_shard_scheme|e1]| | |]; simpl; [|by intros [= _ <-]|done..].
    destruct (table_generate_config _ _ _ _ _)
      as [[new_config|e2]| | |]; simpl; [done|by intros [= _ <-]|done..].
  - destruct status; simpl; [done|by intros [= _ <-]|done].
Qed.

(** The value returned does not depend on [dry_run]. *)
Lemma table_reconfigure_result db name params dry_run w :
  result_of (reconfigure db name params dry_run w)
  = result_of (reconfigure db name params true w).
Proof.
  unfold table_reconfigure.
  destruct (bool_decide (ql.name db ≠ rethinkdb)); simpl; [|done].
  destruct (find_uniq _ _) as [[[table_id ns]|] status].
  - destruct status; simpl; [|done..].
    destruct (calculate_split_points_intelligently _ _ _)
      as [[new_shard_scheme|e1]| | |]; simpl; [|done..].
    by destruct (table_generate_config _ _ _ _ _) as [[new_config|e2]| | |].
  - by destruct status.
Qed.

(** What a successful [table_reconfigure] did, with the configuration
    tied to what the collaborators were asked. *)
Lemma table_reconfigure_inv db name params dry_run w d w' :
  reconfigure db name params dry_run w = Returned (Success d, w') →
  ∃ table_id ns new_shard_scheme new_config,
    resolves (rdb_namespaces (semilattice_root_view w)) db name table_id
    ∧ rdb_namespaces (semilattice_root_view w) !! table_id = Some (Live ns)
    ∧ calculate_split_points_intelligently table_id (num_shards params)
        (shard_scheme (Versioned.get_ref (ns_replication_info ns)))
      = Returned (Success new_shard_scheme)
    ∧ table_generate_config table_id (Some (w_value (directory w)))
        (server_usage_of_others calculate_server_usage table_id
           (rdb_namespaces (semilattice_root_view w)))
        params new_shard_scheme
      = Returned (Success new_config)
    ∧ d = convert_table_config_to_datum new_config
    ∧ w' = if dry_run then w
           else root_view_join
                  (mk_cluster
                     (<[table_id := Live (set_replication_info
                                            (mk_repli_info new_config new_shard_scheme)
                                            ns)]>
                        (rdb_namespaces (semilattice_root_view w)))
                     (databases (semilattice_root_view w)))
                  w.
Proof.
  unfold table_reconfigure.
  destruct (bool_decide (ql.name db ≠ rethinkdb)); simpl; [|done].
  destruct (find_uniq _ _) as [it status] eqn:Hf.
  destruct status; simpl; [|done..].
  apply find_uniq_success in Hf as (table_id & ns & -> & Hm & Hp & _).
  apply namespace_predicate_named in Hp as [Hn Hd]. simpl.
  fold (server_usage_of_others calculate_server_usage table_id
          (rdb_namespaces (semilattice_root_view w))).
  destruct (calculate_split_points_intelligently _ _ _)
    as [[new_shard_scheme|e]| | |] eqn:Hsplit; simpl; [|done..].
  destruct (table_generate_config _ _ _ _ _)
    as [[new_config|e]| | |] eqn:Hgen; simpl; [|done..].
  intros [= <- <-].
  exists table_id, ns, new_shard_scheme, new_config.
  split_and!; try done.
  - by exists ns.
  - by destruct dry_run.
Qed.

(** [table_reconfigure] of a table that is there, when the collaborators
    answer: it returns the configuration that was generated, and joins the
    new replication info into the store unless [dry_run] is set. *)
Lemma table_reconfigure_runs db name params dry_run w table_id ns
    new_shard_scheme new_config :
  ql.name db ≠ rethinkdb →
  rdb_namespaces (semilattice_root_view w) !! table_id = Some (Live ns) →
  Versioned.get_ref (ns_name ns) = name →
  Versioned.get_ref (ns_database ns) = ql.id db →
  (∀ id', resolves (rdb_namespaces (semilattice_root_view w)) db name id' →
          id' = table_id) →
  calculate_split_points_intelligently table_id (num_shards params)
    (shard_scheme (Versioned.get_ref (ns_replication_info ns)))
  = Returned (Success new_shard_scheme) →
  table_generate_config table_id (Some (w_value (directory w)))
    (server_usage_of_others calculate_server_usage table_id
       (rdb_namespaces (semilattice_root_view w)))
    params new_shard_scheme
  = Returned (Success new_config) →
  reconfigure db name params dry_run w
  = Returned
      (Success (convert_table_config_to_datum new_config),
       if dry_run then w
       else root_view_join
              (mk_cluster
                 (<[table_id := Live (set_replication_info
                                        (mk_repli_info new_config new_shard_scheme)
                                        ns)]>
                    (rdb_namespaces (semilattice_root_view w)))
                 (databases (semilattice_root_view w)))
              w).
Proof.
  intros Hdb Hm Hn Hd Honly Hsplit Hgen. unfold table_reconfigure.
  rewrite bool_decide_eq_true_2 by done. simpl.
  rewrite (find_uniq_table_found _ db name table_id ns Hm Hn Hd Honly). simpl.
  rewrite Hsplit. simpl.
  fold (server_usage_of_others calculate_server_usage table_id
          (rdb_namespaces (semilattice_root_view w))).
  rewrite Hgen. simpl. by destruct dry_run.
Qed.

(** C9. With [dry_run], [table_reconfigure] leaves the world, and so the
    store, exactly as it was.  When the table is there and the
    collaborators answer (the split points for the table and the number of
    shards asked for, then the configuration generated for these, the
    status of the directory and the usage of the servers by the other
    tables), the call returns [true] and that configuration, with and
    without [dry_run]; without it, it joins into the store the metadata in
    which the replication info of the table is set to these split points
    and that configuration, so that the table then has them while every
    other table and the databases are as before; and a call that returns
    [true] has done just that.  The value returned is the same with and
    without [dry_run]; and in no case is the directory, on which readiness
    is awaited, advanced, nor is the copy of any thread. *)
Theorem table_reconfigure_dry_run (db : ql.db_t) (name : name_string_t)
    (params : table_generate_config_params_t) (w : world) :
  let nss := rdb_namespaces (semilattice_root_view w) in
  let computed table_id ns new_shard_scheme new_config :=
    calculate_split_points_intelligently table_id (num_shards params)
      (shard_scheme (Versioned.get_ref (ns_replication_info ns)))
    = Returned (Success new_shard_scheme)
    ∧ table_generate_config table_id (Some (w_value (directory w)))
        (server_usage_of_others calculate_server_usage table_id nss)
        params new_shard_scheme
      = Returned (Success new_config) in
  let committed table_id ns new_shard_scheme new_config :=
    root_view_join
      (mk_cluster
         (<[table_id := Live (set_replication_info
                                (mk_repli_info new_config new_shard_scheme) ns)]> nss)
         (databases (semilattice_root_view w)))
      w in
  (∀ r w', reconfigure db name params true w = Returned (r, w') → w' = w)
  ∧ (∀ table_id ns new_shard_scheme new_config,
       ql.name db ≠ rethinkdb →
       nss !! table_id = Some (Live ns) →
       Versioned.get_ref (ns_name ns) = name →
       Versioned.get_ref (ns_database ns) = ql.id db →
       (∀ id', resolves nss db name id' → id' = table_id) →
       computed table_id ns new_shard_scheme new_config →
       reconfigure db name params true w
       = Returned (Success (convert_table_config_to_datum new_config), w)
       ∧ reconfigure db name params false w
         = Returned (Success (convert_table_config_to_datum new_config),
                     committed table_id ns new_shard_scheme new_config))
  ∧ (∀ dry_run d w',
       reconfigure db name params dry_run w = Returned (Success d, w') →
       ∃ table_id ns new_shard_scheme new_config,
         resolves nss db name table_id
         ∧ nss !! table_id = Some (Live ns)
         ∧ computed table_id ns new_shard_scheme new_config
         ∧ d = convert_table_config_to_datum new_config
         ∧ w' = if dry_run then w
                else committed table_id ns new_shard_scheme new_config)
  ∧ (∀ table_id ns new_shard_scheme new_config,
       nss !! table_id = Some (Live ns) →
       let w' := committed table_id ns new_shard_scheme new_config in
       rdb_namespaces (semilattice_root_view w') !! table_id
       = Some (Live (set_replication_info
                       (mk_repli_info new_config new_shard_scheme) ns))
       ∧ Versioned.get_ref
           (ns_replication_info
              (set_replication_info (mk_repli_info new_config new_shard_scheme) ns))
         = mk_repli_info new_config new_shard_scheme
       ∧ (∀ id, id ≠ table_id →
            rdb_namespaces (semilattice_root_view w') !! id = nss !! id)
       ∧ databases (semilattice_root_view w')
         = databases (semilattice_root_view w))
  ∧ (∀ dry_run,
       result_of (reconfigure db name params dry_run w)
       = result_of (reconfigure db name params true w))
  ∧ (∀ dry_run r w', reconfigure db name params dry_run w = Returned (r, w') →
       directory w' = directory w
       ∧ ∀ threadnum,
           get_namespaces_metadata threadnum w' = get_namespaces_metadata threadnum w
           ∧ get_databases_metadata threadnum w'
             = get_databases_metadata threadnum w).
Proof.
  intros nss computed committed. subst nss computed committed. cbv beta.
  split_and!.
  - intros [d|e] w' Hrun.
    + by apply table_reconfigure_inv in Hrun as (? & ? & ? & ? & _ & _ & _ & _ & _ & ->).
    + by apply table_reconfigure_failure in Hrun.
  - intros table_id ns scheme cfg Hdb Hm Hn Hd Honly [Hsplit Hgen]. split.
    + by rewrite (table_reconfigure_runs db name params true w table_id ns scheme cfg).
    + by rewrite (table_reconfigure_runs db name params false w table_id ns scheme cfg).
  - intros dry_run d w' Hrun.
    apply table_reconfigure_inv in Hrun
      as (table_id & ns & scheme & cfg & Hres & Hm & Hsplit & Hgen & -> & ->).
    by exists table_id, ns, scheme, cfg.
  - intros table_id ns scheme cfg Hm.
    match goal with |- context [root_view_join ?md w] =>
      assert (semilattice_root_view (root_view_join md w) = md) as Hst
        by (unfold root_view_join; simpl; by apply cluster_join_reconfigured)
    end.
    cbv zeta. rewrite Hst. simpl.
    split_and!; try done.
    + by rewrite lookup_insert_eq.
    + intros id Hne. by rewrite lookup_insert_ne.
  - intros dry_run. apply table_reconfigure_result.
  - intros dry_run [d|e] w' Hrun.
    + apply table_reconfigure_inv in Hrun
        as (? & ? & ? & ? & _ & _ & _ & _ & _ & ->).
      destruct dry_run; [done|]. split; [done|].
      intros threadnum. apply get_metadata_root_view_join.
    + by apply table_reconfigure_failure in Hrun as ->.
Qed.
End reconfigure.

(** ** [table_wait] and [table_create] *)

Lemma set_directory_id w : set_directory w (directory w) = w.
Proof. by destruct w. Qed.

Lemma Forall_false_Exists_true {A} (f : A → bool) (l : list A) :
  Forall (λ x, f x = false) l → Exists (λ x, f x = true) l → False.
Proof.
  intros Hall (x & Hin & Hx)%Exists_exists.
  rewrite Forall_forall in Hall. rewrite (Hall _ Hin) in Hx. done.
Qed.

(** The barrier is passed when subsuming values are on their way. *)
Lemma wait_will_subsume metadata threadnum w :
  will_subsume threadnum metadata w →
  ∃ w', wait_for_metadata_to_propagate metadata threadnum w = Returned w'.
Proof.
  intros (nsw & dbw & Hn & Hd & Hen & Hed).
  pose proof (wait_for_metadata_to_propagate_cases metadata threadnum w) as Hc.
  destruct (wait_for_metadata_to_propagate metadata threadnum w) as [w'| | |];
    [by eexists| | |done]; exfalso.
  - destruct Hc as [(x & Hx & Hall) | (x & Hx & Hall)]; simplify_eq.
    + exact (Forall_false_Exists_true
               (λ md, is_joined md (rdb_namespaces metadata)) _ Hall Hen).
    + exact (Forall_false_Exists_true
               (λ md, is_joined md (databases metadata)) _ Hall Hed).
  - destruct Hc; congruence.
Qed.

Lemma will_subsume_after_join threadnum md w :
  has_watchables threadnum w →
  will_subsume threadnum (semilattice_root_view (root_view_join md w))
               (root_view_join md w).
Proof.
  intros [[nsw Hn] [dbw Hd]].
  exists (publish (rdb_namespaces (semilattice_root_view (root_view_join md w))) nsw),
         (publish (databases (semilattice_root_view (root_view_join md w))) dbw).
  split_and!.
  - unfold root_view_join. simpl. by rewrite list_lookup_fmap, Hn.
  - unfold root_view_join. simpl. by rewrite list_lookup_fmap, Hd.
  - apply Exists_exists. eexists. split.
    + unfold w_history, publish. simpl.
      apply elem_of_cons. right. apply elem_of_app. right. left.
    + apply is_joined_true, namespaces_join_idemp.
  - apply Exists_exists. eexists. split.
    + unfold w_history, publish. simpl.
      apply elem_of_cons. right. apply elem_of_app. right. left.
    + apply is_joined_true, databases_join_idemp.
Qed.

(** A barrier passed on one thread leaves the other threads as they were,
    and the thread itself with copies that subsume. *)
Lemma will_subsume_wait metadata threadnum other w w' :
  will_subsume threadnum metadata w →
  wait_for_metadata_to_propagate metadata other w = Returned w' →
  will_subsume threadnum metadata w'.
Proof.
  intros (nsw & dbw & Hn & Hd & Hen & Hed) Hwait.
  pose proof (wait_for_metadata_to_propagate_cases metadata other w) as Hc.
  rewrite Hwait in Hc.
  destruct Hc as (_ & _ & _ & nsw0 & nsw' & dbw0 & dbw'
                  & Hn0 & Hd0 & Hnsws & Hdbws & _ & _ & Hjn & Hjd).
  destruct (decide (other = threadnum)) as [->|Hne].
  - exists nsw', dbw'. rewrite Hnsws, Hdbws. split_and!.
    + apply list_lookup_insert_eq. by eapply lookup_lt_Some.
    + apply list_lookup_insert_eq. by eapply lookup_lt_Some.
    + by left.
    + by left.
  - exists nsw, dbw. rewrite Hnsws, Hdbws.
    by rewrite !list_lookup_insert_ne.
Qed.

Lemma will_subsume_set_directory threadnum metadata w dir :
  will_subsume threadnum metadata w →
  will_subsume threadnum metadata (set_directory w dir).
Proof. done. Qed.

Lemma elem_of_waiters_of_map (table_map : gmap N name_string_t) id n :
  table_map !! id = Some n →
  new id ∈ ((λ pair, new pair.1) <$> std_map_elements table_map).
Proof.
  intros Hm. apply list_elem_of_fmap. exists (id, n). split; [done|].
  by apply elem_of_std_map_elements.
Qed.

(** A single name resolves to a single table. *)
Lemma get_table_ids_for_query_one db name threadnum w
    (table_map : gmap N name_string_t) :
  get_table_ids_for_query db [name] threadnum w = Returned (Success table_map) →
  (length (std_map_elements table_map) ≤ 1)%nat.
Proof.
  unfold get_table_ids_for_query.
  destruct (bool_decide (ql.name db ≠ rethinkdb)); simpl; [|done].
  destruct (get_namespaces_metadata threadnum w) as [nss| | |]; simpl; try done.
  destruct (find_uniq _ _) as [[[id ns]|] status]; destruct status; simpl; try done.
  intros [= <-]. unfold std_map_insert. rewrite lookup_empty, insert_empty.
  unfold std_map_elements. rewrite merge_sort_Permutation.
  by rewrite length_map_to_list, map_size_singleton.
Qed.

(** [table_wait] without [resp_out]: it fails only in the resolution of the
    names and then leaves the world as it was; otherwise it returns [true],
    having moved nothing but the directory; and with at most one resolved
    table, or as long as the directory takes no more values than the [int]
    of [wait_ready] counts, it does so only once every resolved table is
    ready or deleted in the status reached. *)
Lemma table_wait_cases db tables readiness threadnum w :
  match table_wait db tables readiness false threadnum w with
  | Returned (Success res, w') =>
      res = None
      ∧ w' = set_directory w (directory w')
      ∧ ∃ table_map,
          get_table_ids_for_query db tables threadnum w = Returned (Success table_map)
          ∧ ((length (std_map_elements table_map) ≤ 1)%nat
             ∨ counts_in_int (directory w) →
             ∀ id n, table_map !! id = Some n →
                     ready_or_deleted (w_value (directory w')) readiness id = true)
  | Returned (Failure e, w') =>
      w' = w ∧ get_table_ids_for_query db tables threadnum w = Returned (Failure e)
  | _ => True
  end.
Proof.
  unfold table_wait.
  destruct (get_table_ids_for_query db tables threadnum w)
    as [[table_map|e]| | |]; try done.
  cbv beta iota zeta delta [mbind outcome_bind].
  destruct (table_wait_loop (table_wait_fuel (directory w)) readiness _ (directory w))
    as [[[ws dir']| | |]|] eqn:Hloop; try done.
  simpl. split_and!; [done|done|]. exists table_map. split; [done|].
  intros Hcase.
  assert (Forall (λ w, ready_or_deleted (w_value dir') readiness (table_id w) = true)
                 ((λ pair, new pair.1) <$> std_map_elements table_map)) as Hall.
  { destruct Hcase as [Hone|Hfit].
    - apply table_wait_loop_returned_one in Hloop as [_ ?]; [done|].
      by rewrite length_fmap.
    - by apply table_wait_loop_returned in Hloop as [_ ?]. }
  intros id n Hm. rewrite Forall_forall in Hall.
  by apply (Hall (new id)), (elem_of_waiters_of_map _ _ n).
Qed.

Section create.
Variable calculate_server_usage : table_config_t → gmap N Z → gmap N Z.
Variable table_generate_config :
  uuid_u → option table_status_t → gmap N Z → table_generate_config_params_t →
  table_shard_scheme_t → outcome (reql_result table_config_t).

Local Abbreviation create :=
  (table_create calculate_server_usage table_generate_config).

(** [table_create] up to its readiness wait, and from there on. *)
Lemma table_create_reaches_wait name db primary_dc hard_durability primary_key
    fresh threadnum w repli_info_config :
  ql.name db ≠ rethinkdb →
  (∀ id, ¬ resolves (rdb_namespaces (semilattice_root_view w)) db name id) →
  table_generate_config nil_uuid None
    (server_usage_of_all calculate_server_usage
       (rdb_namespaces (semilattice_root_view w)))
    (mk_params 1 {[ "default" := 1%Z ]} "default") one_shard
  = Returned (Success repli_info_config) →
  has_watchables (home_thread w) w →
  has_watchables threadnum w →
  let w0 :=
    root_view_join
      (mk_cluster
         (std_map_insert fresh
            (Live (new_table_metadata name db primary_key repli_info_config))
            (rdb_namespaces (semilattice_root_view w)))
         (databases (semilattice_root_view w)))
      w in
  ∃ w1,
    wait_for_metadata_to_propagate (semilattice_root_view w0) (home_thread w) w0
    = Returned w1
    ∧ will_subsume threadnum (semilattice_root_view w0) w1
    ∧ create name db primary_dc hard_durability primary_key fresh threadnum w
      = '(_, w2) ← table_wait (ql.mk_db (ql.id db) (ql.name db)) [name] writes
                     false (home_thread w) w1;
        w3 ← wait_for_metadata_to_propagate (semilattice_root_view w0) threadnum w2;
        mret (Success (), w3).
Proof.
  intros Hdb Hfree Hgen Hhome Hthr w0. unfold table_create.
  rewrite bool_decide_eq_true_2 by done.
  cbv beta zeta iota delta [guarantee mbind outcome_bind].
  destruct (find_uniq _ _) as [it status] eqn:Hf.
  destruct status.
  - exfalso. apply find_uniq_success in Hf as (id & ns & _ & Hm & Hp & _).
    apply namespace_predicate_named in Hp as [? ?]. apply (Hfree id). by exists ns.
  - cbv beta zeta iota delta [check_metadata_status].
    fold (server_usage_of_all calculate_server_usage
            (rdb_namespaces (semilattice_root_view w))).
    rewrite Hgen.
    change (root_view_join _ w) with w0.
    destruct (wait_will_subsume (semilattice_root_view w0) (home_thread w) w0)
      as (w1 & Hwait); [by apply will_subsume_after_join|].
    change (home_thread w0) with (home_thread w).
    rewrite Hwait. exists w1. split_and!; [done| |].
    + eapply will_subsume_wait; [|exact Hwait]. by apply will_subsume_after_join.
    + pose proof (wait_for_metadata_to_propagate_cases
                    (semilattice_root_view w0) (home_thread w) w0) as Hc.
      rewrite Hwait in Hc. destruct Hc as (_ & -> & _). done.
  - exfalso.
    apply find_uniq_multiple in Hf as (id & ns & _ & _ & _ & Hm & Hp & _).
    apply namespace_predicate_named in Hp as [? ?]. apply (Hfree id). by exists ns.
Qed.

(** C10. When [table_create] finds no live table of that name and the
    configuration is generated, it reaches its wait for Writes readiness,
    on the home thread, in the world [w1] in which the new metadata is
    joined into the store and the barrier of the home thread is passed.
    Whatever that wait returns there, [true] after an Immediate or a Waited
    wait, or [false] with an error message, [table_create] passes the
    barrier of its own thread and returns [true]; only an interruption or a
    failed check inside the wait gets through.  The wait fails only when
    the name does not resolve in the copy of the home thread, so when the
    table is already deleted there, and it returns [true] only once the
    table is ready for writes or the status backend reports no such
    table. *)
Theorem table_create_ignores_wait_outcome (name : name_string_t) (db : ql.db_t)
    (primary_dc : option name_string_t) (hard_durability : bool)
    (primary_key : string) (fresh : uuid_u) (threadnum : nat) (w : world)
    (repli_info_config : table_config_t) :
  ql.name db ≠ rethinkdb →
  (∀ id, ¬ resolves (rdb_namespaces (semilattice_root_view w)) db name id) →
  table_generate_config nil_uuid None
    (server_usage_of_all calculate_server_usage
       (rdb_namespaces (semilattice_root_view w)))
    (mk_params 1 {[ "default" := 1%Z ]} "default") one_shard
  = Returned (Success repli_info_config) →
  has_watchables (home_thread w) w →
  has_watchables threadnum w →
  let w0 :=
    root_view_join
      (mk_cluster
         (std_map_insert fresh
            (Live (new_table_metadata name db primary_key repli_info_config))
            (rdb_namespaces (semilattice_root_view w)))
         (databases (semilattice_root_view w)))
      w in
  ∃ w1,
    wait_for_metadata_to_propagate (semilattice_root_view w0) (home_thread w) w0
    = Returned w1
    ∧ let ct_db := ql.mk_db (ql.id db) (ql.name db) in
      let wait := table_wait ct_db [name] writes false (home_thread w) w1 in
      (∀ wait_res w2, wait = Returned (wait_res, w2) →
         ∃ w3,
           wait_for_metadata_to_propagate (semilattice_root_view w0) threadnum w2
           = Returned w3
           ∧ create name db primary_dc hard_durability primary_key fresh threadnum w
             = Returned (Success (), w3))
      ∧ (wait = Interrupted →
         create name db primary_dc hard_durability primary_key fresh threadnum w
         = Interrupted)
      ∧ (∀ e w2, wait = Returned (Failure e, w2) →
           w2 = w1
           ∧ e = NotFound "Table" (qualified_name db name)
           ∧ ∃ nss, get_namespaces_metadata (home_thread w) w1 = Returned nss
                    ∧ ∀ id, ¬ resolves nss db name id)
      ∧ (∀ res w2, wait = Returned (Success res, w2) →
           res = None
           ∧ ∃ table_map,
               get_table_ids_for_query ct_db [name] (home_thread w) w1
               = Returned (Success table_map)
               ∧ ∀ id n, table_map !! id = Some n →
                   ready_or_deleted (w_value (directory w2)) writes id = true).
Proof.
  intros Hdb Hfree Hgen Hhome Hthr w0.
  destruct (table_create_reaches_wait name db primary_dc hard_durability
              primary_key fresh threadnum w repli_info_config Hdb Hfree Hgen
              Hhome Hthr)
    as (w1 & Hw1 & Hsub & Hcreate).
  fold w0 in Hw1, Hsub, Hcreate.
  exists w1. cbv zeta. split_and!; [done| | | |].
  - intros wait_res w2 Hwait.
    pose proof (table_wait_cases (ql.mk_db (ql.id db) (ql.name db)) [name]
                  writes (home_thread w) w1) as Hcases.
    rewrite Hwait in Hcases.
    assert (will_subsume threadnum (semilattice_root_view w0) w2) as Hsub2.
    { destruct wait_res as [res|e].
      - destruct Hcases as (_ & -> & _). by apply will_subsume_set_directory.
      - by destruct Hcases as (-> & _). }
    destruct (wait_will_subsume _ _ _ Hsub2) as (w3 & Hw3).
    exists w3. split; [done|]. rewrite Hcreate, Hwait.
    cbv beta iota delta [mbind outcome_bind]. by rewrite Hw3.
  - intros Hwait. by rewrite Hcreate, Hwait.
  - intros e w2 Hwait.
    pose proof (table_wait_cases (ql.mk_db (ql.id db) (ql.name db)) [name]
                  writes (home_thread w) w1) as Hcases.
    rewrite Hwait in Hcases. destruct Hcases as [-> Hget]. split; [done|].
    unfold get_table_ids_for_query in Hget. simpl in Hget.
    rewrite bool_decide_eq_true_2 in Hget by done. simpl in Hget.
    destruct (get_namespaces_metadata (home_thread w) w1) as [nss| | |];
      simpl in Hget; try done.
    destruct (find_uniq _ _) as [it status] eqn:Hf.
    destruct status; simpl in Hget.
    + by destruct it as [[? ?]|].
    + injection Hget as <-. split; [done|]. exists nss. split; [done|].
      apply find_uniq_none in Hf as [_ Hno].
      intros id (ns & Hm & Hn & Hd). specialize (Hno _ _ Hm).
      rewrite (proj2 (namespace_predicate_named _ _ _)) in Hno; done.
    + done.
  - intros res w2 Hwait.
    pose proof (table_wait_cases (ql.mk_db (ql.id db) (ql.name db)) [name]
                  writes (home_thread w) w1) as Hcases.
    rewrite Hwait in Hcases. destruct Hcases as (-> & _ & table_map & Hget & Hall).
    split; [done|]. exists table_map. split; [done|].
    apply Hall. left. by eapply get_table_ids_for_query_one.
Qed.
End create.

(** ** The claims at concrete inputs *)

Lemma NoDup_fmap_eq {A B} (f : A → B) (l : list A) x y :
  NoDup (f <$> l) → x ∈ l → y ∈ l → f x = f y → x = y.
Proof.
  induction l as [|a l IH]; simpl; intros Hnd Hx Hy Hf.
  - by apply elem_of_nil in Hx.
  - apply NoDup_cons in Hnd as [Ha Hnd].
    apply elem_of_cons in Hx as [->|Hx]; apply elem_of_cons in Hy as [->|Hy].
    + done.
    + destruct Ha. rewrite Hf. by apply list_elem_of_fmap_2.
    + destruct Ha. rewrite <- Hf. by apply list_elem_of_fmap_2.
    + by apply IH.
Qed.

(** The uniqueness invariants can be checked on the list of live entries. *)
Lemma table_names_unique_check (nss : namespaces_semilattice_metadata_t) :
  NoDup ((λ it, (Versioned.get_ref (ns_name it.2), Versioned.get_ref (ns_database it.2)))
           <$> find_all (λ _, true) nss) →
  table_names_unique nss.
Proof.
  intros Hnd id1 id2 ns1 ns2 H1 H2 Hn Hd.
  assert ((id1, ns1) = (id2, ns2)) as [=]; [|done].
  eapply NoDup_fmap_eq; [exact Hnd|by apply elem_of_find_all..|].
  simpl. by rewrite Hn, Hd.
Qed.

Lemma database_names_unique_check (dbs : databases_semilattice_metadata_t) :
  NoDup ((λ it, Versioned.get_ref (db_name it.2)) <$> find_all (λ _, true) dbs) →
  database_names_unique dbs.
Proof.
  intros Hnd id1 id2 db1 db2 H1 H2 Hn.
  assert ((id1, db1) = (id2, db2)) as [=]; [|done].
  eapply NoDup_fmap_eq; [exact Hnd|by apply elem_of_find_all..|done].
Qed.

Lemma resolves_check nss db name id :
  resolves nss db name id ↔
  ∃ ns, nss !! id = Some (Live ns)
        ∧ namespace_predicate_t (Some name) (ql.id db) ns = true.
Proof.
  unfold resolves. split; intros (ns & Hm & H); exists ns; split; try done.
  - by apply namespace_predicate_named.
  - by apply namespace_predicate_named in H.
Qed.

Lemma not_resolves_check nss db name :
  find_all (namespace_predicate_t (Some name) (ql.id db)) nss = [] →
  ∀ id, ¬ resolves nss db name id.
Proof.
  intros Hnone id (ns & Hm & Hp)%resolves_check.
  assert ((id, ns) ∈ find_all (namespace_predicate_t (Some name) (ql.id db)) nss)
    as Hin by by apply elem_of_find_all.
  rewrite Hnone in Hin. by apply elem_of_nil in Hin.
Qed.

Lemma not_names_database_check dbs name :
  find_all (database_by_name name) dbs = [] → ¬ names_database dbs name.
Proof.
  intros Hnone (id & db & Hm & Hp)%names_database_by_name.
  assert ((id, db) ∈ find_all (database_by_name name) dbs)
    as Hin by by apply elem_of_find_all.
  rewrite Hnone in Hin. by apply elem_of_nil in Hin.
Qed.

(** C2 at the empty world: the first [db_create] of [a] succeeds and every
    second one fails with AlreadyExists. *)
Lemma db_create_already_exists_iff_witness :
  "a" ≠ rethinkdb
  ∧ database_names_unique (databases (semilattice_root_view (empty_world 1)))
  ∧ databases (semilattice_root_view (empty_world 1)) !! 5 = None
  ∧ has_watchables 0 (empty_world 1)
  ∧ ∃ w', db_create "a" 5 0 (empty_world 1) = Returned (Success (), w')
      ∧ databases (semilattice_root_view w')
        = {[ 5 := Live (mk_database (Versioned.make "a")) ]}
      ∧ ∀ fresh', db_create "a" fresh' 0 w'
                  = Returned (Failure (AlreadyExists "Database" "a"), w').
Proof.
  assert ("a" ≠ rethinkdb) as Hname by done.
  assert (database_names_unique (databases (semilattice_root_view (empty_world 1))))
    as Huniq by (apply database_names_unique_check; compute_done).
  assert (databases (semilattice_root_view (empty_world 1)) !! 5 = None)
    as Hfresh by reflexivity.
  assert (has_watchables 0 (empty_world 1)) as Hhas by (split; by eexists).
  split_and!; [done..|].
  destruct (db_create_already_exists_iff "a" 5 0 (empty_world 1)
              Hname Huniq Hfresh Hhas) as (_ & _ & Hsucc).
  destruct Hsucc as (w' & Hrun & Hdbs & _ & _ & _ & _ & Hagain).
  { by apply not_names_database_check. }
  exists w'. split_and!; [done| |done]. by rewrite Hdbs.
Defined.

(** C3 at a world with database [a] and two tables: the drop succeeds, the
    database and its table become tombstones, the table of the other
    database stays. *)
Lemma db_drop_not_found_iff_witness :
  "a" ≠ rethinkdb
  ∧ database_names_unique (databases (semilattice_root_view examples.world_to_drop))
  ∧ has_watchables 0 examples.world_to_drop
  ∧ ∃ w', db_drop "a" 0 examples.world_to_drop = Returned (Success (), w')
      ∧ databases (semilattice_root_view w') !! 5 = Some Deleted
      ∧ rdb_namespaces (semilattice_root_view w') !! 10 = Some Deleted
      ∧ rdb_namespaces (semilattice_root_view w') !! 11
        = Some (Live (examples.table examples.other_db "t")).
Proof.
  assert ("a" ≠ rethinkdb) as Hname by done.
  assert (database_names_unique
            (databases (semilattice_root_view examples.world_to_drop)))
    as Huniq by (apply database_names_unique_check; compute_done).
  assert (has_watchables 0 examples.world_to_drop) as Hhas by (split; by eexists).
  split_and!; [done..|].
  destruct (db_drop_not_found_iff "a" 0 examples.world_to_drop Hname Huniq Hhas)
    as (_ & _ & Hsucc).
  destruct (Hsucc 5 (mk_database (Versioned.make "a")) eq_refl eq_refl)
    as (w' & Hrun & Hdb & _ & Htables & _).
  exists w'. split_and!; [done..| |].
  - by rewrite Htables.
  - by rewrite Htables.
Defined.

(** C4 at a concrete sequence, run on thread 1 of two: create [a], create
    [b], drop [a]. *)
Lemma db_list_created_not_dropped_witness :
  (1 < 2)%nat
  ∧ NoDup (created_names examples.db_ops)
  ∧ NoDup (created_ids examples.db_ops)
  ∧ ∃ w', run_db_ops examples.db_ops 1 (empty_world 2) = Some w'
      ∧ db_list 1 w' = Returned (list_to_set ["a"; "b"] ∖ list_to_set ["a"]).
Proof.
  assert (1 < 2)%nat as Hthr by lia.
  assert (NoDup (created_names examples.db_ops)) as Hn by compute_done.
  assert (NoDup (created_ids examples.db_ops)) as Hi by compute_done.
  split_and!; [done..|].
  destruct (run_db_ops examples.db_ops 1 (empty_world 2)) as [w'|] eqn:Hrun;
    [|by vm_compute in Hrun].
  exists w'. split; [done|].
  by apply (proj2 db_list_created_not_dropped 2%nat 1%nat examples.db_ops w'
              Hthr Hn Hi Hrun).
Defined.

(** C6 at a waiter for table 7 and a status without that table. *)
Lemma deleted_table_is_ready_witness :
  get_table_readiness (w_value (mk_watchable (∅ : gmap N table_readiness_t) []))
                      (table_id (new 7)) = None
  ∧ wait_ready finished (new 7) (mk_watchable ∅ [])
    = Some (IMMEDIATE, mk true 7, mk_watchable ∅ []).
Proof.
  assert (get_table_readiness
            (w_value (mk_watchable (∅ : gmap N table_readiness_t) []))
            (table_id (new 7)) = None) as Hnone by reflexivity.
  split; [done|].
  by destruct (deleted_table_is_ready finished (new 7) (mk_watchable ∅ []) Hnone)
    as (_ & _ & Hwait & _).
Defined.

(** C8 at a copy with the live tables [a] and [b]: the request for [a] and
    [c] fails and names [c]. *)
Lemma get_table_ids_for_query_first_missing_name_witness :
  ql.name examples.db_d ≠ rethinkdb
  ∧ get_namespaces_metadata 0 (examples.world_of_tables examples.tables_live)
    = Returned examples.tables_live
  ∧ table_names_unique examples.tables_live
  ∧ get_table_ids_for_query examples.db_d ["a"; "c"] 0
      (examples.world_of_tables examples.tables_live)
    = Returned (Failure (NotFound "Table" "d.c")).
Proof.
  assert (ql.name examples.db_d ≠ rethinkdb) as Hdb by done.
  assert (get_namespaces_metadata 0 (examples.world_of_tables examples.tables_live)
          = Returned examples.tables_live) as Hcopy by reflexivity.
  assert (table_names_unique examples.tables_live)
    as Huniq by (apply table_names_unique_check; compute_done).
  split_and!; [done..|].
  destruct (get_table_ids_for_query_first_missing_name examples.db_d ["a"; "c"] 0
              (examples.world_of_tables examples.tables_live) examples.tables_live
              Hdb Hcopy Huniq)
    as (_ & _ & Hmissing).
  apply (Hmissing ["a"] "c" []); [done| |].
  - constructor; [|constructor]. exists 9. apply resolves_check.
    by exists (examples.table examples.db_d "a").
  - by apply not_resolves_check.
Defined.

(** C8 as stated fails: the tables [a] (id 9) and [b] (id 3) were resolved
    and are then both deleted; the first missing table in id order is [b],
    and so says [deleted_table_error_message], but the resolution of the
    same request names [a], the first name of the request. *)
Lemma get_table_ids_for_query_not_first_by_id :
  get_table_ids_for_query examples.db_d ["a"; "b"] 0
    (examples.world_of_tables examples.tables_dropped)
  = Returned (Failure (NotFound "Table" "d.a"))
  ∧ first_missing_in_id_order {[ 3 := "b"; 9 := "a" ]} examples.tables_dropped
    = Some "b"
  ∧ deleted_table_error_message examples.db_d {[ 3 := "b"; 9 := "a" ]} []
    = Returned (NotFound "Table" "d.b")
  ∧ ¬ reports_first_missing_by_id examples.db_d ["a"; "b"] 0
        (examples.world_of_tables examples.tables_live)
        (examples.world_of_tables examples.tables_dropped).
Proof.
  split_and!; [by vm_compute..|].
  intros Hclaim.
  destruct (Hclaim {[ 3 := "b"; 9 := "a" ]} (NotFound "Table" "d.a")
              examples.tables_dropped)
    as (missing & Hfirst & Hname); [by vm_compute..|].
  vm_compute in Hfirst. by simplify_eq.
Qed.

(** C10 called on thread 1, with a tombstone of the new table under way to
    the copy of the home thread: the readiness wait fails with NotFound and
    [table_create] returns [true]. *)
Lemma table_create_ignores_wait_outcome_witness :
  ql.name examples.db_d ≠ rethinkdb
  ∧ (∀ id, ¬ resolves
             (rdb_namespaces (semilattice_root_view examples.world_with_tombstone))
             examples.db_d "t" id)
  ∧ examples.generate_one_replica nil_uuid None
      (server_usage_of_all examples.usage_unchanged
         (rdb_namespaces (semilattice_root_view examples.world_with_tombstone)))
      (mk_params 1 {[ "default" := 1%Z ]} "default") one_shard
    = Returned (Success examples.one_replica)
  ∧ has_watchables (home_thread examples.world_with_tombstone)
                   examples.world_with_tombstone
  ∧ has_watchables 1 examples.world_with_tombstone
  ∧ ∃ w1 w3,
      table_wait examples.db_d ["t"] writes false 0 w1
      = Returned (Failure (NotFound "Table" "d.t"), w1)
      ∧ table_create examples.usage_unchanged examples.generate_one_replica
          "t" examples.db_d None true "id" 7 1 examples.world_with_tombstone
        = Returned (Success (), w3).
Proof.
  assert (ql.name examples.db_d ≠ rethinkdb) as Hdb by done.
  assert (∀ id, ¬ resolves
            (rdb_namespaces (semilattice_root_view examples.world_with_tombstone))
            examples.db_d "t" id) as Hfree by by apply not_resolves_check.
  assert (examples.generate_one_replica nil_uuid None
            (server_usage_of_all examples.usage_unchanged
               (rdb_namespaces (semilattice_root_view examples.world_with_tombstone)))
            (mk_params 1 {[ "default" := 1%Z ]} "default") one_shard
          = Returned (Success examples.one_replica)) as Hgen by reflexivity.
  assert (has_watchables (home_thread examples.world_with_tombstone)
                         examples.world_with_tombstone) as Hhome
    by (split; by eexists).
  assert (has_watchables 1 examples.world_with_tombstone) as Hthr
    by (split; by eexists).
  split_and!; [done..|].
  destruct (table_create_ignores_wait_outcome examples.usage_unchanged
              examples.generate_one_replica "t" examples.db_d None true "id" 7 1
              examples.world_with_tombstone examples.one_replica
              Hdb Hfree Hgen Hhome Hthr)
    as (w1 & Hw1 & Hret & _).
  vm_compute in Hw1. injection Hw1 as <-.
  match type of Hret with
  | ∀ _ _, table_wait _ _ _ _ _ ?w1 = _ → _ =>
      assert (table_wait examples.db_d ["t"] writes false 0 w1
              = Returned (Failure (NotFound "Table" "d.t"), w1)) as Hwait
        by by vm_compute
  end.
  destruct (Hret _ _ Hwait) as (w3 & _ & Hcreate).
  by eexists _, w3.
Defined.

(** ** Concrete runs *)

(** The barrier skips the copies that do not subsume the target. *)
Example wait_for_metadata_to_propagate_skips :
  let target := mk_cluster examples.tables_dropped ∅ in
  let w := mk_world target 0%nat
             [mk_watchable ∅ [examples.tables_live; examples.tables_dropped]]
             [mk_watchable ∅ []] (mk_watchable ∅ []) in
  wait_for_metadata_to_propagate target 0 w
  = Returned (mk_world target 0%nat [mk_watchable examples.tables_dropped []]
                       [mk_watchable ∅ []] (mk_watchable ∅ [])).
Proof. by vm_compute. Qed.

(** A wait that suspends once returns Waited; the next one, on the status
    reached, returns Immediate. *)
Example wait_ready_waited_then_immediate :
  wait_ready writes (new 1) examples.flapping_directory
  = Some (WAITED, new 1,
          mk_watchable {[ 1 := finished; 2 := unready ]}
                       [ {[ 1 := unready; 2 := finished ]};
                         {[ 1 := finished; 2 := finished ]} ])
  ∧ wait_ready writes (new 1)
      (mk_watchable {[ 1 := finished; 2 := unready ]} [])
    = Some (IMMEDIATE, new 1, mk_watchable {[ 1 := finished; 2 := unready ]} []).
Proof. split; by vm_compute. Qed.

(** The second pass finds table 1 not ready after the wait on table 2, the
    loop starts again, and it is left when both tables are ready. *)
Example table_wait_loop_restarts :
  wait_each writes [new 1; new 2] true examples.flapping_directory
  = Some (false, [new 1; new 2],
          mk_watchable {[ 1 := unready; 2 := finished ]}
                       [ {[ 1 := finished; 2 := finished ]} ])
  ∧ second_pass writes [new 1; new 2]
      (mk_watchable {[ 1 := unready; 2 := finished ]}
                    [ {[ 1 := finished; 2 := finished ]} ])
    = (true, [new 1; new 2])
  ∧ table_wait_loop (table_wait_fuel examples.flapping_directory) writes
      [new 1; new 2] examples.flapping_directory
    = Some (Returned ([new 1; new 2],
                      mk_watchable {[ 1 := finished; 2 := finished ]} [])).
Proof. split_and!; by vm_compute. Qed.

(** A thread without watchables fails the guarantee of the barrier, and the
    sanity check of the reads. *)
Example thread_without_watchables :
  wait_for_metadata_to_propagate (mk_cluster ∅ ∅) 3 (empty_world 2) = GuaranteeFailed
  ∧ db_list 3 (empty_world 2) = SanityCheckFailed.
Proof. split; by vm_compute. Qed.

(** With [dry_run] the store keeps the old configuration of the table,
    without it the store has the new one; the value returned is the same. *)
Example table_reconfigure_dry_run_and_commit :
  result_of (examples.reconfigure_a true)
  = Returned (Success examples.two_shards)
  ∧ result_of (examples.reconfigure_a false)
    = Returned (Success examples.two_shards)
  ∧ examples.config_of_a (examples.reconfigure_a true)
    = Some examples.one_replica
  ∧ examples.config_of_a (examples.reconfigure_a false)
    = Some examples.two_shards.
Proof. split_and!; by vm_compute. Qed.

(** When the status backend has no row for the new table, the readiness
    wait of [table_create] is satisfied at once. *)
Example table_create_without_status_row :
  result_of (table_create examples.usage_unchanged examples.generate_one_replica
               "t" examples.db_d None true "id" 7 1 (empty_world 2))
  = Returned (Success ()).
Proof. by vm_compute. Qed.

(** * Further properties of the interface *)

(** ** What a thread reads after the barrier *)

(** The joins are associative. *)
Lemma versioned_join_assoc {T} (a b c : versioned_t T) :
  semilattice_join a (semilattice_join b c)
  = semilattice_join (semilattice_join a b) c.
Proof.
  unfold semilattice_join, Versioned.versioned_semilattice, Versioned.join.
  destruct (N.ltb_spec (Versioned.stamp b) (Versioned.stamp c));
    destruct (N.ltb_spec (Versioned.stamp a) (Versioned.stamp b));
    repeat match goal with
           | |- context [(?x <? ?y)%N] => destruct (N.ltb_spec x y)
           end; try done; lia.
Qed.

Lemma database_join_assoc (a b c : database_semilattice_metadata_t) :
  semilattice_join a (semilattice_join b c)
  = semilattice_join (semilattice_join a b) c.
Proof.
  unfold semilattice_join at 1 3, database_semilattice. simpl.
  by rewrite versioned_join_assoc.
Qed.

Lemma namespace_join_assoc (a b c : namespace_semilattice_metadata_t) :
  semilattice_join a (semilattice_join b c)
  = semilattice_join (semilattice_join a b) c.
Proof.
  unfold semilattice_join at 1 3, namespace_semilattice. simpl.
  by rewrite !versioned_join_assoc.
Qed.

Lemma deletable_join_assoc {T} `{Semilattice T} (a b c : deletable_t T) :
  (∀ x y z : T, semilattice_join x (semilattice_join y z)
                = semilattice_join (semilattice_join x y) z) →
  semilattice_join a (semilattice_join b c)
  = semilattice_join (semilattice_join a b) c.
Proof.
  intros Hassoc. unfold semilattice_join in *.
  unfold Deletable.deletable_semilattice, Deletable.join.
  destruct a, b, c; try done. by rewrite Hassoc.
Qed.

Lemma map_join_assoc {V} `{Semilattice V} (a b c : gmap N V) :
  (∀ x y z : V, semilattice_join x (semilattice_join y z)
                = semilattice_join (semilattice_join x y) z) →
  semilattice_join a (semilattice_join b c)
  = semilattice_join (semilattice_join a b) c.
Proof.
  intros Hassoc. apply map_eq. intros i. rewrite !lookup_map_join.
  destruct (a !! i), (b !! i), (c !! i); simpl; try done. by rewrite Hassoc.
Qed.

Lemma namespaces_join_assoc (a b c : namespaces_semilattice_metadata_t) :
  semilattice_join a (semilattice_join b c)
  = semilattice_join (semilattice_join a b) c.
Proof.
  apply map_join_assoc. intros x y z. apply deletable_join_assoc.
  apply namespace_join_assoc.
Qed.

Lemma databases_join_assoc (a b c : databases_semilattice_metadata_t) :
  semilattice_join a (semilattice_join b c)
  = semilattice_join (semilattice_join a b) c.
Proof.
  apply map_join_assoc. intros x y z. apply deletable_join_assoc.
  apply database_join_assoc.
Qed.

(** A copy that the store subsumes and that subsumes the store is the
    store. *)
Lemma copy_eq_store {T} `{Semilattice T, EqDecision T} (copy store : T) :
  subsumed_by copy store → is_joined copy store = true → copy = store.
Proof. intros Hle Hj. apply is_joined_true in Hj. congruence. Qed.

Lemma follows_store_has_watchables threadnum w :
  follows_store threadnum w → has_watchables threadnum w.
Proof. intros (nsw & dbw & Hn & Hd & _). split; by eexists. Qed.

(** A join into the store keeps the copies of every thread behind the
    store. *)
Lemma follows_store_root_view_join threadnum md w :
  follows_store threadnum w → follows_store threadnum (root_view_join md w).
Proof.
  intros (nsw & dbw & Hn & Hd & Hns & Hds).
  exists (publish (rdb_namespaces (semilattice_join (semilattice_root_view w) md)) nsw),
         (publish (databases (semilattice_join (semilattice_root_view w) md)) dbw).
  unfold root_view_join. simpl. rewrite !list_lookup_fmap, Hn, Hd.
  split_and!; [done..| |]; unfold w_history, publish; simpl;
    rewrite app_comm_cons; apply Forall_app; split.
  - eapply Forall_impl; [exact Hns|]. intros v Hv. unfold subsumed_by in *.
    by rewrite namespaces_join_assoc, Hv.
  - constructor; [apply namespaces_join_idemp|constructor].
  - eapply Forall_impl; [exact Hds|]. intros v Hv. unfold subsumed_by in *.
    by rewrite databases_join_assoc, Hv.
  - constructor; [apply databases_join_idemp|constructor].
Qed.

(** A thread whose copies are the store, with nothing under way, follows
    the store. *)
Lemma follows_store_check threadnum w :
  cross_thread_namespace_watchables w !! threadnum
  = Some (mk_watchable (rdb_namespaces (semilattice_root_view w)) []) →
  cross_thread_database_watchables w !! threadnum
  = Some (mk_watchable (databases (semilattice_root_view w)) []) →
  follows_store threadnum w.
Proof.
  intros Hn Hd. eexists _, _. split_and!; [exact Hn|exact Hd|..].
  - constructor; [apply namespaces_join_idemp|constructor].
  - constructor; [apply databases_join_idemp|constructor].
Qed.

(** The barrier, passed on any thread for any target, keeps the copies of
    every thread behind the store. *)
Lemma follows_store_wait threadnum metadata other w w' :
  follows_store threadnum w →
  wait_for_metadata_to_propagate metadata other w = Returned w' →
  follows_store threadnum w'.
Proof.
  intros (nsw & dbw & Hn & Hd & Hns & Hds) Hrun.
  pose proof (wait_for_metadata_to_propagate_cases metadata other w) as Hcases.
  rewrite Hrun in Hcases.
  destruct Hcases as (Hst & _ & _ & nsw0 & nsw' & dbw0 & dbw'
                      & Hn0 & Hd0 & Hnsws & Hdbws
                      & (sn & Hsn & _) & (sd & Hsd & _) & _).
  unfold follows_store. rewrite Hst, Hnsws, Hdbws.
  destruct (decide (other = threadnum)) as [->|Hne].
  - simplify_eq. exists nsw', dbw'.
    rewrite !list_lookup_insert_eq by by eapply lookup_lt_Some.
    rewrite Hsn in Hns. rewrite Hsd in Hds.
    apply Forall_app in Hns as [_ Hns]. apply Forall_app in Hds as [_ Hds].
    done.
  - exists nsw, dbw. by rewrite !list_lookup_insert_ne.
Qed.

(** Once the barrier on the value of the store is passed, the thread reads
    the store from its copies. *)
Lemma reads_store_wait threadnum w w' :
  follows_store threadnum w →
  wait_for_metadata_to_propagate (semilattice_root_view w) threadnum w = Returned w' →
  reads_store threadnum w'.
Proof.
  intros (nsw & dbw & Hn & Hd & Hns & Hds) Hrun.
  pose proof (wait_for_metadata_to_propagate_cases
                (semilattice_root_view w) threadnum w) as Hcases.
  rewrite Hrun in Hcases.
  destruct Hcases as (Hst & _ & _ & nsw0 & nsw' & dbw0 & dbw'
                      & Hn0 & Hd0 & Hnsws & Hdbws
                      & (sn & Hsn & _) & (sd & Hsd & _) & Hjn & Hjd).
  simplify_eq. rewrite Hsn in Hns. rewrite Hsd in Hds.
  apply Forall_app in Hns as [_ Hns]. apply Forall_app in Hds as [_ Hds].
  apply Forall_cons in Hns as [Hns _]. apply Forall_cons in Hds as [Hds _].
  unfold reads_store, get_namespaces_metadata, get_databases_metadata.
  rewrite Hst, Hnsws, Hdbws.
  rewrite !list_lookup_insert_eq by by eapply lookup_lt_Some.
  simpl. split; f_equal; by apply copy_eq_store.
Qed.

Lemma follows_store_set_directory threadnum w dir :
  follows_store threadnum w → follows_store threadnum (set_directory w dir).
Proof. done. Qed.

(** ** [db_find] *)

(** The two answers of [db_find] on a copy that satisfies the uniqueness
    invariant. *)
Lemma db_find_cases name threadnum w copy :
  name ≠ rethinkdb →
  get_databases_metadata threadnum w = Returned copy →
  database_names_unique copy →
  (∃ id db, copy !! id = Some (Live db)
            ∧ Versioned.get_ref (db_name db) = name
            ∧ db_find name threadnum w = Returned (Success (ql.mk_db id name)))
  ∨ (¬ names_database copy name
     ∧ db_find name threadnum w = Returned (Failure (NotFound "Database" name))).
Proof.
  intros Hname Hcopy Huniq. unfold db_find.
  rewrite bool_decide_eq_true_2 by done. simpl. rewrite Hcopy. simpl.
  destruct (find_uniq_database_cases copy name Huniq)
    as [(_ & id & db & -> & Hm & Hn) | [Hno ->]].
  - left. by exists id, db.
  - by right.
Qed.

(** ** Joins that move the store forward *)

(** Joining a later state into the store gives the later state. *)
Lemma cluster_join_later (store md : cluster_semilattice_metadata_t) :
  entries_le (rdb_namespaces store) (rdb_namespaces md) →
  entries_le (databases store) (databases md) →
  semilattice_join store md = md.
Proof.
  intros Hn Hd. rewrite cluster_join_unfold. destruct md as [nss dbs]. simpl in *.
  f_equal; apply map_join_later; try done.
  - apply namespace_join_idemp.
  - intros id Hid. destruct (rdb_namespaces store !! id) as [e|] eqn:He; [|done].
    destruct (Hn _ _ He); congruence.
  - apply database_join_idemp.
  - intros id Hid. destruct (databases store !! id) as [e|] eqn:He; [|done].
    destruct (Hd _ _ He); congruence.
Qed.

Lemma entries_le_std_map_insert {T} (m : gmap N (deletable_t T)) k e :
  entries_le m (std_map_insert k e m).
Proof.
  unfold std_map_insert. destruct (m !! k) eqn:Hk.
  - apply entries_le_refl.
  - by apply entries_le_insert_fresh.
Qed.

Lemma entries_le_mark_tables_deleted db_id
    (nss : namespaces_semilattice_metadata_t) :
  entries_le nss (mark_tables_deleted db_id nss).
Proof.
  intros id e He. rewrite mark_tables_deleted_lookup, He.
  destruct e as [ns|]; [|by left]. destruct (bool_decide _); [by right|by left].
Qed.

(** A write of a later state followed by the barrier: the store is the
    later state, and the calling thread reads it. *)
Lemma join_then_wait threadnum md w w' :
  entries_le (rdb_namespaces (semilattice_root_view w)) (rdb_namespaces md) →
  entries_le (databases (semilattice_root_view w)) (databases md) →
  wait_for_metadata_to_propagate
    (semilattice_root_view (root_view_join md w)) threadnum (root_view_join md w)
  = Returned w' →
  semilattice_root_view w' = md
  ∧ directory w' = directory w
  ∧ home_thread w' = home_thread w
  ∧ (∀ other, follows_store other w → follows_store other w')
  ∧ (follows_store threadnum w → reads_store threadnum w').
Proof.
  intros Hn Hd Hrun.
  assert (semilattice_root_view (root_view_join md w) = md) as Hmd.
  { unfold root_view_join. simpl. by apply cluster_join_later. }
  assert (∀ other, follows_store other w → follows_store other (root_view_join md w))
    as Hfollow by (intros other Ho; by apply follows_store_root_view_join).
  pose proof (wait_for_metadata_to_propagate_cases
                (semilattice_root_view (root_view_join md w)) threadnum
                (root_view_join md w)) as Hcases.
  rewrite Hrun in Hcases. destruct Hcases as (Hst & Hhome & Hdir & _).
  split_and!.
  - by rewrite Hst.
  - by rewrite Hdir.
  - by rewrite Hhome.
  - intros other Ho. eapply follows_store_wait; [by apply Hfollow|exact Hrun].
  - intros Ho. eapply reads_store_wait; [by apply Hfollow|exact Hrun].
Qed.

(** ** What [db_create] and [db_drop] did when they return *)

Lemma db_create_inv name fresh threadnum w r w' :
  db_create name fresh threadnum w = Returned (r, w') →
  name ≠ rethinkdb
  ∧ ((r = Failure (AlreadyExists "Database" name) ∧ w' = w
      ∧ names_database (databases (semilattice_root_view w)) name)
     ∨ (r = Success ()
        ∧ ¬ names_database (databases (semilattice_root_view w)) name
        ∧ let w1 :=
            root_view_join
              (mk_cluster (rdb_namespaces (semilattice_root_view w))
                 (std_map_insert fresh (Live (mk_database (Versioned.make name)))
                    (databases (semilattice_root_view w))))
              w in
          wait_for_metadata_to_propagate (semilattice_root_view w1) threadnum w1
          = Returned w')).
Proof.
  unfold db_create. intros Hrun.
  destruct (decide (name = rethinkdb)) as [->|Hname]; [done|].
  split; [done|]. rewrite bool_decide_eq_true_2 in Hrun by done.
  cbv beta zeta iota delta [guarantee mbind mret outcome_bind outcome_ret] in Hrun.
  destruct (find_uniq (database_by_name name) _) as [it status] eqn:Hf.
  destruct status;
    cbv beta zeta iota delta [check_metadata_status mbind mret outcome_bind outcome_ret]
      in Hrun.
  - left. apply find_uniq_success in Hf as (id & db & _ & Hm & Hp & _).
    simplify_eq. split_and!; [done..|]. apply names_database_by_name. by exists id, db.
  - right. apply find_uniq_none in Hf as [_ Hnone].
    match type of Hrun with
    | context [wait_for_metadata_to_propagate ?md ?t ?w1] =>
        destruct (wait_for_metadata_to_propagate md t w1) eqn:Hwait;
          simplify_eq
    end.
    split_and!; [done| |exact Hwait].
    intros (id & db & Hm & Hp)%names_database_by_name.
    rewrite (Hnone _ _ Hm) in Hp. done.
  - done.
Qed.

Lemma db_drop_inv name threadnum w r w' :
  db_drop name threadnum w = Returned (r, w') →
  name ≠ rethinkdb
  ∧ ((r = Failure (NotFound "Database" name) ∧ w' = w
      ∧ ¬ names_database (databases (semilattice_root_view w)) name)
     ∨ (r = Success ()
        ∧ ∃ id db,
            databases (semilattice_root_view w) !! id = Some (Live db)
            ∧ Versioned.get_ref (db_name db) = name
            ∧ (∀ id' db', databases (semilattice_root_view w) !! id' = Some (Live db') →
                          Versioned.get_ref (db_name db') = name → id' = id)
            ∧ let w1 :=
                root_view_join
                  (mk_cluster
                     (mark_tables_deleted id (rdb_namespaces (semilattice_root_view w)))
                     (<[id := Deleted]> (databases (semilattice_root_view w))))
                  w in
              wait_for_metadata_to_propagate (semilattice_root_view w1) threadnum w1
              = Returned w')).
Proof.
  unfold db_drop. intros Hrun.
  destruct (decide (name = rethinkdb)) as [->|Hname]; [done|].
  split; [done|]. rewrite bool_decide_eq_true_2 in Hrun by done.
  cbv beta zeta iota delta [guarantee mbind mret outcome_bind outcome_ret] in Hrun.
  destruct (find_uniq (database_by_name name) _) as [it status] eqn:Hf.
  destruct status;
    cbv beta zeta iota delta
      [check_metadata_status guarantee_has mbind mret outcome_bind outcome_ret] in Hrun.
  - right. apply find_uniq_success in Hf as (id & db & -> & Hm & Hp & Huniq).
    assert (Versioned.get_ref (db_name db) = name) as Hn.
    { unfold database_by_name in Hp. by apply bool_decide_eq_true in Hp. }
    match type of Hrun with
    | context [wait_for_metadata_to_propagate ?md ?t ?w1] =>
        destruct (wait_for_metadata_to_propagate md t w1) eqn:Hwait;
          simplify_eq
    end.
    split; [done|]. exists id, db. split_and!; [done..| |done].
    intros id' db' Hm' Hn'. apply (Huniq _ _ Hm').
    unfold database_by_name. by apply bool_decide_eq_true.
  - left. apply find_uniq_none in Hf as [_ Hnone]. simplify_eq.
    split_and!; [done..|].
    intros (id & db & Hm & Hp)%names_database_by_name.
    rewrite (Hnone _ _ Hm) in Hp. done.
  - done.
Qed.

(** ** [db_find] on a copy *)

Lemma db_find_found name threadnum w copy id db :
  name ≠ rethinkdb →
  get_databases_metadata threadnum w = Returned copy →
  copy !! id = Some (Live db) →
  Versioned.get_ref (db_name db) = name →
  (∀ id' db', copy !! id' = Some (Live db') →
              Versioned.get_ref (db_name db') = name → id' = id) →
  db_find name threadnum w = Returned (Success (ql.mk_db id name)).
Proof.
  intros Hname Hcopy Hm Hn Huniq. unfold db_find.
  rewrite bool_decide_eq_true_2 by done. simpl. rewrite Hcopy. simpl.
  assert (find_uniq (database_by_name name) copy = (Some (id, db), METADATA_SUCCESS))
    as ->; [|done].
  apply find_uniq_success. exists id, db. split_and!; [done..| |].
  - unfold database_by_name. by apply bool_decide_eq_true.
  - intros id' db' Hm' Hp. apply (Huniq _ _ Hm').
    unfold database_by_name in Hp. by apply bool_decide_eq_true in Hp.
Qed.

Lemma db_find_absent name threadnum w copy :
  name ≠ rethinkdb →
  get_databases_metadata threadnum w = Returned copy →
  ¬ names_database copy name →
  db_find name threadnum w = Returned (Failure (NotFound "Database" name)).
Proof.
  intros Hname Hcopy Hno. unfold db_find.
  rewrite bool_decide_eq_true_2 by done. simpl. rewrite Hcopy. simpl.
  assert (find_uniq (database_by_name name) copy = (None, METADATA_ERR_NONE))
    as ->; [|done].
  apply find_uniq_none. split; [done|]. intros id db Hm.
  destruct (database_by_name name db) eqn:Hp; [|done].
  destruct Hno. apply names_database_by_name. by exists id, db.
Qed.

(** X1. For a name other than the reserved one, on a thread whose copy of
    the databases satisfies the uniqueness invariant: [db_find] fails with
    NotFound exactly when no live database of the copy has the name, and it
    fails in no other way; when the live database [id] has the name it
    returns the handle made of [id] and the name; and a handle it returns
    is that of a live database of the copy with that name. *)
Theorem db_find_not_found_iff (name : name_string_t) (threadnum : nat)
    (w : world) (copy : databases_semilattice_metadata_t) :
  name ≠ rethinkdb →
  get_databases_metadata threadnum w = Returned copy →
  database_names_unique copy →
  (db_find name threadnum w = Returned (Failure (NotFound "Database" name))
   ↔ ¬ names_database copy name)
  ∧ (∀ e, db_find name threadnum w = Returned (Failure e) →
          e = NotFound "Database" name)
  ∧ (∀ id db, copy !! id = Some (Live db) →
              Versioned.get_ref (db_name db) = name →
              db_find name threadnum w = Returned (Success (ql.mk_db id name)))
  ∧ (∀ db, db_find name threadnum w = Returned (Success db) →
           ql.name db = name
           ∧ ∃ entry, copy !! ql.id db = Some (Live entry)
                      ∧ Versioned.get_ref (db_name entry) = name).
Proof.
  intros Hname Hcopy Huniq.
  destruct (db_find_cases name threadnum w copy Hname Hcopy Huniq)
    as [(id & db & Hm & Hn & Hrun) | [Hno Hrun]]; rewrite Hrun; split_and!.
  - split; [done|]. intros Hno. destruct Hno. by exists id, db.
  - done.
  - intros id' db' Hm' Hn'. do 3 f_equal.
    symmetry. apply (Huniq _ _ _ _ Hm' Hm). congruence.
  - intros ? [= <-]. simpl. split; [done|]. by exists db.
  - done.
  - by intros e [= <-].
  - intros id db Hm Hn. destruct Hno. by exists id, db.
  - done.
Qed.

(** X2. [db_list] and [db_find] agree: on a thread whose copy of the
    databases satisfies the uniqueness invariant, a name other than the
    reserved one is among the names [db_list] returns exactly when [db_find]
    returns a handle for it. *)
Theorem db_list_iff_db_find (name : name_string_t) (threadnum : nat)
    (w : world) (copy : databases_semilattice_metadata_t) :
  name ≠ rethinkdb →
  get_databases_metadata threadnum w = Returned copy →
  database_names_unique copy →
  ∃ names, db_list threadnum w = Returned names
    ∧ (name ∈ names
       ↔ ∃ id, db_find name threadnum w = Returned (Success (ql.mk_db id name)))
    ∧ (name ∉ names
       ↔ db_find name threadnum w = Returned (Failure (NotFound "Database" name))).
Proof.
  intros Hname Hcopy Huniq.
  destruct (elem_of_db_list threadnum w copy Hcopy) as (names & Hlist & Hin).
  exists names. split; [done|]. rewrite Hin.
  destruct (db_find_cases name threadnum w copy Hname Hcopy Huniq)
    as [(id & db & Hm & Hn & Hrun) | [Hno Hrun]]; rewrite Hrun; split.
  - split; [by exists id|]. intros _. by exists id, db.
  - split; [|done]. intros Hno. destruct Hno. by exists id, db.
  - split; [done|]. by intros [id [=]].
  - done.
Qed.

(** X3. Read your writes, for [db_create]: called with an id not in use on
    a thread whose copies follow the store, whenever [db_create] returns
    [true] the store has the new live entry under that
    id, the thread reads the store from its copies, and so on that thread
    [db_find] of the name returns the handle with the new id and [db_list]
    has the name. *)
Theorem db_create_then_db_find (name : name_string_t) (fresh : uuid_u)
    (threadnum : nat) (w w' : world) :
  databases (semilattice_root_view w) !! fresh = None →
  follows_store threadnum w →
  db_create name fresh threadnum w = Returned (Success (), w') →
  databases (semilattice_root_view w')
  = <[fresh := Live (mk_database (Versioned.make name))]>
      (databases (semilattice_root_view w))
  ∧ reads_store threadnum w'
  ∧ db_find name threadnum w' = Returned (Success (ql.mk_db fresh name))
  ∧ (∃ names, db_list threadnum w' = Returned names ∧ name ∈ names).
Proof.
  intros Hfresh Hfollow Hrun.
  apply db_create_inv in Hrun as [Hname [(? & _) | (_ & Hfree & Hwait)]]; [done|].
  cbv zeta in Hwait. rewrite std_map_insert_fresh in Hwait by done.
  apply join_then_wait in Hwait as (Hst & _ & _ & Hothers & Hreads);
    [|apply entries_le_refl|by apply entries_le_insert_fresh].
  specialize (Hreads Hfollow). destruct Hreads as [Hrn Hrd].
  assert (databases (semilattice_root_view w')
          = <[fresh := Live (mk_database (Versioned.make name))]>
              (databases (semilattice_root_view w))) as Hdbs by by rewrite Hst.
  split; [done|]. split; [exact (conj Hrn Hrd)|]. split.
  - apply (db_find_found name threadnum w' _ fresh
             (mk_database (Versioned.make name)) Hname Hrd); [|done|].
    + rewrite Hdbs. apply lookup_insert_eq.
    + rewrite Hdbs. intros id' db' Hm' Hn'.
      apply lookup_insert_Some in Hm' as [[<- _] | [_ Hm']]; [done|].
      destruct Hfree. by exists id', db'.
  - destruct (elem_of_db_list threadnum w' _ Hrd) as (names & Hlist & Hin).
    exists names. split; [done|]. apply Hin. rewrite Hdbs.
    exists fresh, (mk_database (Versioned.make name)).
    by rewrite lookup_insert_eq.
Qed.

(** ** Table resolution, once more *)

(** The answers of [get_table_ids_for_query], by the requested names. *)
Lemma get_table_ids_for_query_all db threadnum w nss :
  ql.name db ≠ rethinkdb →
  get_namespaces_metadata threadnum w = Returned nss →
  ∃ m, get_table_ids_for_query db [] threadnum w = Returned (Success m)
    ∧ ∀ id n, m !! id = Some n ↔ resolves nss db n id.
Proof.
  intros Hdb Hcopy. unfold get_table_ids_for_query.
  rewrite bool_decide_eq_true_2 by done. rewrite Hcopy. simpl.
  eexists. split; [done|]. intros id n.
  rewrite (foldl_std_map_insert_lookup (λ ns, Versioned.get_ref (ns_name ns)))
    by apply NoDup_fst_find_all.
  rewrite lookup_empty. split.
  - intros [?|(_ & ns & Hin & Hn)]; [done|].
    apply elem_of_find_all in Hin as [Hm Hp].
    apply namespace_predicate_any in Hp. by exists ns.
  - intros (ns & Hm & Hn & Hd). right. split; [done|]. exists ns.
    split; [|done]. apply elem_of_find_all. split; [done|].
    by apply namespace_predicate_any.
Qed.

Lemma get_table_ids_for_query_named db table_names threadnum w nss :
  ql.name db ≠ rethinkdb →
  get_namespaces_metadata threadnum w = Returned nss →
  table_names_unique nss →
  table_names ≠ [] →
  Forall (λ n, ∃ id, resolves nss db n id) table_names →
  ∃ m, get_table_ids_for_query db table_names threadnum w = Returned (Success m)
    ∧ ∀ id n, m !! id = Some n ↔ n ∈ table_names ∧ resolves nss db n id.
Proof.
  intros Hdb Hcopy Huniq Hne Hall. unfold get_table_ids_for_query.
  rewrite bool_decide_eq_true_2 by done. rewrite Hcopy. simpl.
  destruct (resolve_names_all db nss table_names Huniq Hall ∅) as (m & Hrun & Hm).
  exists m. split; [by destruct table_names|].
  intros id n. rewrite Hm, lookup_empty. split.
  - by intros [?|(_ & ? & ?)].
  - intros [? ?]. by right.
Qed.

Lemma get_table_ids_for_query_missing db pre missing post threadnum w nss :
  ql.name db ≠ rethinkdb →
  get_namespaces_metadata threadnum w = Returned nss →
  table_names_unique nss →
  Forall (λ n, ∃ id, resolves nss db n id) pre →
  (∀ id, ¬ resolves nss db missing id) →
  get_table_ids_for_query db (pre ++ missing :: post) threadnum w
  = Returned (Failure (NotFound "Table" (qualified_name db missing))).
Proof.
  intros Hdb Hcopy Huniq Hpre Hmiss. unfold get_table_ids_for_query.
  rewrite bool_decide_eq_true_2 by done. rewrite Hcopy. simpl.
  rewrite <- (resolve_names_missing db nss pre missing post Huniq Hpre Hmiss ∅).
  by destruct pre.
Qed.

(** ** [table_list] and [table_find] on a copy *)

Lemma elem_of_table_list db threadnum w copy :
  ql.name db ≠ rethinkdb →
  get_namespaces_metadata threadnum w = Returned copy →
  ∃ names, table_list db threadnum w = Returned names
           ∧ ∀ n, n ∈ names ↔ ∃ id, resolves copy db n id.
Proof.
  intros Hdb Hcopy. unfold table_list.
  rewrite bool_decide_eq_true_2 by done. simpl. rewrite Hcopy. simpl.
  eexists. split; [done|]. intros n.
  rewrite (elem_of_foldl_union_singleton
             (λ it : N * namespace_semilattice_metadata_t,
                Versioned.get_ref (ns_name it.2))).
  split.
  - intros [Hin|([id ns] & Hin & Hn)]; [by apply not_elem_of_empty in Hin|].
    apply elem_of_find_all in Hin as [Hm Hp].
    apply namespace_predicate_any in Hp. exists id. by exists ns.
  - intros (id & ns & Hm & Hn & Hd). right. exists (id, ns). split; [|done].
    apply elem_of_find_all. split; [done|]. by apply namespace_predicate_any.
Qed.

(** X4. For a database other than the reserved one, [table_list] returns
    exactly the names of the live tables of that database in the copy of the
    calling thread, and these are the names in the map that
    [get_table_ids_for_query] returns there for the empty set of names. *)
Theorem table_list_live_tables (db : ql.db_t) (threadnum : nat) (w : world)
    (copy : namespaces_semilattice_metadata_t) :
  ql.name db ≠ rethinkdb →
  get_namespaces_metadata threadnum w = Returned copy →
  ∃ names table_map,
    table_list db threadnum w = Returned names
    ∧ get_table_ids_for_query db [] threadnum w = Returned (Success table_map)
    ∧ (∀ n, n ∈ names
            ↔ ∃ id ns, copy !! id = Some (Live ns)
                       ∧ Versioned.get_ref (ns_name ns) = n
                       ∧ Versioned.get_ref (ns_database ns) = ql.id db)
    ∧ (∀ n, n ∈ names ↔ ∃ id, table_map !! id = Some n).
Proof.
  intros Hdb Hcopy.
  destruct (elem_of_table_list db threadnum w copy Hdb Hcopy) as (names & Hlist & Hin).
  destruct (get_table_ids_for_query_all db threadnum w copy Hdb Hcopy)
    as (m & Hids & Hm).
  exists names, m. split_and!; [done..| |].
  - intros n. rewrite Hin. done.
  - intros n. rewrite Hin. split; intros [id H]; exists id; by apply Hm.
Qed.

Section find.
Context {namespace_interface_access_t : Type}.
Variable get_namespace_interface :
  namespace_id_t → outcome namespace_interface_access_t.

Local Abbreviation find := (table_find _ get_namespace_interface).

Lemma table_find_found name db threadnum w copy id ns :
  ql.name db ≠ rethinkdb →
  get_namespaces_metadata threadnum w = Returned copy →
  copy !! id = Some (Live ns) →
  Versioned.get_ref (ns_name ns) = name →
  Versioned.get_ref (ns_database ns) = ql.id db →
  (∀ id', resolves copy db name id' → id' = id) →
  find name db threadnum w
  = access ← get_namespace_interface id;
    mret (Success (mk_real_table _ id access (Versioned.get_ref (ns_primary_key ns)))).
Proof.
  intros Hdb Hcopy Hm Hn Hd Huniq. unfold table_find.
  rewrite bool_decide_eq_true_2 by done. simpl. rewrite Hcopy. simpl.
  by rewrite (find_uniq_table_found copy db name id ns).
Qed.

Lemma table_find_absent name db threadnum w copy :
  ql.name db ≠ rethinkdb →
  get_namespaces_metadata threadnum w = Returned copy →
  (∀ id, ¬ resolves copy db name id) →
  find name db threadnum w
  = Returned (Failure (NotFound "Table" (qualified_name db name))).
Proof.
  intros Hdb Hcopy Hno. unfold table_find.
  rewrite bool_decide_eq_true_2 by done. simpl. rewrite Hcopy. simpl.
  by rewrite (find_uniq_table_none copy db name).
Qed.

(** X5. For a database other than the reserved one, on a thread whose copy
    of the tables satisfies the uniqueness invariant: [table_find] fails with
    an error exactly when no live table of the database has the name in the
    copy, and the error is NotFound; when the live table [id] has the name,
    [table_find] asks for the interface of that table and, unless this is
    interrupted or fails, returns the table made of [id], the access and the
    primary key recorded for the table. *)
Theorem table_find_not_found_iff (name : name_string_t) (db : ql.db_t)
    (threadnum : nat) (w : world) (copy : namespaces_semilattice_metadata_t) :
  ql.name db ≠ rethinkdb →
  get_namespaces_metadata threadnum w = Returned copy →
  table_names_unique copy →
  ((∃ e, find name db threadnum w = Returned (Failure e))
   ↔ ∀ id, ¬ resolves copy db name id)
  ∧ (∀ e, find name db threadnum w = Returned (Failure e) →
          e = NotFound "Table" (qualified_name db name))
  ∧ (∀ id ns, copy !! id = Some (Live ns) →
       Versioned.get_ref (ns_name ns) = name →
       Versioned.get_ref (ns_database ns) = ql.id db →
       find name db threadnum w
       = match get_namespace_interface id with
         | Returned access =>
             Returned (Success (mk_real_table _ id access
                                  (Versioned.get_ref (ns_primary_key ns))))
         | Interrupted => Interrupted
         | GuaranteeFailed => GuaranteeFailed
         | SanityCheckFailed => SanityCheckFailed
         end).
Proof.
  intros Hdb Hcopy Huniq.
  assert (∀ id ns, copy !! id = Some (Live ns) →
       Versioned.get_ref (ns_name ns) = name →
       Versioned.get_ref (ns_database ns) = ql.id db →
       find name db threadnum w
       = match get_namespace_interface id with
         | Returned access =>
             Returned (Success (mk_real_table _ id access
                                  (Versioned.get_ref (ns_primary_key ns))))
         | Interrupted => Interrupted
         | GuaranteeFailed => GuaranteeFailed
         | SanityCheckFailed => SanityCheckFailed
         end) as Hfound.
  { intros id ns Hm Hn Hd.
    assert (∀ id', resolves copy db name id' → id' = id) as Hone.
    { intros id' Hres. apply (resolves_unique copy db name); [done..|].
      by exists ns. }
    by rewrite (table_find_found name db threadnum w copy id ns). }
  assert ((∀ id, ¬ resolves copy db name id) ∨ ∃ id, resolves copy db name id)
    as [Hno | (id & ns & Hm & Hn & Hd)].
  { destruct (find_uniq_table_cases copy db name Huniq)
      as [(id & ns & _ & Hm & Hn & Hd) | [Hno _]]; [right|by left].
    exists id. by exists ns. }
  - rewrite (table_find_absent name db threadnum w copy) by done.
    split_and!; [|by intros e [= <-]|].
    + split; [done|]. by eexists.
    + intros id ns Hm Hn Hd. destruct (Hno id). by exists ns.
  - rewrite (Hfound id ns) by done. split_and!.
    + split.
      * intros [e He]. by destruct (get_namespace_interface id).
      * intros Hno. destruct (Hno id). by exists ns.
    + intros e He. by destruct (get_namespace_interface id).
    + intros id0 ns0 Hm0 Hn0 Hd0.
      assert (id0 = id) as -> by (apply (Huniq _ _ _ _ Hm0 Hm); congruence).
      by simplify_eq.
Qed.
End find.

(** ** [table_drop] *)

Lemma table_drop_inv name db threadnum w r w' :
  table_drop name db threadnum w = Returned (r, w') →
  ql.name db ≠ rethinkdb
  ∧ ((r = Failure (NotFound "Table" (qualified_name db name)) ∧ w' = w
      ∧ ∀ id, ¬ resolves (rdb_namespaces (semilattice_root_view w)) db name id)
     ∨ (r = Success ()
        ∧ ∃ id,
            resolves (rdb_namespaces (semilattice_root_view w)) db name id
            ∧ (∀ id', resolves (rdb_namespaces (semilattice_root_view w)) db name id' →
                      id' = id)
            ∧ let w1 :=
                root_view_join
                  (mk_cluster
                     (<[id := Deleted]> (rdb_namespaces (semilattice_root_view w)))
                     (databases (semilattice_root_view w)))
                  w in
              wait_for_metadata_to_propagate (semilattice_root_view w1) threadnum w1
              = Returned w')).
Proof.
  unfold table_drop. intros Hrun.
  destruct (decide (ql.name db = rethinkdb)) as [Hdb|Hdb].
  { by rewrite bool_decide_eq_false_2 in Hrun by by intros []. }
  split; [done|]. rewrite bool_decide_eq_true_2 in Hrun by done.
  cbv beta zeta iota delta [guarantee mbind mret outcome_bind outcome_ret] in Hrun.
  destruct (find_uniq (namespace_predicate_t (Some name) (ql.id db)) _)
    as [it status] eqn:Hf.
  destruct status;
    cbv beta zeta iota delta
      [check_metadata_status guarantee_has mbind mret outcome_bind outcome_ret] in Hrun.
  - right. apply find_uniq_success in Hf as (id & ns & -> & Hm & Hp & Huniq).
    apply namespace_predicate_named in Hp as [Hn Hd].
    match type of Hrun with
    | context [wait_for_metadata_to_propagate ?md ?t ?w1] =>
        destruct (wait_for_metadata_to_propagate md t w1) eqn:Hwait;
          simplify_eq
    end.
    split; [done|]. exists id. split_and!; [by exists ns| |done].
    intros id' (ns' & Hm' & Hn' & Hd'). apply (Huniq _ _ Hm').
    by apply namespace_predicate_named.
  - left. apply find_uniq_none in Hf as [_ Hnone]. simplify_eq.
    split_and!; [done..|].
    intros id (ns & Hm & Hn & Hd). specialize (Hnone _ _ Hm).
    rewrite (proj2 (namespace_predicate_named _ _ _)) in Hnone; done.
  - done.
Qed.

Lemma table_drop_absent name db threadnum w :
  ql.name db ≠ rethinkdb →
  (∀ id, ¬ resolves (rdb_namespaces (semilattice_root_view w)) db name id) →
  table_drop name db threadnum w
  = Returned (Failure (NotFound "Table" (qualified_name db name)), w).
Proof.
  intros Hdb Hno. unfold table_drop.
  rewrite bool_decide_eq_true_2 by done. simpl.
  by rewrite find_uniq_table_none.
Qed.

Lemma table_drop_present name db threadnum w id :
  ql.name db ≠ rethinkdb →
  table_names_unique (rdb_namespaces (semilattice_root_view w)) →
  resolves (rdb_namespaces (semilattice_root_view w)) db name id →
  has_watchables threadnum w →
  ∃ w', table_drop name db threadnum w = Returned (Success (), w')
    ∧ semilattice_root_view w'
      = mk_cluster (<[id := Deleted]> (rdb_namespaces (semilattice_root_view w)))
                   (databases (semilattice_root_view w))
    ∧ directory w' = directory w
    ∧ has_watchables threadnum w'.
Proof.
  intros Hdb Huniq (ns & Hm & Hn & Hd) [[nsw Hnw] [dbw Hdw]]. unfold table_drop.
  rewrite bool_decide_eq_true_2 by done.
  cbv beta zeta iota delta [guarantee mbind outcome_bind].
  assert (∀ id', resolves (rdb_namespaces (semilattice_root_view w)) db name id' →
                 id' = id) as Hone.
  { intros id' Hres.
    apply (resolves_unique (rdb_namespaces (semilattice_root_view w)) db name);
      [done..|]. by exists ns. }
  rewrite (find_uniq_table_found _ db name id ns Hm Hn Hd Hone).
  cbv beta zeta iota delta [check_metadata_status guarantee_has mbind outcome_bind].
  match goal with |- context [root_view_join ?md w] =>
    destruct (wait_after_join md threadnum w nsw dbw Hnw Hdw)
      as (w' & nsw' & dbw' & -> & Hst & _ & Hdir & _ & _ & Hn1 & Hd1 & _)
  end.
  exists w'. split_and!; [done| |done|split; by eexists].
  rewrite Hst. apply cluster_join_later; simpl.
  - apply entries_le_mark_deleted.
  - apply entries_le_refl.
Qed.

Lemma table_names_unique_delete nss k :
  table_names_unique nss → table_names_unique (<[k := Deleted]> nss).
Proof.
  intros Huniq i1 i2 n1 n2 H1 H2.
  apply lookup_insert_Some in H1 as [[_ ?] | [_ H1]]; [done|].
  apply lookup_insert_Some in H2 as [[_ ?] | [_ H2]]; [done|].
  by apply Huniq.
Qed.

(** X6. For a database other than the reserved one, on a store that
    satisfies the uniqueness invariant of the tables, called on a thread that
    has its watchables: [table_drop] fails with NotFound exactly when no live
    table of the database has the name, and it fails in no other way and
    then changes nothing; when the live table [id] has the name it returns
    [true], the entry of [id] stays in the map as a tombstone, every other
    table entry and all the databases are as before, the invariant still
    holds, and a further [table_drop] of the same name fails with
    NotFound. *)
Theorem table_drop_not_found_iff (name : name_string_t) (db : ql.db_t)
    (threadnum : nat) (w : world) :
  ql.name db ≠ rethinkdb →
  table_names_unique (rdb_namespaces (semilattice_root_view w)) →
  has_watchables threadnum w →
  let nss := rdb_namespaces (semilattice_root_view w) in
  (table_drop name db threadnum w
   = Returned (Failure (NotFound "Table" (qualified_name db name)), w)
   ↔ ∀ id, ¬ resolves nss db name id)
  ∧ (∀ e w', table_drop name db threadnum w = Returned (Failure e, w') →
             e = NotFound "Table" (qualified_name db name) ∧ w' = w)
  ∧ (∀ id, resolves nss db name id →
     ∃ w', table_drop name db threadnum w = Returned (Success (), w')
       ∧ rdb_namespaces (semilattice_root_view w') !! id = Some Deleted
       ∧ (∀ id', id' ≠ id →
            rdb_namespaces (semilattice_root_view w') !! id' = nss !! id')
       ∧ databases (semilattice_root_view w') = databases (semilattice_root_view w)
       ∧ table_names_unique (rdb_namespaces (semilattice_root_view w'))
       ∧ table_drop name db threadnum w'
         = Returned (Failure (NotFound "Table" (qualified_name db name)), w')).
Proof.
  intros Hdb Huniq Hhas nss. split_and!.
  - split.
    + intros Hrun id Hres.
      destruct (table_drop_present name db threadnum w id) as (w' & Hrun' & _);
        [done..|]. congruence.
    + by apply table_drop_absent.
  - intros e w' Hrun.
    apply table_drop_inv in Hrun as [_ [(? & ? & _) | (? & _)]]; by simplify_eq.
  - intros id Hres.
    destruct (table_drop_present name db threadnum w id) as (w' & Hrun & Hst & _ & _);
      [done..|].
    exists w'. rewrite Hst. simpl. split_and!; [done| | |done| |].
    + apply lookup_insert_eq.
    + intros id' Hne. by apply lookup_insert_ne.
    + by apply table_names_unique_delete.
    + apply table_drop_absent; [done|]. rewrite Hst. simpl.
      intros id' (ns' & Hm' & Hn' & Hd').
      apply lookup_insert_Some in Hm' as [[_ ?] | [Hne Hm']]; [done|].
      apply Hne. symmetry.
      apply (resolves_unique nss db name); [done|by exists ns'|done].
Qed.

(** X7. Read your writes, for [table_drop]: called on a thread whose copies
    follow the store, whenever [table_drop] returns [true] the thread reads
    the store from its copies, and so on that thread the name is no longer
    in what [table_list] returns for the database and
    [get_table_ids_for_query] for that name fails with NotFound. *)
Theorem table_drop_then_table_list (name : name_string_t) (db : ql.db_t)
    (threadnum : nat) (w w' : world) :
  follows_store threadnum w →
  table_drop name db threadnum w = Returned (Success (), w') →
  reads_store threadnum w'
  ∧ (∃ names, table_list db threadnum w' = Returned names ∧ name ∉ names)
  ∧ get_table_ids_for_query db [name] threadnum w'
    = Returned (Failure (NotFound "Table" (qualified_name db name))).
Proof.
  intros Hfollow Hrun.
  apply table_drop_inv in Hrun as [Hdb [(? & _) | (_ & id & Hres & Huniq & Hwait)]];
    [done|].
  cbv zeta in Hwait.
  apply join_then_wait in Hwait as (Hst & _ & _ & Hothers & Hreads);
    [|apply entries_le_mark_deleted|apply entries_le_refl].
  specialize (Hreads Hfollow). destruct (Hreads) as [Hrn Hrd].
  assert (∀ id', ¬ resolves (rdb_namespaces (semilattice_root_view w')) db name id')
    as Hgone.
  { rewrite Hst. simpl. intros id' (ns' & Hm' & Hn' & Hd').
    apply lookup_insert_Some in Hm' as [[_ ?] | [Hne Hm']]; [done|].
    apply Hne. symmetry. apply Huniq. by exists ns'. }
  split; [done|]. split.
  - destruct (elem_of_table_list db threadnum w' _ Hdb Hrn) as (names & Hlist & Hin).
    exists names. split; [done|]. rewrite Hin. intros [id' Hres']. by apply (Hgone id').
  - unfold get_table_ids_for_query.
    rewrite bool_decide_eq_true_2 by done. rewrite Hrn. simpl.
    by rewrite find_uniq_table_none.
Qed.

(** X8. Read your writes, for [db_drop]: called on a thread whose copies
    follow the store, whenever [db_drop] returns [true] the thread reads
    the store from its copies, and so on that thread [db_find]
    of the name fails with NotFound, [db_list] no longer has the name, and,
    for the handle of the dropped database, [table_list] returns no name
    and [get_table_ids_for_query] fails with NotFound for every name. *)
Theorem db_drop_then_reads (name : name_string_t) (threadnum : nat)
    (w w' : world) :
  follows_store threadnum w →
  db_drop name threadnum w = Returned (Success (), w') →
  reads_store threadnum w'
  ∧ db_find name threadnum w' = Returned (Failure (NotFound "Database" name))
  ∧ (∃ names, db_list threadnum w' = Returned names ∧ name ∉ names)
  ∧ (∃ id db, databases (semilattice_root_view w) !! id = Some (Live db)
       ∧ Versioned.get_ref (db_name db) = name
       ∧ table_list (ql.mk_db id name) threadnum w' = Returned ∅
       ∧ ∀ table, get_table_ids_for_query (ql.mk_db id name) [table] threadnum w'
                  = Returned (Failure (NotFound "Table"
                                         (qualified_name (ql.mk_db id name) table)))).
Proof.
  intros Hfollow Hrun.
  apply db_drop_inv in Hrun
    as [Hname [(? & _) | (_ & id & db & Hm & Hn & Huniq & Hwait)]]; [done|].
  cbv zeta in Hwait.
  apply join_then_wait in Hwait as (Hst & _ & _ & Hothers & Hreads);
    [|apply entries_le_mark_tables_deleted|apply entries_le_mark_deleted].
  specialize (Hreads Hfollow). destruct (Hreads) as [Hrn Hrd].
  assert (¬ names_database (databases (semilattice_root_view w')) name) as Hgone.
  { rewrite Hst. simpl. intros (id' & db' & Hm' & Hn').
    apply lookup_insert_Some in Hm' as [[_ ?] | [Hne Hm']]; [done|].
    apply Hne. symmetry. by apply (Huniq _ _ Hm'). }
  assert (∀ table id',
            ¬ resolves (rdb_namespaces (semilattice_root_view w'))
                (ql.mk_db id name) table id') as Hnone.
  { rewrite Hst. simpl. intros table id' (ns' & Hm' & _ & Hd'). simpl in Hd'.
    rewrite mark_tables_deleted_lookup in Hm'.
    destruct (rdb_namespaces (semilattice_root_view w) !! id') as [[ns|]|]; try done.
    rewrite bool_decide_decide in Hm'. destruct (decide _) as [|Hne]; [done|].
    by simplify_eq. }
  split; [done|]. split; [by eapply db_find_absent|]. split.
  - destruct (elem_of_db_list threadnum w' _ Hrd) as (names & Hlist & Hin).
    exists names. split; [done|]. by rewrite Hin.
  - exists id, db. split_and!; [done..| |].
    + destruct (elem_of_table_list (ql.mk_db id name) threadnum w' _ Hname Hrn)
        as (names & Hlist & Hin).
      rewrite Hlist. do 2 f_equal. apply set_eq. intros n. rewrite Hin.
      split; [|by intros ?%not_elem_of_empty]. intros [id' Hres].
      by destruct (Hnone n id').
    + intros table. unfold get_table_ids_for_query. simpl.
      rewrite bool_decide_eq_true_2 by done. rewrite Hrn. simpl.
      rewrite (find_uniq_table_none _ (ql.mk_db id name) table); [done|].
      apply Hnone.
Qed.

(** ** [table_create], from the search to the reads that follow *)

(** [table_wait] without [resp_out] moves nothing but the directory. *)
Lemma table_wait_set_directory db tables readiness threadnum w res w' :
  table_wait db tables readiness false threadnum w = Returned (res, w') →
  w' = set_directory w (directory w').
Proof.
  intros Hrun. pose proof (table_wait_cases db tables readiness threadnum w) as Hc.
  rewrite Hrun in Hc. destruct res as [res|e].
  - by destruct Hc as (_ & ? & _).
  - destruct Hc as [-> _]. by rewrite set_directory_id.
Qed.

Lemma table_names_unique_insert nss k ns db :
  table_names_unique nss →
  Versioned.get_ref (ns_database ns) = ql.id db →
  (∀ id, ¬ resolves nss db (Versioned.get_ref (ns_name ns)) id) →
  table_names_unique (<[k := Live ns]> nss).
Proof.
  intros Huniq Hd Hfree i1 i2 n1 n2 H1 H2 Hn Hdb.
  apply lookup_insert_Some in H1 as [[<- H1] | [Hne1 H1]];
    apply lookup_insert_Some in H2 as [[<- H2] | [Hne2 H2]]; simplify_eq.
  - done.
  - exfalso. apply (Hfree i2). exists n2. split_and!; [done|done|congruence].
  - exfalso. apply (Hfree i1). exists n1. split_and!; [done|done|congruence].
  - by apply (Huniq _ _ _ _ H1 H2).
Qed.

Section create_and_find.
Variable calculate_server_usage : table_config_t → gmap N Z → gmap N Z.
Variable table_generate_config :
  uuid_u → option table_status_t → gmap N Z → table_generate_config_params_t →
  table_shard_scheme_t → outcome (reql_result table_config_t).
Context {namespace_interface_access_t : Type}.
Variable get_namespace_interface :
  namespace_id_t → outcome namespace_interface_access_t.

Local Abbreviation create_table :=
  (table_create calculate_server_usage table_generate_config).
Local Abbreviation find_table := (table_find _ get_namespace_interface).

(** The answer of the generator to [table_create]. *)
Local Abbreviation generated w :=
  (table_generate_config nil_uuid None
     (server_usage_of_all calculate_server_usage
        (rdb_namespaces (semilattice_root_view w)))
     (mk_params 1 {[ "default" := 1%Z ]} "default") one_shard).

(** What [table_create] did when it returns. *)
Lemma table_create_inv name db primary_dc hard_durability primary_key fresh
    threadnum w r w' :
  create_table name db primary_dc hard_durability primary_key fresh threadnum w
  = Returned (r, w') →
  ql.name db ≠ rethinkdb
  ∧ ((r = Failure (AlreadyExists "Table" (qualified_name db name)) ∧ w' = w
      ∧ ∃ id, resolves (rdb_namespaces (semilattice_root_view w)) db name id)
     ∨ ((∀ id, ¬ resolves (rdb_namespaces (semilattice_root_view w)) db name id)
        ∧ ((∃ e, generated w = Returned (Failure e) ∧ r = Failure e ∧ w' = w)
           ∨ (∃ repli_info_config w1 wait_res w2,
                generated w = Returned (Success repli_info_config)
                ∧ r = Success ()
                ∧ let w0 :=
                    root_view_join
                      (mk_cluster
                         (std_map_insert fresh
                            (Live (new_table_metadata name db primary_key
                                     repli_info_config))
                            (rdb_namespaces (semilattice_root_view w)))
                         (databases (semilattice_root_view w)))
                      w in
                  wait_for_metadata_to_propagate (semilattice_root_view w0)
                    (home_thread w) w0 = Returned w1
                  ∧ table_wait (ql.mk_db (ql.id db) (ql.name db)) [name] writes
                      false (home_thread w) w1 = Returned (wait_res, w2)
                  ∧ wait_for_metadata_to_propagate (semilattice_root_view w0)
                      threadnum w2 = Returned w')))).
Proof.
  unfold table_create. intros Hrun.
  destruct (decide (ql.name db = rethinkdb)) as [Hdb|Hdb].
  { by rewrite bool_decide_eq_false_2 in Hrun by by intros []. }
  split; [done|]. rewrite bool_decide_eq_true_2 in Hrun by done.
  cbv beta zeta iota delta [guarantee mbind mret outcome_bind outcome_ret] in Hrun.
  destruct (find_uniq _ _) as [it status] eqn:Hf.
  destruct status;
    cbv beta zeta iota delta [check_metadata_status] in Hrun.
  - left. apply find_uniq_success in Hf as (id & ns & _ & Hm & Hp & _).
    apply namespace_predicate_named in Hp as [Hn Hd]. simplify_eq.
    split_and!; [done..|]. exists id. by exists ns.
  - right. apply find_uniq_none in Hf as [_ Hnone]. split.
    { intros id (ns & Hm & Hn & Hd). specialize (Hnone _ _ Hm).
      rewrite (proj2 (namespace_predicate_named _ _ _)) in Hnone; done. }
    fold (server_usage_of_all calculate_server_usage
            (rdb_namespaces (semilattice_root_view w))) in Hrun.
    destruct (generated w) as [[repli_info_config|e]| | |] eqn:Hgen; try done.
    2:{ left. exists e. by simplify_eq. }
    right.
    match type of Hrun with
    | context [wait_for_metadata_to_propagate ?md (home_thread ?w0) ?w0'] =>
        destruct (wait_for_metadata_to_propagate md (home_thread w0) w0')
          as [w1| | |] eqn:Hwait1; try done
    end.
    match type of Hwait1 with
    | wait_for_metadata_to_propagate ?md ?t ?w0 = _ =>
        pose proof (wait_for_metadata_to_propagate_cases md t w0) as Hc
    end.
    rewrite Hwait1 in Hc. destruct Hc as (_ & Hhome & _).
    simpl in Hhome. rewrite Hhome in Hrun.
    destruct (table_wait _ _ _ _ _ w1) as [[wait_res w2]| | |] eqn:Hwait2; try done.
    match type of Hrun with
    | context [wait_for_metadata_to_propagate ?md threadnum w2] =>
        destruct (wait_for_metadata_to_propagate md threadnum w2)
          as [w3| | |] eqn:Hwait3; try done
    end.
    simplify_eq. exists repli_info_config, w1, wait_res, w2.
    split_and!; [done|done|exact Hwait1|exact Hwait2|exact Hwait3].
  - done.
Qed.

(** The store, and the copies of the threads, after a [table_create] that
    returned [true]. *)
Lemma table_create_success name db primary_dc hard_durability primary_key fresh
    threadnum w w' :
  create_table name db primary_dc hard_durability primary_key fresh threadnum w
  = Returned (Success (), w') →
  ∃ repli_info_config,
    ql.name db ≠ rethinkdb
    ∧ generated w = Returned (Success repli_info_config)
    ∧ (∀ id, ¬ resolves (rdb_namespaces (semilattice_root_view w)) db name id)
    ∧ semilattice_root_view w'
      = mk_cluster
          (std_map_insert fresh
             (Live (new_table_metadata name db primary_key repli_info_config))
             (rdb_namespaces (semilattice_root_view w)))
          (databases (semilattice_root_view w))
    ∧ (∀ other, follows_store other w → follows_store other w')
    ∧ (follows_store threadnum w → reads_store threadnum w').
Proof.
  intros Hrun.
  apply table_create_inv in Hrun
    as [Hdb [(? & _) | (Hfree & [(e & _ & ? & _)
                               | (cfg & w1 & wr & w2 & Hgen & _ & Hw1 & Hw2 & Hw3)])]];
    [done|done|].
  exists cfg.
  set (md := mk_cluster
          (std_map_insert fresh
             (Live (new_table_metadata name db primary_key cfg))
             (rdb_namespaces (semilattice_root_view w)))
          (databases (semilattice_root_view w))) in *.
  assert (semilattice_join (semilattice_root_view w) md = md) as Hj.
  { apply cluster_join_later; simpl.
    - apply entries_le_std_map_insert.
    - apply entries_le_refl. }
  assert (semilattice_root_view (root_view_join md w) = md) as Hmd by done.
  rewrite Hmd in Hw1, Hw3.
  assert (∀ other, follows_store other w → follows_store other (root_view_join md w))
    as Hf0 by (intros other Ho; by apply follows_store_root_view_join).
  assert (semilattice_root_view w1 = md) as Hst1.
  { pose proof (wait_for_metadata_to_propagate_cases md (home_thread w)
                  (root_view_join md w)) as Hc.
    rewrite Hw1 in Hc. destruct Hc as (-> & _). done. }
  apply table_wait_set_directory in Hw2.
  assert (semilattice_root_view w2 = md) as Hst2 by by rewrite Hw2.
  assert (∀ other, follows_store other w → follows_store other w2) as Hf2.
  { intros other Ho. rewrite Hw2. apply follows_store_set_directory.
    eapply follows_store_wait; [by apply Hf0|exact Hw1]. }
  split_and!; [done..| | |].
  - pose proof (wait_for_metadata_to_propagate_cases md threadnum w2) as Hc.
    rewrite Hw3 in Hc. destruct Hc as (-> & _). done.
  - intros other Ho. eapply follows_store_wait; [by apply Hf2|exact Hw3].
  - intros Ho. eapply reads_store_wait; [by apply Hf2|]. by rewrite Hst2.
Qed.

Lemma table_create_exists name db primary_dc hard_durability primary_key fresh
    threadnum w id :
  ql.name db ≠ rethinkdb →
  table_names_unique (rdb_namespaces (semilattice_root_view w)) →
  resolves (rdb_namespaces (semilattice_root_view w)) db name id →
  create_table name db primary_dc hard_durability primary_key fresh threadnum w
  = Returned (Failure (AlreadyExists "Table" (qualified_name db name)), w).
Proof.
  intros Hdb Huniq Hres. unfold table_create.
  rewrite bool_decide_eq_true_2 by done.
  cbv beta zeta iota delta [guarantee mbind mret outcome_bind outcome_ret].
  destruct (find_uniq_table_cases _ db name Huniq)
    as [(id1 & ns1 & -> & _) | [Hno _]]; [done|]. by destruct (Hno id).
Qed.

(** X9. For a database other than the reserved one, on a store that
    satisfies the uniqueness invariant of the tables: when a live table of
    the database has the name, [table_create] fails with AlreadyExists; when
    none has it and the generator of the configuration fails, [table_create]
    fails with the error of the generator; these are its only failures, and
    a [table_create] that fails leaves the world as it was. *)
Theorem table_create_failures (name : name_string_t) (db : ql.db_t)
    (primary_dc : option name_string_t) (hard_durability : bool)
    (primary_key : string) (fresh : uuid_u) (threadnum : nat) (w : world) :
  ql.name db ≠ rethinkdb →
  table_names_unique (rdb_namespaces (semilattice_root_view w)) →
  let nss := rdb_namespaces (semilattice_root_view w) in
  let run :=
    create_table name db primary_dc hard_durability primary_key fresh threadnum w in
  ((∃ id, resolves nss db name id) →
   run = Returned (Failure (AlreadyExists "Table" (qualified_name db name)), w))
  ∧ (∀ e, (∀ id, ¬ resolves nss db name id) →
          generated w = Returned (Failure e) →
          run = Returned (Failure e, w))
  ∧ (∀ e w', run = Returned (Failure e, w') →
       w' = w
       ∧ ((e = AlreadyExists "Table" (qualified_name db name)
           ∧ ∃ id, resolves nss db name id)
          ∨ ((∀ id, ¬ resolves nss db name id)
             ∧ generated w = Returned (Failure e)))).
Proof.
  intros Hdb Huniq nss run. subst nss run. split_and!.
  - intros [id Hres]. by eapply table_create_exists.
  - intros e Hfree Hgen. unfold table_create.
    rewrite bool_decide_eq_true_2 by done.
    cbv beta zeta iota delta [guarantee mbind mret outcome_bind outcome_ret].
    rewrite (find_uniq_table_none _ db name Hfree).
    cbv beta zeta iota delta [check_metadata_status].
    fold (server_usage_of_all calculate_server_usage
            (rdb_namespaces (semilattice_root_view w))).
    by rewrite Hgen.
  - intros e w' Hrun.
    apply table_create_inv in Hrun
      as [_ [(? & ? & ?) | (Hfree & [(e' & Hgen & ? & ?)
                                    | (? & ? & ? & ? & _ & ? & _)])]];
      simplify_eq.
    + split; [done|]. by left.
    + split; [done|]. by right.
Qed.

(** X10. Whenever [table_create], called with an id not in use, returns
    [true]: no live table of the database had the name, the generator
    returned a configuration, and the store has, under the new id, a live
    table with the name, the database, the primary key given, one shard and
    that configuration; every other table entry and all the databases are
    as before; the uniqueness invariant of the tables, if it held, still
    holds; and then a further [table_create] of the same name in the
    database fails with AlreadyExists. *)
Theorem table_create_postcondition (name : name_string_t) (db : ql.db_t)
    (primary_dc : option name_string_t) (hard_durability : bool)
    (primary_key : string) (fresh : uuid_u) (threadnum : nat) (w w' : world) :
  rdb_namespaces (semilattice_root_view w) !! fresh = None →
  create_table name db primary_dc hard_durability primary_key fresh threadnum w
  = Returned (Success (), w') →
  let nss := rdb_namespaces (semilattice_root_view w) in
  let nss' := rdb_namespaces (semilattice_root_view w') in
  ∃ repli_info_config,
    generated w = Returned (Success repli_info_config)
    ∧ (∀ id, ¬ resolves nss db name id)
    ∧ nss' !! fresh
      = Some (Live (mk_namespace
                      (Versioned.make name) (Versioned.make (ql.id db))
                      (Versioned.make primary_key)
                      (Versioned.make (mk_repli_info repli_info_config one_shard))))
    ∧ (∀ id, id ≠ fresh → nss' !! id = nss !! id)
    ∧ databases (semilattice_root_view w') = databases (semilattice_root_view w)
    ∧ (table_names_unique nss →
       table_names_unique nss'
       ∧ ∀ primary_dc' hard_durability' primary_key' fresh' threadnum',
           create_table name db primary_dc' hard_durability' primary_key' fresh'
             threadnum' w'
           = Returned (Failure (AlreadyExists "Table" (qualified_name db name)), w')).
Proof.
  intros Hfresh Hrun nss nss'. subst nss nss'.
  destruct (table_create_success _ _ _ _ _ _ _ _ _ Hrun)
    as (cfg & Hdb & Hgen & Hfree & Hst & _).
  rewrite std_map_insert_fresh in Hst by done.
  exists cfg. rewrite Hst. simpl. split_and!; [done..| | |done|].
  - apply lookup_insert_eq.
  - intros id Hne. by apply lookup_insert_ne.
  - intros Huniq.
    assert (table_names_unique
              (<[fresh := Live (new_table_metadata name db primary_key cfg)]>
                 (rdb_namespaces (semilattice_root_view w))))
      as Huniq' by by apply (table_names_unique_insert _ _ _ db).
    split; [done|]. intros.
    apply (table_create_exists _ _ _ _ _ _ _ _ fresh); [done|by rewrite Hst|].
    rewrite Hst. simpl. eexists. by rewrite lookup_insert_eq.
Qed.

(** X11. Read your writes, for [table_create]: called with an id not in use
    on a thread whose copies follow the store, whenever [table_create]
    returns [true] the thread reads the store from its copies, and so on
    that thread [table_list] of the database has the name,
    [get_table_ids_for_query] resolves the name to the new id, and
    [table_find] asks for the interface of the new id and returns the table
    with the primary key that was given. *)
Theorem table_create_then_table_find (name : name_string_t) (db : ql.db_t)
    (primary_dc : option name_string_t) (hard_durability : bool)
    (primary_key : string) (fresh : uuid_u) (threadnum : nat) (w w' : world) :
  rdb_namespaces (semilattice_root_view w) !! fresh = None →
  follows_store threadnum w →
  create_table name db primary_dc hard_durability primary_key fresh threadnum w
  = Returned (Success (), w') →
  reads_store threadnum w'
  ∧ (∃ names, table_list db threadnum w' = Returned names ∧ name ∈ names)
  ∧ get_table_ids_for_query db [name] threadnum w'
    = Returned (Success {[ fresh := name ]})
  ∧ find_table name db threadnum w'
    = match get_namespace_interface fresh with
      | Returned access =>
          Returned (Success (mk_real_table _ fresh access primary_key))
      | Interrupted => Interrupted
      | GuaranteeFailed => GuaranteeFailed
      | SanityCheckFailed => SanityCheckFailed
      end.
Proof.
  intros Hfresh Hfollow Hrun.
  destruct (table_create_success _ _ _ _ _ _ _ _ _ Hrun)
    as (cfg & Hdb & Hgen & Hfree & Hst & Hothers & Hreads).
  rewrite std_map_insert_fresh in Hst by done.
  specialize (Hreads Hfollow). destruct (Hreads) as [Hrn Hrd].
  rewrite Hst in Hrn. simpl in Hrn.
  set (nss' := <[fresh := Live (new_table_metadata name db primary_key cfg)]>
                 (rdb_namespaces (semilattice_root_view w))) in *.
  assert (nss' !! fresh = Some (Live (new_table_metadata name db primary_key cfg)))
    as Hnew by apply lookup_insert_eq.
  assert (∀ id', resolves nss' db name id' → id' = fresh) as Hone.
  { intros id' (ns' & Hm' & Hn' & Hd').
    apply lookup_insert_Some in Hm' as [[<- _] | [_ Hm']]; [done|].
    destruct (Hfree id'). by exists ns'. }
  split; [done|]. split_and!.
  - destruct (elem_of_table_list db threadnum w' _ Hdb Hrn) as (names & Hlist & Hin).
    exists names. split; [done|]. apply Hin. exists fresh. by eexists.
  - unfold get_table_ids_for_query.
    rewrite bool_decide_eq_true_2 by done. rewrite Hrn. simpl.
    rewrite (find_uniq_table_found nss' db name fresh _ Hnew) by done.
    simpl. unfold std_map_insert. by rewrite lookup_empty, insert_empty.
  - by rewrite (table_find_found get_namespace_interface name db threadnum w' nss'
                  fresh _ Hdb Hrn Hnew).
Qed.
End create_and_find.

(** ** The order of a [std::map] *)

Lemma std_map_elements_sorted {V} (m : gmap N V) :
  StronglySorted key_le (std_map_elements m).
Proof. apply StronglySorted_merge_sort; apply _. Qed.

(** The keys of a [std::map] come in strictly ascending order. *)
Lemma std_map_keys_sorted {V} (m : gmap N V) :
  StronglySorted N.lt (std_map_elements m).*1.
Proof.
  pose proof (std_map_elements_sorted m) as Hs.
  pose proof (NoDup_fst_std_map_elements m) as Hnd.
  induction Hs as [|[k v] l Hs IH Hall]; simpl in *; [constructor|].
  apply NoDup_cons in Hnd as [Hk Hnd]. constructor; [by apply IH|].
  apply Forall_fmap. rewrite Forall_forall in Hall. apply Forall_forall.
  intros [k' v'] Hin. specialize (Hall _ Hin). unfold key_le in Hall. simpl in *.
  assert (k ≠ k'); [|lia]. intros ->. apply Hk.
  apply list_elem_of_fmap. by exists (k', v').
Qed.

(** [begin()] is the entry with the least key. *)
Lemma std_map_begin_Some {V} (m : gmap N V) k v :
  std_map_begin m = Some (k, v)
  ↔ m !! k = Some v ∧ ∀ k', is_Some (m !! k') → k ≤ k'.
Proof.
  unfold std_map_begin. pose proof (std_map_elements_sorted m) as Hs.
  pose proof (elem_of_std_map_elements m) as Hin.
  destruct (std_map_elements m) as [|[k0 v0] l]; simpl.
  - split; [done|]. intros [Hm _]. apply Hin in Hm. by apply elem_of_nil in Hm.
  - apply StronglySorted_inv in Hs as [_ Hall]. rewrite Forall_forall in Hall.
    assert (∀ k' v', m !! k' = Some v' → k0 ≤ k') as Hleast.
    { intros k' v' Hm. apply Hin in Hm. apply elem_of_cons in Hm as [[= -> ->]|Hm].
      - lia.
      - apply (Hall _ Hm). }
    assert (m !! k0 = Some v0) as Hm0 by (apply Hin; left).
    split.
    + intros [= -> ->]. split; [done|]. intros k' [v' Hm]. by eapply Hleast.
    + intros [Hm Hle]. specialize (Hleast _ _ Hm).
      specialize (Hle k0 (ex_intro _ _ Hm0)).
      assert (k0 = k) as -> by lia. congruence.
Qed.

Lemma std_map_begin_None {V} (m : gmap N V) :
  std_map_begin m = None ↔ m = ∅.
Proof.
  unfold std_map_begin. pose proof (elem_of_std_map_elements m) as Hin.
  destruct (std_map_elements m) as [|[k0 v0] l]; simpl.
  - split; [|done]. intros _. apply map_eq. intros k. rewrite lookup_empty.
    destruct (m !! k) as [v|] eqn:Hm; [|done].
    apply Hin in Hm. by apply elem_of_nil in Hm.
  - split; [done|]. intros ->.
    assert ((∅ : gmap N V) !! k0 = Some v0) as Hm by (apply Hin; left).
    by rewrite lookup_empty in Hm.
Qed.

(** ** Reading from a backend *)

Module backend_facts.
Import artificial_table_backend_t.

Section backend.
Context {datum_t : Type}.
Variable row_uuid : datum_t → option uuid_u.
Variable read_row : uuid_u → outcome (reql_result (option datum_t)).

(** While the backend answers, the rows of the tables that have one are
    added in the order of the pairs. *)
Lemma read_rows_app (rows_of : uuid_u → option datum_t) pre rest :
  Forall (λ pr : N * name_string_t,
            read_row pr.1 = Returned (Success (rows_of pr.1))) pre →
  ∀ array_builder,
    read_rows read_row (pre ++ rest) array_builder
    = read_rows read_row rest
        (array_builder ++ omap (λ pr, rows_of pr.1) pre).
Proof.
  induction pre as [|pr pre IH]; intros Hall array_builder; simpl.
  - by rewrite app_nil_r.
  - apply Forall_cons in Hall as [Hpr Hall]. rewrite Hpr. simpl.
    rewrite (IH Hall). destruct (rows_of pr.1); [|done].
    by rewrite <- app_assoc.
Qed.

Lemma read_rows_all (rows_of : uuid_u → option datum_t) pairs :
  Forall (λ pr : N * name_string_t,
            read_row pr.1 = Returned (Success (rows_of pr.1))) pairs →
  read_rows read_row pairs []
  = Returned (Success (omap (λ pr, rows_of pr.1) pairs)).
Proof.
  intros Hall. rewrite <- (app_nil_r pairs) at 1.
  by rewrite (read_rows_app rows_of pairs [] Hall).
Qed.

(** The first read that gives no answer ends the loop. *)
Lemma read_rows_stops (rows_of : uuid_u → option datum_t) pre pr post :
  Forall (λ pr : N * name_string_t,
            read_row pr.1 = Returned (Success (rows_of pr.1))) pre →
  (∀ row, read_row pr.1 ≠ Returned (Success row)) →
  read_rows read_row (pre ++ pr :: post) []
  = match read_row pr.1 with
    | Returned (Success _) => GuaranteeFailed
    | Returned (Failure e) => Returned (Failure e)
    | Interrupted => Interrupted
    | GuaranteeFailed => GuaranteeFailed
    | SanityCheckFailed => SanityCheckFailed
    end.
Proof.
  intros Hall Hfail. rewrite (read_rows_app rows_of pre _ Hall). simpl.
  destruct (read_row pr.1) as [[row|e]| | |]; try done. by destruct (Hfail row).
Qed.

(** [erase_rows] erases the ids of the rows, all of which must have one. *)
Lemma erase_rows_Returned result_array : ∀ table_map,
  Forall (λ row, is_Some (row_uuid row)) result_array →
  ∃ erased,
    erase_rows row_uuid table_map result_array = Returned erased
    ∧ ∀ id, erased !! id
            = if decide (id ∈ omap row_uuid result_array) then None
              else table_map !! id.
Proof.
  induction result_array as [|row rows IH]; intros table_map Hall.
  - exists table_map. split; [done|]. intros id.
    rewrite decide_False; [done|apply not_elem_of_nil].
  - apply Forall_cons in Hall as [[table_id Hid] Hall].
    assert (omap row_uuid (row :: rows) = table_id :: omap row_uuid rows) as ->.
    { simpl. by rewrite Hid. }
    cbn [erase_rows]. rewrite Hid.
    destruct (IH (delete table_id table_map) Hall) as (erased & He & Hlookup).
    exists erased. split; [exact He|]. intros id. rewrite Hlookup.
    destruct (decide (id ∈ omap row_uuid rows)) as [Hin|Hnin].
    + rewrite decide_True; [done|by right].
    + destruct (decide (id = table_id)) as [->|Hne].
      * rewrite lookup_delete_eq. rewrite decide_True; [done|left].
      * rewrite lookup_delete_ne by done. rewrite decide_False; [done|].
        intros [?|?]%elem_of_cons; done.
Qed.

Lemma erase_rows_GuaranteeFailed result_array : ∀ table_map,
  Exists (λ row, row_uuid row = None) result_array →
  erase_rows row_uuid table_map result_array = GuaranteeFailed.
Proof.
  induction result_array as [|row rows IH]; intros table_map Hex; simpl.
  - by apply Exists_nil in Hex.
  - apply Exists_cons in Hex as [-> | Hex]; [done|].
    destruct (row_uuid row); [|done]. simpl. by apply IH.
Qed.

(** The message names the table of the least id that has no row. *)
Lemma deleted_table_error_message_least db table_map result_array id n :
  Forall (λ row, is_Some (row_uuid row)) result_array →
  table_map !! id = Some n →
  id ∉ omap row_uuid result_array →
  (∀ id', is_Some (table_map !! id') → id' ∉ omap row_uuid result_array → id ≤ id') →
  deleted_table_error_message row_uuid db table_map result_array
  = Returned (NotFound "Table" (qualified_name db n)).
Proof.
  intros Hall Hm Hnin Hleast. unfold deleted_table_error_message.
  destruct (erase_rows_Returned result_array table_map Hall) as (erased & -> & Hl).
  simpl.
  assert (std_map_begin erased = Some (id, n)) as ->; [|done].
  apply std_map_begin_Some. split.
  - rewrite Hl. by rewrite decide_False.
  - intros id' [n' Hm']. rewrite Hl in Hm'.
    destruct (decide (id' ∈ omap row_uuid result_array)); [done|].
    apply Hleast; [by eexists|done].
Qed.

Lemma deleted_table_error_message_none db table_map result_array :
  (∀ id, is_Some (table_map !! id) → id ∈ omap row_uuid result_array) →
  deleted_table_error_message row_uuid db table_map result_array = GuaranteeFailed.
Proof.
  intros Hcov. unfold deleted_table_error_message.
  destruct (decide (Forall (λ row, is_Some (row_uuid row)) result_array))
    as [Hall|Hex].
  - destruct (erase_rows_Returned result_array table_map Hall) as (erased & -> & Hl).
    simpl. assert (std_map_begin erased = None) as ->; [|done].
    apply std_map_begin_None. apply map_eq. intros id.
    rewrite Hl, lookup_empty. destruct (decide _) as [|Hnin]; [done|].
    destruct (table_map !! id) eqn:Hm; [|done]. destruct Hnin. apply Hcov. by eexists.
  - rewrite erase_rows_GuaranteeFailed; [done|].
    apply not_Forall_Exists in Hex; [|apply _].
    eapply Exists_impl; [exact Hex|]. intros row Hrow. simpl in Hrow.
    destruct (row_uuid row); [|done]. destruct Hrow. by eexists.
Qed.

(** Either way: the least id without a row is named, or there is none. *)
Lemma deleted_table_error_message_cases db table_map result_array :
  Forall (λ row, is_Some (row_uuid row)) result_array →
  (∃ id n,
     table_map !! id = Some n
     ∧ (id ∉ omap row_uuid result_array)
     ∧ (∀ id', is_Some (table_map !! id') → id' ∉ omap row_uuid result_array →
               id ≤ id')
     ∧ deleted_table_error_message row_uuid db table_map result_array
       = Returned (NotFound "Table" (qualified_name db n)))
  ∨ ((∀ id, is_Some (table_map !! id) → id ∈ omap row_uuid result_array)
     ∧ deleted_table_error_message row_uuid db table_map result_array
       = GuaranteeFailed).
Proof.
  intros Hall.
  destruct (erase_rows_Returned result_array table_map Hall) as (erased & He & Hl).
  destruct (std_map_begin erased) as [[id n]|] eqn:Hb.
  - left. apply std_map_begin_Some in Hb as [Hm Hleast]. rewrite Hl in Hm.
    destruct (decide (id ∈ omap row_uuid result_array)) as [|Hnin]; [done|].
    assert (∀ id', is_Some (table_map !! id') →
                   id' ∉ omap row_uuid result_array → id ≤ id') as Hle.
    { intros id' Hs Hnin'. apply Hleast. rewrite Hl. by rewrite decide_False. }
    exists id, n. split_and!; [done..|].
    by apply (deleted_table_error_message_least db table_map result_array id n).
  - right. apply std_map_begin_None in Hb. subst erased.
    assert (∀ id, is_Some (table_map !! id) → id ∈ omap row_uuid result_array)
      as Hcov.
    { intros id [n Hm]. specialize (Hl id). rewrite lookup_empty in Hl.
      destruct (decide (id ∈ omap row_uuid result_array)); [done|congruence]. }
    split; [done|]. by apply deleted_table_error_message_none.
Qed.
End backend.
End backend_facts.

(** ** The rows of the tables *)

Lemma length_omap_le {A B} (f : A → option B) (l : list A) :
  (length (omap f l) ≤ length l)%nat.
Proof.
  induction l as [|x l IH]; csimpl; [done|]. destruct (f x); csimpl; lia.
Qed.

Lemma length_omap_all {A B} (f : A → option B) (l : list A) :
  Forall (λ x, is_Some (f x)) l → length (omap f l) = length l.
Proof.
  induction 1 as [|x l [y Hy] Hall IH]; csimpl; [done|]. rewrite Hy. csimpl. lia.
Qed.

Lemma length_omap_lt {A B} (f : A → option B) (l : list A) x :
  x ∈ l → f x = None → (length (omap f l) < length l)%nat.
Proof.
  induction l as [|y l IH]; csimpl; intros Hin Hx; [by apply elem_of_nil in Hin|].
  apply elem_of_cons in Hin as [<-|Hin].
  - rewrite Hx. pose proof (length_omap_le f l). lia.
  - specialize (IH Hin Hx). destruct (f y); csimpl; lia.
Qed.

(** The map of resolved names has one entry for each requested name. *)
Lemma resolved_map_size nss db (tables : list name_string_t)
    (table_map : gmap N name_string_t) :
  table_names_unique nss →
  NoDup tables →
  Forall (λ n, ∃ id, resolves nss db n id) tables →
  (∀ id n, table_map !! id = Some n ↔ n ∈ tables ∧ resolves nss db n id) →
  length (std_map_elements table_map) = length tables.
Proof.
  intros Huniq Hnd Hall Hm.
  rewrite <- (length_fmap snd (std_map_elements table_map)).
  apply Permutation_length, NoDup_Permutation; [|done|].
  - apply NoDup_fmap_2_strong.
    + intros [i1 n1] [i2 n2] H1 H2 Hn. simpl in Hn. subst n2.
      apply elem_of_std_map_elements, Hm in H1 as [_ H1].
      apply elem_of_std_map_elements, Hm in H2 as [_ H2].
      f_equal. by apply (resolves_unique nss db n1).
    + eapply NoDup_fmap_1. apply NoDup_fst_std_map_elements.
  - intros n. rewrite list_elem_of_fmap. split.
    + intros ([id n'] & -> & Hin). simpl.
      by apply elem_of_std_map_elements, Hm in Hin as [? _].
    + intros Hin. rewrite Forall_forall in Hall.
      destruct (Hall n Hin) as [id Hres]. exists (id, n). split; [done|].
      apply elem_of_std_map_elements, Hm. done.
Qed.

(** Under the uniqueness invariant either every name resolves, or there
    is a first name that does not. *)
Lemma resolves_all_or_first_missing nss db (tables : list name_string_t) :
  table_names_unique nss →
  Forall (λ n, ∃ id, resolves nss db n id) tables
  ∨ ∃ pre missing post,
      tables = pre ++ missing :: post
      ∧ Forall (λ n, ∃ id, resolves nss db n id) pre
      ∧ ∀ id, ¬ resolves nss db missing id.
Proof.
  intros Huniq. induction tables as [|n tables IH]; [by left|].
  destruct (find_uniq_table_cases nss db n Huniq)
    as [(id & ns & _ & Hm & Hn & Hd) | [Hno _]].
  - assert (∃ id, resolves nss db n id) as Hres by (exists id; by exists ns).
    destruct IH as [Hall | (pre & missing & post & -> & Hpre & Hmiss)].
    + left. by constructor.
    + right. exists (n :: pre), missing, post. split_and!; [done| |done].
      by constructor.
  - right. by exists [], n, tables.
Qed.

(** The functions against any backend, at the table status backend, are
    the ones [table_wait] uses. *)
Lemma table_meta_read_status status table_map :
  artificial_table_backend_t.table_meta_read (table_status_backend status) table_map
  = Returned (Success (table_meta_read status table_map)).
Proof.
  unfold artificial_table_backend_t.table_meta_read.
  by rewrite (backend_facts.read_rows_all (table_status_backend status)
                (read_row status)) by by apply Forall_true.
Qed.

Lemma deleted_table_error_message_status db table_map
    (result_array : list status_row) :
  artificial_table_backend_t.deleted_table_error_message
    (λ row, Some (row_id row)) db table_map result_array
  = deleted_table_error_message db table_map result_array.
Proof.
  unfold artificial_table_backend_t.deleted_table_error_message,
    deleted_table_error_message.
  assert (artificial_table_backend_t.erase_rows
            (λ row, Some (row_id row)) table_map result_array
          = Returned (foldl (λ m row, delete (row_id row) m) table_map result_array))
    as ->; [|done].
  revert table_map. induction result_array as [|row rows IH]; intros m; simpl; done.
Qed.

Lemma omap_fmap_fst {A B C} (f : A → option C) (l : list (A * B)) :
  omap f l.*1 = omap (λ pr, f pr.1) l.
Proof.
  induction l as [|[a b] l IH]; csimpl; [done|]. by rewrite IH.
Qed.

(** X12. [deleted_table_error_message], for the rows of any backend: when
    every row has an id, the message names the table of the map that has
    the least id among those without a row; it dies in its check exactly
    when every table of the map has a row; and it dies in its guarantee
    when some row has no id. *)
Theorem deleted_table_error_message_least_id {datum_t : Type}
    (row_uuid : datum_t → option uuid_u) (db : ql.db_t)
    (table_map : gmap N name_string_t) (result_array : list datum_t) :
  let ids := omap row_uuid result_array in
  let message :=
    artificial_table_backend_t.deleted_table_error_message
      row_uuid db table_map result_array in
  (Exists (λ row, row_uuid row = None) result_array → message = GuaranteeFailed)
  ∧ (Forall (λ row, is_Some (row_uuid row)) result_array →
     (∀ id n,
        table_map !! id = Some n → id ∉ ids →
        (∀ id', is_Some (table_map !! id') → id' ∉ ids → id ≤ id') →
        message = Returned (NotFound "Table" (qualified_name db n)))
     ∧ ((∃ id, is_Some (table_map !! id) ∧ id ∉ ids) →
        ∃ id n,
          table_map !! id = Some n ∧ (id ∉ ids)
          ∧ (∀ id', is_Some (table_map !! id') → id' ∉ ids → id ≤ id')
          ∧ message = Returned (NotFound "Table" (qualified_name db n)))
     ∧ (message = GuaranteeFailed
        ↔ ∀ id, is_Some (table_map !! id) → id ∈ ids)).
Proof.
  intros ids message. subst ids message. split.
  - intros Hex. unfold artificial_table_backend_t.deleted_table_error_message.
    by rewrite backend_facts.erase_rows_GuaranteeFailed.
  - intros Hall. split_and!.
    + intros id n Hm Hnin Hleast.
      by apply (backend_facts.deleted_table_error_message_least
                  row_uuid db table_map result_array id n).
    + intros (id & Hs & Hnin).
      destruct (backend_facts.deleted_table_error_message_cases
                  row_uuid db table_map result_array Hall)
        as [(id0 & n0 & ? & ? & ? & ?) | [Hcov _]].
      * by exists id0, n0.
      * by destruct Hnin; apply Hcov.
    + destruct (backend_facts.deleted_table_error_message_cases
                  row_uuid db table_map result_array Hall)
        as [(id0 & n0 & Hm & Hnin & _ & ->) | [Hcov ->]].
      * split; [done|]. intros Hcov. destruct Hnin. apply Hcov. by eexists.
      * done.
Qed.

(** X13. [table_meta_read] reads the rows in ascending order of the table
    ids, which are the keys of the map: when the backend answers every
    read, the result is the rows of the tables that have one, in that
    order; and the first read, in that order, that fails or is interrupted
    ends the call with that failure or interruption. *)
Theorem table_meta_read_in_id_order {datum_t : Type}
    (read_row : uuid_u → outcome (reql_result (option datum_t)))
    (table_map : gmap N name_string_t) :
  let ids := (std_map_elements table_map).*1 in
  let rows := artificial_table_backend_t.table_meta_read read_row table_map in
  StronglySorted N.lt ids
  ∧ (∀ id, id ∈ ids ↔ is_Some (table_map !! id))
  ∧ (∀ rows_of : uuid_u → option datum_t,
       (∀ id, id ∈ ids → read_row id = Returned (Success (rows_of id))) →
       rows = Returned (Success (omap rows_of ids)))
  ∧ (∀ (rows_of : uuid_u → option datum_t) pre id post,
       ids = pre ++ id :: post →
       (∀ id', id' ∈ pre → read_row id' = Returned (Success (rows_of id'))) →
       (∀ e, read_row id = Returned (Failure e) → rows = Returned (Failure e))
       ∧ (read_row id = Interrupted → rows = Interrupted)).
Proof.
  intros ids rows. subst ids rows. split_and!.
  - apply std_map_keys_sorted.
  - intros id. rewrite list_elem_of_fmap. split.
    + intros ([k n] & -> & Hin). apply elem_of_std_map_elements in Hin. by eexists.
    + intros [n Hm]. exists (id, n). split; [done|].
      by apply elem_of_std_map_elements.
  - intros rows_of Hall. unfold artificial_table_backend_t.table_meta_read.
    rewrite (backend_facts.read_rows_all read_row rows_of).
    + by rewrite omap_fmap_fst.
    + apply Forall_forall. intros [k n] Hin. apply Hall.
      apply list_elem_of_fmap. by exists (k, n).
  - intros rows_of pre id post Hids Hpre.
    unfold artificial_table_backend_t.table_meta_read.
    apply fmap_app_inv in Hids as (pre' & rest & -> & Hrest & ->).
    destruct rest as [|[k n] post']; [done|]. simpl in Hrest.
    injection Hrest as -> ->.
    assert (Forall (λ pr : N * name_string_t,
                      read_row pr.1 = Returned (Success (rows_of pr.1))) pre')
      as Hall.
    { apply Forall_forall. intros [k' n'] Hin. apply Hpre.
      apply list_elem_of_fmap. by exists (k', n'). }
    split.
    + intros e He.
      rewrite (backend_facts.read_rows_stops read_row rows_of pre' (k, n) post' Hall);
        simpl; rewrite He; done.
    + intros He.
      rewrite (backend_facts.read_rows_stops read_row rows_of pre' (k, n) post' Hall);
        simpl; rewrite He; done.
Qed.

Section config.
Context {datum_t : Type}.
Variable row_uuid : datum_t → option uuid_u.
Variable table_config_backend : uuid_u → outcome (reql_result (option datum_t)).

Local Abbreviation config_rows :=
  (artificial_table_backend_t.table_config row_uuid table_config_backend).

(** The rows a backend gives for a map of tables, when it answers every
    read with a row that carries the id asked for, or with none. *)
Lemma table_meta_read_by_name_resolved (rows_of : uuid_u → option datum_t)
    db tables threadnum w table_map :
  (∀ id, table_config_backend id = Returned (Success (rows_of id))) →
  (∀ id row, rows_of id = Some row → row_uuid row = Some id) →
  get_table_ids_for_query db tables threadnum w = Returned (Success table_map) →
  let rows := omap rows_of (std_map_elements table_map).*1 in
  (tables = [] ∨ length tables = length rows →
   config_rows db tables threadnum w = Returned (Success rows))
  ∧ (tables ≠ [] → length tables ≠ length rows →
     config_rows db tables threadnum w
     = e ← artificial_table_backend_t.deleted_table_error_message
             row_uuid db table_map rows;
       mret (Failure e))
  ∧ Forall (λ row, is_Some (row_uuid row)) rows
  ∧ (∀ id, id ∈ omap row_uuid rows
           ↔ is_Some (table_map !! id) ∧ is_Some (rows_of id)).
Proof.
  intros Hread Hid Hres rows.
  assert (artificial_table_backend_t.table_meta_read table_config_backend table_map
          = Returned (Success rows)) as Hrows.
  { unfold artificial_table_backend_t.table_meta_read.
    rewrite (backend_facts.read_rows_all table_config_backend rows_of)
      by by apply Forall_true.
    unfold rows. by rewrite omap_fmap_fst. }
  unfold artificial_table_backend_t.table_config,
    artificial_table_backend_t.table_meta_read_by_name.
  rewrite Hres. simpl. rewrite Hrows. simpl. split_and!.
  - intros [-> | Hlen]; [done|].
    rewrite (bool_decide_eq_true_2 (length tables = length rows)) by done.
    by rewrite andb_false_r.
  - intros Hne Hlen.
    rewrite (bool_decide_eq_false_2 (tables = [])) by done.
    by rewrite (bool_decide_eq_false_2 (length tables = length rows)) by done.
  - apply Forall_forall. intros row Hin. unfold rows in Hin.
    apply list_elem_of_omap in Hin as (id & _ & Hrow). rewrite (Hid _ _ Hrow).
    by eexists.
  - intros id. unfold rows. rewrite list_elem_of_omap. split.
    + intros (row & Hin & Hu). apply list_elem_of_omap in Hin as (id' & Hin & Hrow).
      rewrite (Hid _ _ Hrow) in Hu. simplify_eq.
      apply list_elem_of_fmap in Hin as ([k n] & -> & Hin).
      apply elem_of_std_map_elements in Hin. split; by eexists.
    + intros [[n Hm] [row Hrow]]. exists row. split; [|by apply Hid].
      apply list_elem_of_omap. exists id. split; [|done].
      apply list_elem_of_fmap. exists (id, n). split; [done|].
      by apply elem_of_std_map_elements.
Qed.

(** X14. [table_config], that is [table_meta_read_by_name] on the
    configuration backend, for a database other than the reserved one,
    called with a set of names on a thread whose copy of the tables
    satisfies the uniqueness invariant, when the backend answers every read
    with the row of the table or with none: if some name does not resolve,
    the call fails with NotFound for the first such name; if all the names
    resolve and every resolved table has a row, it returns these rows, one
    for each name, in ascending order of the ids; if names were given and
    some resolved table has no row, it fails with NotFound for the table of
    the least id without a row; with no name given it returns the rows of
    the live tables of the database that have one, and does not fail. *)
Theorem table_config_rows (rows_of : uuid_u → option datum_t)
    (db : ql.db_t) (tables : list name_string_t) (threadnum : nat) (w : world)
    (nss : namespaces_semilattice_metadata_t) :
  ql.name db ≠ rethinkdb →
  get_namespaces_metadata threadnum w = Returned nss →
  table_names_unique nss →
  NoDup tables →
  (∀ id, table_config_backend id = Returned (Success (rows_of id))) →
  (∀ id row, rows_of id = Some row → row_uuid row = Some id) →
  (∀ pre missing post,
     tables = pre ++ missing :: post →
     Forall (λ n, ∃ id, resolves nss db n id) pre →
     (∀ id, ¬ resolves nss db missing id) →
     config_rows db tables threadnum w
     = Returned (Failure (NotFound "Table" (qualified_name db missing))))
  ∧ (Forall (λ n, ∃ id, resolves nss db n id) tables →
     ∃ table_map,
       get_table_ids_for_query db tables threadnum w = Returned (Success table_map)
       ∧ let ids := (std_map_elements table_map).*1 in
         ((∀ id, id ∈ ids → is_Some (rows_of id)) →
          config_rows db tables threadnum w = Returned (Success (omap rows_of ids))
          ∧ omap row_uuid (omap rows_of ids) = ids
          ∧ (tables ≠ [] → length (omap rows_of ids) = length tables))
         ∧ (tables ≠ [] →
            ∀ id n,
              table_map !! id = Some n → rows_of id = None →
              (∀ id', is_Some (table_map !! id') → rows_of id' = None → id ≤ id') →
              config_rows db tables threadnum w
              = Returned (Failure (NotFound "Table" (qualified_name db n))))
         ∧ (tables = [] →
            config_rows db tables threadnum w
            = Returned (Success (omap rows_of ids))))
  ∧ ∃ r, config_rows db tables threadnum w = Returned r.
Proof.
  intros Hdb Hcopy Huniq Hnd Hread Hid.
  assert (∀ pre missing post,
     tables = pre ++ missing :: post →
     Forall (λ n, ∃ id, resolves nss db n id) pre →
     (∀ id, ¬ resolves nss db missing id) →
     config_rows db tables threadnum w
     = Returned (Failure (NotFound "Table" (qualified_name db missing)))) as Hmissing.
  { intros pre missing post -> Hpre Hmiss.
    unfold artificial_table_backend_t.table_config,
      artificial_table_backend_t.table_meta_read_by_name.
    by rewrite (get_table_ids_for_query_missing db pre missing post threadnum w nss). }
  assert (Forall (λ n, ∃ id, resolves nss db n id) tables →
     ∃ table_map,
       get_table_ids_for_query db tables threadnum w = Returned (Success table_map)
       ∧ (tables ≠ [] → length (std_map_elements table_map) = length tables))
    as Hresolved.
  { intros Hall. destruct tables as [|n tables'].
    - destruct (get_table_ids_for_query_all db threadnum w nss Hdb Hcopy)
        as (m & Hm & _).
      exists m. by split.
    - destruct (get_table_ids_for_query_named db (n :: tables') threadnum w nss)
        as (m & Hrun & Hm); [done..|].
      exists m. split; [done|]. intros _.
      by apply (resolved_map_size nss db). }
  split; [exact Hmissing|]. split.
  - intros Hall. destruct (Hresolved Hall) as (table_map & Hres & Hsize).
    exists table_map. split; [done|]. intros ids.
    destruct (table_meta_read_by_name_resolved rows_of db tables threadnum w
                table_map Hread Hid Hres)
      as (Hok & Hbad & Hrows & Hin).
    fold ids in Hok, Hbad, Hrows, Hin. split_and!.
    + intros Hhave.
      assert (length (omap rows_of ids) = length ids) as Hlen.
      { apply length_omap_all. by apply Forall_forall. }
      assert (tables ≠ [] → length (omap rows_of ids) = length tables) as Hlen'.
      { intros Hne. rewrite Hlen. unfold ids. rewrite length_fmap. by apply Hsize. }
      split_and!; [|clear -Hid Hhave|done].
      * apply Hok. destruct tables; [by left|right].
        symmetry. by apply Hlen'.
      * induction ids as [|id ids IH]; csimpl; [done|].
        destruct (Hhave id) as [row Hrow]; [left|]. rewrite Hrow. csimpl.
        rewrite (Hid _ _ Hrow). f_equal. apply IH. intros id' Hin'.
        apply Hhave. by right.
    + intros Hne id n Hm Hnone Hleast.
      assert (id ∈ ids) as Hinid.
      { apply list_elem_of_fmap. exists (id, n). split; [done|].
        by apply elem_of_std_map_elements. }
      rewrite Hbad; [|done|].
      * rewrite (backend_facts.deleted_table_error_message_least
                   row_uuid db table_map _ id n); [done|done|done| |].
        -- rewrite Hin. intros [_ [row Hrow]]. congruence.
        -- intros id' Hs Hnin'. apply Hleast; [done|].
           destruct (rows_of id') eqn:Hr; [|done].
           destruct Hnin'. apply Hin. split; [done|by eexists].
      * pose proof (length_omap_lt rows_of ids id Hinid Hnone) as Hlt.
        unfold ids in Hlt at 2. rewrite length_fmap, (Hsize Hne) in Hlt. lia.
    + intros ->. apply Hok. by left.
  - destruct (resolves_all_or_first_missing nss db tables Huniq)
      as [Hall | (pre & missing & post & Htables & Hpre & Hmiss)].
    2:{ eexists. by apply (Hmissing pre missing post). }
    destruct (Hresolved Hall) as (table_map & Hres & Hsize).
    destruct (table_meta_read_by_name_resolved rows_of db tables threadnum w
                table_map Hread Hid Hres)
      as (Hok & Hbad & Hrows & Hin).
    set (ids := (std_map_elements table_map).*1) in *.
    destruct (decide (tables = [])) as [->|Hne].
    { eexists. apply Hok. by left. }
    destruct (decide (length tables = length (omap rows_of ids))) as [Hlen|Hlen].
    { eexists. apply Hok. by right. }
    rewrite Hbad by done.
    destruct (backend_facts.deleted_table_error_message_cases
                row_uuid db table_map (omap rows_of ids) Hrows)
      as [(id0 & n0 & _ & _ & _ & ->) | [Hcov _]]; [by eexists|].
    exfalso. apply Hlen. rewrite length_omap_all.
    + unfold ids. rewrite length_fmap. symmetry. by apply Hsize.
    + apply Forall_forall. intros id Hinid.
      apply list_elem_of_fmap in Hinid as ([k n] & -> & Hinid).
      apply elem_of_std_map_elements in Hinid.
      destruct (Hin k) as [Hk _]. apply Hk. apply Hcov. by eexists.
Qed.
End config.

(** ** [table_wait] with a response, and [table_status] *)

Lemma get_table_ids_for_query_set_directory db tables threadnum w dir :
  get_table_ids_for_query db tables threadnum (set_directory w dir)
  = get_table_ids_for_query db tables threadnum w.
Proof. done. Qed.

Lemma length_std_map_elements {V} (m : gmap N V) :
  length (std_map_elements m) = size m.
Proof.
  unfold std_map_elements. rewrite merge_sort_Permutation.
  by rewrite length_map_to_list.
Qed.

(** [table_wait] with [resp_out], by the way it ends. *)
Lemma table_wait_resp_cases db tables readiness threadnum w :
  match table_wait db tables readiness true threadnum w with
  | Returned (res, w') =>
      (∃ e, res = Failure e ∧ w' = w
            ∧ get_table_ids_for_query db tables threadnum w = Returned (Failure e))
      ∨ (∃ table_map,
           get_table_ids_for_query db tables threadnum w
           = Returned (Success table_map)
           ∧ w' = set_directory w (directory w')
           ∧ ((size table_map ≤ 1)%nat ∨ counts_in_int (directory w) →
              ∀ id n, table_map !! id = Some n →
                ready_or_deleted (w_value (directory w')) readiness id = true)
           ∧ let datum_result := table_meta_read (w_value (directory w')) table_map in
             if negb (bool_decide (tables = []))
                && negb (bool_decide (length tables = length datum_result))
             then ∃ e, res = Failure e
                       ∧ deleted_table_error_message db table_map datum_result
                         = Returned e
             else res = Success (Some datum_result))
  | _ => True
  end.
Proof.
  unfold table_wait.
  destruct (get_table_ids_for_query db tables threadnum w)
    as [[table_map|e]| | |]; try done.
  2:{ simpl. left. by exists e. }
  cbv beta iota zeta delta [mbind outcome_bind].
  destruct (table_wait_loop (table_wait_fuel (directory w)) readiness _ (directory w))
    as [[[ws dir']| | |]|] eqn:Hloop; try done.
  simpl.
  assert ((size table_map ≤ 1)%nat ∨ counts_in_int (directory w) →
          ∀ id n, table_map !! id = Some n →
            ready_or_deleted (w_value dir') readiness id = true) as Hready.
  { intros Hcase.
    assert (Forall (λ w, ready_or_deleted (w_value dir') readiness (table_id w) = true)
                   ((λ pair, new pair.1) <$> std_map_elements table_map)) as Hall.
    { destruct Hcase as [Hone|Hfit].
      - apply table_wait_loop_returned_one in Hloop as [_ ?]; [done|].
        by rewrite length_fmap, length_std_map_elements.
      - by apply table_wait_loop_returned in Hloop as [_ ?]. }
    intros id n Hm. rewrite Forall_forall in Hall.
    by apply (Hall (new id)), (elem_of_waiters_of_map _ _ n). }
  destruct (negb (bool_decide (tables = []))
            && negb (bool_decide (length tables
                                  = length (table_meta_read (w_value dir') table_map))))
    eqn:Hcheck.
  - destruct (deleted_table_error_message db table_map _) as [e| | |] eqn:Hmsg;
      try done.
    simpl. right. exists table_map. split_and!; [done..|].
    simpl. rewrite Hcheck. by exists e.
  - simpl. right. exists table_map. split_and!; [done..|].
    simpl. by rewrite Hcheck.
Qed.

(** X15. When [table_wait] is called with [resp_out] and returns, in the
    world it leaves [table_status] of the same names, called on the same
    thread, gives the same answer: the same rows when [table_wait] returned
    [true], the same error when it returned [false]. *)
Theorem table_wait_then_table_status (db : ql.db_t)
    (tables : list name_string_t) (readiness : table_readiness_t)
    (threadnum : nat) (w w' : world)
    (res : reql_result (option (list status_row))) :
  table_wait db tables readiness true threadnum w = Returned (res, w') →
  match res with
  | Success (Some rows) =>
      table_status db tables threadnum w' = Returned (Success rows)
  | Success None => False
  | Failure e => table_status db tables threadnum w' = Returned (Failure e)
  end.
Proof.
  intros Hrun.
  pose proof (table_wait_resp_cases db tables readiness threadnum w) as Hc.
  rewrite Hrun in Hc.
  unfold table_status, artificial_table_backend_t.table_meta_read_by_name.
  destruct Hc as [(e & -> & -> & Hres) | (table_map & Hres & Hw' & _ & Hrows)].
  - by rewrite Hres.
  - assert (get_table_ids_for_query db tables threadnum w'
            = Returned (Success table_map)) as ->.
    { rewrite Hw'. by rewrite get_table_ids_for_query_set_directory. }
    cbv zeta in Hrows. simpl. rewrite table_meta_read_status. simpl.
    destruct (negb (bool_decide (tables = []))
              && negb (bool_decide
                         (length tables
                          = length (table_meta_read (w_value (directory w'))
                                      table_map)))) eqn:Hcheck.
    + destruct Hrows as (e & -> & Hmsg).
      by rewrite deleted_table_error_message_status, Hmsg.
    + by rewrite Hrows.
Qed.

(** X16. When [table_wait] is called with [resp_out] and returns [true],
    every row it returns is the row of a resolved table as the status
    reached has it, in ascending order of the ids; if names were given,
    there is one row for each name; nothing but the directory has moved;
    and, with at most one resolved table, or as long as the directory takes
    no more values than the [int] of [wait_ready] counts, every row shows
    its table at the readiness asked for or above.  When it returns [false]
    after the names resolved, the error is NotFound for a table that was
    resolved and has no row any more. *)
Theorem table_wait_rows_ready (db : ql.db_t) (tables : list name_string_t)
    (readiness : table_readiness_t) (threadnum : nat) (w w' : world)
    (res : reql_result (option (list status_row)))
    (table_map : gmap N name_string_t) :
  get_table_ids_for_query db tables threadnum w = Returned (Success table_map) →
  table_wait db tables readiness true threadnum w = Returned (res, w') →
  w' = set_directory w (directory w')
  ∧ match res with
    | Success rows_out =>
        ∃ rows,
          rows_out = Some rows
          ∧ rows = table_meta_read (w_value (directory w')) table_map
          ∧ StronglySorted N.lt (row_id <$> rows)
          ∧ Forall (λ row,
                      is_Some (table_map !! row_id row)
                      ∧ w_value (directory w') !! row_id row
                        = Some (row_readiness row))
                   rows
          ∧ ((size table_map ≤ 1)%nat ∨ counts_in_int (directory w) →
             Forall (λ row,
                       readiness_rank readiness ≤ readiness_rank (row_readiness row))
                    rows)
          ∧ (tables ≠ [] → length rows = length tables)
    | Failure e =>
        tables ≠ []
        ∧ ∃ id n,
            table_map !! id = Some n
            ∧ w_value (directory w') !! id = None
            ∧ e = NotFound "Table" (qualified_name db n)
    end.
Proof.
  intros Hres Hrun.
  pose proof (table_wait_resp_cases db tables readiness threadnum w) as Hc.
  rewrite Hrun in Hc.
  destruct Hc as [(e & _ & _ & Hres') | (table_map' & Hres' & Hw' & Hready & Hrows)];
    [congruence|].
  rewrite Hres in Hres'. injection Hres' as <-. split; [done|].
  cbv zeta in Hrows.
  set (st := w_value (directory w')) in *.
  assert (∀ row, row ∈ table_meta_read st table_map →
            is_Some (table_map !! row_id row)
            ∧ st !! row_id row = Some (row_readiness row)
            ∧ ((size table_map ≤ 1)%nat ∨ counts_in_int (directory w) →
               readiness_rank readiness ≤ readiness_rank (row_readiness row)))
    as Hrow.
  { intros row Hin. unfold table_meta_read in Hin.
    apply list_elem_of_omap in Hin as ([id n] & Hin & Hr).
    apply elem_of_std_map_elements in Hin. unfold read_row in Hr. simpl in Hr.
    destruct (st !! id) as [rd|] eqn:Hst; [|done]. simpl in Hr.
    injection Hr as <-. simpl. split_and!; [by eexists|done|].
    intros Hcase.
    specialize (Hready Hcase _ _ Hin).
    unfold ready_or_deleted, get_table_readiness in Hready.
    rewrite Hst in Hready. by apply bool_decide_eq_true in Hready. }
  destruct (negb (bool_decide (tables = [])) && _) eqn:Hcheck.
  - destruct Hrows as (e & -> & Hmsg).
    apply andb_true_iff in Hcheck as [Hne _].
    apply negb_true_iff, bool_decide_eq_false in Hne. split; [done|].
    rewrite <- deleted_table_error_message_status in Hmsg.
    destruct (backend_facts.deleted_table_error_message_cases
                (λ row, Some (row_id row)) db table_map (table_meta_read st table_map))
      as [(id & n & Hm & Hnin & _ & Hmsg') | [_ Hmsg']];
      [by apply Forall_true| |congruence].
    exists id, n. split_and!; [done| |congruence].
    destruct (st !! id) as [rd|] eqn:Hst; [|done]. destruct Hnin.
    apply list_elem_of_omap. exists (mk_row id rd). split; [|done].
    unfold table_meta_read. apply list_elem_of_omap. exists (id, n).
    split; [by apply elem_of_std_map_elements|].
    unfold read_row. simpl. by rewrite Hst.
  - subst res. eexists. split_and!; [done|done| | | |].
    2:{ apply Forall_forall. intros row Hin.
        by destruct (Hrow row Hin) as (? & ? & _). }
    2:{ intros Hcase. apply Forall_forall. intros row Hin.
        destruct (Hrow row Hin) as (_ & _ & Hrank). by apply Hrank. }
    + unfold table_meta_read.
      pose proof (std_map_keys_sorted table_map) as Hs.
      induction (std_map_elements table_map) as [|[k n] l IH]; csimpl; [constructor|].
      simpl in Hs. apply StronglySorted_inv in Hs as [Hs Hk].
      specialize (IH Hs). unfold read_row at 1. simpl.
      destruct (st !! k) as [rd|]; csimpl; [|done].
      constructor; [done|]. apply Forall_forall. intros id Hin.
      apply list_elem_of_fmap in Hin as (row & -> & Hin).
      apply list_elem_of_omap in Hin as ([k' n'] & Hin & Hr).
      unfold read_row in Hr. simpl in Hr.
      destruct (st !! k'); [|done]. simpl in Hr. injection Hr as <-. simpl.
      rewrite Forall_forall in Hk. apply Hk.
      apply list_elem_of_fmap. by exists (k', n').
    + intros Hne. apply andb_false_iff in Hcheck as [Hc|Hc].
      * apply negb_false_iff, bool_decide_eq_true in Hc. done.
      * apply negb_false_iff, bool_decide_eq_true in Hc. done.
Qed.

(** X17. When the names resolve and, in the status the directory shows at
    the call, every resolved table is at the readiness asked for or above
    or has no row, [table_wait] returns at once: it returns [true] and
    leaves the world as it was. *)
Theorem table_wait_immediate (db : ql.db_t) (tables : list name_string_t)
    (readiness : table_readiness_t) (threadnum : nat) (w : world)
    (table_map : gmap N name_string_t) :
  get_table_ids_for_query db tables threadnum w = Returned (Success table_map) →
  (∀ id n, table_map !! id = Some n →
     ready_or_deleted (w_value (directory w)) readiness id = true) →
  table_wait db tables readiness false threadnum w = Returned (Success None, w).
Proof.
  intros Hres Hready. unfold table_wait. rewrite Hres.
  cbv beta iota zeta delta [mbind outcome_bind].
  assert (∀ ws : list t,
            Forall (λ x, ready_or_deleted (w_value (directory w)) readiness
                           (table_id x) = true) ws →
            ∀ imm, ∃ ws', wait_each readiness ws imm (directory w)
                          = Some (imm, ws', directory w)) as Heach.
  { induction ws as [|x ws IH]; intros Hall imm; simpl; [by eexists|].
    apply Forall_cons in Hall as [Hx Hall].
    pose proof (wait_ready_cases readiness x (directory w)) as Hc.
    destruct (wait_ready readiness x (directory w)) as [[[res x'] dir']|].
    - destruct Hc as (skipped & Heq & Hsk & _ & Himm & _ & _).
      destruct skipped as [|s skipped].
      + simpl in Heq. apply w_history_inj in Heq as <-.
        rewrite (Himm eq_refl).
        rewrite bool_decide_eq_true_2 by done. rewrite andb_true_r.
        destruct (IH Hall imm) as (ws' & ->). by eexists.
      + exfalso. apply Forall_cons in Hsk as [Hs _].
        unfold w_history in Heq. simpl in Heq. injection Heq as <- _. congruence.
    - exfalso. apply Forall_cons in Hc as [Hs _]. congruence. }
  set (waiters := (λ pair : N * name_string_t, new pair.1)
                    <$> std_map_elements table_map).
  destruct (Heach waiters) with (imm := true) as (ws' & Hwe).
  { apply Forall_forall. intros x Hin. unfold waiters in Hin.
    apply list_elem_of_fmap in Hin as ([id n] & -> & Hin).
    apply elem_of_std_map_elements in Hin. simpl. by apply (Hready id n). }
  unfold table_wait_fuel. simpl. fold waiters. rewrite Hwe. simpl.
  by rewrite set_directory_id.
Qed.

(** ** The barrier, once passed *)

(** X18. A barrier that was passed is passed: when
    [wait_for_metadata_to_propagate] returns, the same call in the world it
    leaves returns at once and changes nothing. *)
Theorem wait_for_metadata_to_propagate_idempotent
    (metadata : cluster_semilattice_metadata_t) (threadnum : nat) (w w' : world) :
  wait_for_metadata_to_propagate metadata threadnum w = Returned w' →
  wait_for_metadata_to_propagate metadata threadnum w' = Returned w'.
Proof.
  intros Hrun.
  pose proof (wait_for_metadata_to_propagate_cases metadata threadnum w) as Hc.
  rewrite Hrun in Hc.
  destruct Hc as (_ & _ & _ & nsw & nsw' & dbw & dbw' & Hn & Hd & Hnsws & Hdbws
                  & _ & _ & Hjn & Hjd).
  assert (cross_thread_namespace_watchables w' !! threadnum = Some nsw') as Hn'.
  { rewrite Hnsws. apply list_lookup_insert_eq. by eapply lookup_lt_Some. }
  assert (cross_thread_database_watchables w' !! threadnum = Some dbw') as Hd'.
  { rewrite Hdbws. apply list_lookup_insert_eq. by eapply lookup_lt_Some. }
  unfold wait_for_metadata_to_propagate. rewrite Hn'. simpl.
  rewrite run_until_satisfied_now by done. simpl. rewrite Hd'. simpl.
  rewrite run_until_satisfied_now by done. simpl.
  unfold set_database_watchable, set_namespace_watchable. simpl.
  rewrite !list_insert_id by done. by destruct w'.
Qed.

(** ** Entries are kept *)

Section kept.
Variable calculate_server_usage : table_config_t → gmap N Z → gmap N Z.
Variable table_generate_config :
  uuid_u → option table_status_t → gmap N Z → table_generate_config_params_t →
  table_shard_scheme_t → outcome (reql_result table_config_t).

(** X19. The operations that create and drop never take an entry out of
    the store, never change a live entry and never revive a tombstone:
    whenever [db_create], [db_drop], [table_create] or [table_drop]
    returns, every entry the store had is still there, as it was or as a
    tombstone. *)
Theorem create_and_drop_keep_entries :
  let kept (w w' : world) :=
    entries_le (rdb_namespaces (semilattice_root_view w))
               (rdb_namespaces (semilattice_root_view w'))
    ∧ entries_le (databases (semilattice_root_view w))
                 (databases (semilattice_root_view w')) in
  (∀ name fresh threadnum w r w',
     db_create name fresh threadnum w = Returned (r, w') → kept w w')
  ∧ (∀ name threadnum w r w',
       db_drop name threadnum w = Returned (r, w') → kept w w')
  ∧ (∀ name db threadnum w r w',
       table_drop name db threadnum w = Returned (r, w') → kept w w')
  ∧ (∀ name db primary_dc hard_durability primary_key fresh threadnum w r w',
       table_create calculate_server_usage table_generate_config
         name db primary_dc hard_durability primary_key fresh threadnum w
       = Returned (r, w') →
       kept w w').
Proof.
  intros kept. subst kept. cbv beta.
  assert (∀ w, entries_le (rdb_namespaces (semilattice_root_view w))
                 (rdb_namespaces (semilattice_root_view w))
               ∧ entries_le (databases (semilattice_root_view w))
                   (databases (semilattice_root_view w))) as Hrefl.
  { intros w. split; apply entries_le_refl. }
  split_and!.
  - intros name fresh threadnum w r w' Hrun.
    apply db_create_inv in Hrun as [_ [(_ & -> & _) | (_ & _ & Hwait)]]; [done|].
    cbv zeta in Hwait.
    apply join_then_wait in Hwait as (-> & _);
      [|apply entries_le_refl|apply entries_le_std_map_insert].
    simpl. split; [apply entries_le_refl|apply entries_le_std_map_insert].
  - intros name threadnum w r w' Hrun.
    apply db_drop_inv in Hrun as [_ [(_ & -> & _) | (_ & id & db & _ & _ & _ & Hwait)]];
      [done|].
    cbv zeta in Hwait.
    apply join_then_wait in Hwait as (-> & _);
      [|apply entries_le_mark_tables_deleted|apply entries_le_mark_deleted].
    simpl. split; [apply entries_le_mark_tables_deleted|apply entries_le_mark_deleted].
  - intros name db threadnum w r w' Hrun.
    apply table_drop_inv in Hrun as [_ [(_ & -> & _) | (_ & id & _ & _ & Hwait)]];
      [done|].
    cbv zeta in Hwait.
    apply join_then_wait in Hwait as (-> & _);
      [|apply entries_le_mark_deleted|apply entries_le_refl].
    simpl. split; [apply entries_le_mark_deleted|apply entries_le_refl].
  - intros name db primary_dc hard_durability primary_key fresh threadnum w r w' Hrun.
    destruct r as [[]|e].
    + apply table_create_success in Hrun as (cfg & _ & _ & _ & -> & _). simpl.
      split; [apply entries_le_std_map_insert|apply entries_le_refl].
    + apply table_create_inv in Hrun
        as [_ [(_ & -> & _) | (_ & [(e' & _ & _ & ->) | (? & ? & ? & ? & _ & ? & _)])]];
        done.
Qed.
End kept.

(** ** [table_reconfigure], the search and the names *)

Lemma resolves_set_replication_info nss table_id ns info db name id :
  nss !! table_id = Some (Live ns) →
  resolves (<[table_id := Live (set_replication_info info ns)]> nss) db name id
  ↔ resolves nss db name id.
Proof.
  intros Hm. unfold resolves.
  destruct (decide (id = table_id)) as [->|Hne].
  - rewrite lookup_insert_eq, Hm. split.
    + intros (ns' & [= <-] & Hn & Hd). by exists ns.
    + intros (ns' & [= <-] & Hn & Hd). by eexists.
  - by rewrite lookup_insert_ne.
Qed.

Section reconfigure_more.
Variable calculate_server_usage : table_config_t → gmap N Z → gmap N Z.
Variable table_generate_config :
  uuid_u → option table_status_t → gmap N Z → table_generate_config_params_t →
  table_shard_scheme_t → outcome (reql_result table_config_t).
Variable calculate_split_points_intelligently :
  namespace_id_t → Z → table_shard_scheme_t →
  outcome (reql_result table_shard_scheme_t).
Variable datum_t : Type.
Variable convert_table_config_to_datum : table_config_t → datum_t.

Local Abbreviation reconfigure_table :=
  (table_reconfigure calculate_server_usage table_generate_config
     calculate_split_points_intelligently datum_t convert_table_config_to_datum).

(** X20. For a database other than the reserved one, on a store that
    satisfies the uniqueness invariant of the tables: when no live table of
    the database has the name, [table_reconfigure] fails with NotFound; a
    [table_reconfigure] that fails, for whatever reason, leaves the world as
    it was; and one that returns [true], with or without [dry_run], found
    the table, and leaves every name of every database resolving to the id
    it resolved to before, so that the uniqueness invariant still holds. *)
Theorem table_reconfigure_keeps_names (db : ql.db_t) (name : name_string_t)
    (params : table_generate_config_params_t) (dry_run : bool) (w : world) :
  ql.name db ≠ rethinkdb →
  table_names_unique (rdb_namespaces (semilattice_root_view w)) →
  let nss := rdb_namespaces (semilattice_root_view w) in
  ((∀ id, ¬ resolves nss db name id) →
   reconfigure_table db name params dry_run w
   = Returned (Failure (NotFound "Table" (qualified_name db name)), w))
  ∧ (∀ e w', reconfigure_table db name params dry_run w = Returned (Failure e, w') →
             w' = w)
  ∧ (∀ d w', reconfigure_table db name params dry_run w = Returned (Success d, w') →
       (∃ id, resolves nss db name id)
       ∧ (∀ db' name' id,
            resolves (rdb_namespaces (semilattice_root_view w')) db' name' id
            ↔ resolves nss db' name' id)
       ∧ table_names_unique (rdb_namespaces (semilattice_root_view w'))).
Proof.
  intros Hdb Huniq nss. subst nss. split_and!.
  - intros Hno. unfold table_reconfigure.
    rewrite bool_decide_eq_true_2 by done.
    cbv beta zeta iota delta [guarantee mbind mret outcome_bind outcome_ret].
    by rewrite (find_uniq_table_none _ db name Hno).
  - intros e w' Hrun. by eapply table_reconfigure_failure.
  - intros d w' Hrun.
    apply table_reconfigure_success in Hrun
      as (table_id & ns & usage & scheme & cfg & Hres & Hm & _ & _ & _ & ->).
    split; [by exists table_id|].
    assert (∀ db' name' id,
              resolves (rdb_namespaces (semilattice_root_view
                 (if dry_run then w
                  else root_view_join
                         (mk_cluster
                            (<[table_id := Live (set_replication_info
                                                   (mk_repli_info cfg scheme) ns)]>
                               (rdb_namespaces (semilattice_root_view w)))
                            (databases (semilattice_root_view w))) w)))
                db' name' id
              ↔ resolves (rdb_namespaces (semilattice_root_view w)) db' name' id)
      as Hsame.
    { intros db' name' id. destruct dry_run; [done|].
      unfold root_view_join. simpl semilattice_root_view.
      rewrite cluster_join_reconfigured by done. simpl.
      by apply resolves_set_replication_info. }
    split; [done|].
    intros i1 i2 n1 n2 H1 H2 Hn Hd.
    apply (resolves_unique (rdb_namespaces (semilattice_root_view w))
             (ql.mk_db (Versioned.get_ref (ns_database n1)) "")
             (Versioned.get_ref (ns_name n1))); [done|..].
    + apply Hsame. by exists n1.
    + apply Hsame. exists n2. by rewrite Hn, Hd.
Qed.
End reconfigure_more.

(** ** The copies follow the store *)

Section follows.
Variable calculate_server_usage : table_config_t → gmap N Z → gmap N Z.
Variable table_generate_config :
  uuid_u → option table_status_t → gmap N Z → table_generate_config_params_t →
  table_shard_scheme_t → outcome (reql_result table_config_t).
Variable calculate_split_points_intelligently :
  namespace_id_t → Z → table_shard_scheme_t →
  outcome (reql_result table_shard_scheme_t).
Variable datum_t : Type.
Variable convert_table_config_to_datum : table_config_t → datum_t.

(** X21. The copies of a thread never hold what the store does not know:
    this holds on every thread of the empty world, and whenever the
    barrier, [db_create], [db_drop], [table_create], [table_drop],
    [table_reconfigure] or [table_wait] returns, it still holds on every
    thread on which it held, whichever thread made the call. *)
Theorem follows_store_is_kept :
  (∀ num_threads other,
     (other < num_threads)%nat → follows_store other (empty_world num_threads))
  ∧ (∀ other metadata threadnum w w',
       wait_for_metadata_to_propagate metadata threadnum w = Returned w' →
       follows_store other w → follows_store other w')
  ∧ (∀ other name fresh threadnum w r w',
       db_create name fresh threadnum w = Returned (r, w') →
       follows_store other w → follows_store other w')
  ∧ (∀ other name threadnum w r w',
       db_drop name threadnum w = Returned (r, w') →
       follows_store other w → follows_store other w')
  ∧ (∀ other name db primary_dc hard_durability primary_key fresh threadnum w r w',
       table_create calculate_server_usage table_generate_config
         name db primary_dc hard_durability primary_key fresh threadnum w
       = Returned (r, w') →
       follows_store other w → follows_store other w')
  ∧ (∀ other name db threadnum w r w',
       table_drop name db threadnum w = Returned (r, w') →
       follows_store other w → follows_store other w')
  ∧ (∀ other db name params dry_run w r w',
       table_reconfigure calculate_server_usage table_generate_config
         calculate_split_points_intelligently datum_t convert_table_config_to_datum
         db name params dry_run w
       = Returned (r, w') →
       follows_store other w → follows_store other w')
  ∧ (∀ other db tables readiness resp_out threadnum w r w',
       table_wait db tables readiness resp_out threadnum w = Returned (r, w') →
       follows_store other w → follows_store other w').
Proof.
  split_and!.
  - intros num_threads other Hlt. apply follows_store_check; simpl;
      by apply lookup_replicate_2.
  - intros other metadata threadnum w w' Hrun Ho. by eapply follows_store_wait.
  - intros other name fresh threadnum w r w' Hrun Ho.
    apply db_create_inv in Hrun as [_ [(_ & -> & _) | (_ & _ & Hwait)]]; [done|].
    eapply follows_store_wait; [|exact Hwait]. by apply follows_store_root_view_join.
  - intros other name threadnum w r w' Hrun Ho.
    apply db_drop_inv in Hrun as [_ [(_ & -> & _) | (_ & id & db & _ & _ & _ & Hwait)]];
      [done|].
    eapply follows_store_wait; [|exact Hwait]. by apply follows_store_root_view_join.
  - intros other name db primary_dc hard_durability primary_key fresh threadnum
      w r w' Hrun Ho.
    destruct r as [[]|e].
    + apply table_create_success in Hrun as (cfg & _ & _ & _ & _ & Hothers & _).
      by apply Hothers.
    + apply table_create_inv in Hrun
        as [_ [(_ & -> & _) | (_ & [(e' & _ & _ & ->) | (? & ? & ? & ? & _ & ? & _)])]];
        done.
  - intros other name db threadnum w r w' Hrun Ho.
    apply table_drop_inv in Hrun as [_ [(_ & -> & _) | (_ & id & _ & _ & Hwait)]];
      [done|].
    eapply follows_store_wait; [|exact Hwait]. by apply follows_store_root_view_join.
  - intros other db name params dry_run w r w' Hrun Ho.
    destruct r as [d|e].
    + apply table_reconfigure_success in Hrun
        as (table_id & ns & usage & scheme & cfg & _ & _ & _ & _ & _ & ->).
      destruct dry_run; [done|]. by apply follows_store_root_view_join.
    + apply table_reconfigure_failure in Hrun as ->. done.
  - intros other db tables readiness resp_out threadnum w r w' Hrun Ho.
    destruct resp_out.
    + pose proof (table_wait_resp_cases db tables readiness threadnum w) as Hc.
      rewrite Hrun in Hc.
      destruct Hc as [(e & _ & -> & _) | (table_map & _ & -> & _)]; [done|].
      by apply follows_store_set_directory.
    + apply table_wait_set_directory in Hrun as ->.
      by apply follows_store_set_directory.
Qed.
End follows.

(** ** The further properties at concrete inputs *)

(** X1 at the world with database [a] under id 5. *)
Lemma db_find_not_found_iff_witness :
  "a" ≠ rethinkdb
  ∧ get_databases_metadata 0 examples.world_to_drop
    = Returned (databases (semilattice_root_view examples.world_to_drop))
  ∧ database_names_unique (databases (semilattice_root_view examples.world_to_drop))
  ∧ db_find "a" 0 examples.world_to_drop = Returned (Success (ql.mk_db 5 "a")).
Proof.
  assert ("a" ≠ rethinkdb) as Hname by done.
  assert (get_databases_metadata 0 examples.world_to_drop
          = Returned (databases (semilattice_root_view examples.world_to_drop)))
    as Hcopy by reflexivity.
  assert (database_names_unique
            (databases (semilattice_root_view examples.world_to_drop)))
    as Huniq by (apply database_names_unique_check; compute_done).
  split_and!; [done..|].
  destruct (db_find_not_found_iff "a" 0 examples.world_to_drop _ Hname Hcopy Huniq)
    as (_ & _ & Hfound & _).
  by apply (Hfound 5 (mk_database (Versioned.make "a"))).
Defined.

(** X2 at the same world. *)
Lemma db_list_iff_db_find_witness :
  "a" ≠ rethinkdb
  ∧ get_databases_metadata 0 examples.world_to_drop
    = Returned (databases (semilattice_root_view examples.world_to_drop))
  ∧ database_names_unique (databases (semilattice_root_view examples.world_to_drop))
  ∧ ∃ names, db_list 0 examples.world_to_drop = Returned names
      ∧ ("a" ∈ names
         ↔ ∃ id, db_find "a" 0 examples.world_to_drop
                 = Returned (Success (ql.mk_db id "a"))).
Proof.
  assert ("a" ≠ rethinkdb) as Hname by done.
  assert (get_databases_metadata 0 examples.world_to_drop
          = Returned (databases (semilattice_root_view examples.world_to_drop)))
    as Hcopy by reflexivity.
  assert (database_names_unique
            (databases (semilattice_root_view examples.world_to_drop)))
    as Huniq by (apply database_names_unique_check; compute_done).
  split_and!; [done..|].
  destruct (db_list_iff_db_find "a" 0 examples.world_to_drop _ Hname Hcopy Huniq)
    as (names & Hlist & Hin & _).
  by exists names.
Defined.

(** X3 at the empty world: [db_create] of [a] under id 5, then [db_find]. *)
Lemma db_create_then_db_find_witness :
  databases (semilattice_root_view (empty_world 1)) !! 5 = None
  ∧ follows_store 0 (empty_world 1)
  ∧ ∃ w', db_create "a" 5 0 (empty_world 1) = Returned (Success (), w')
      ∧ db_find "a" 0 w' = Returned (Success (ql.mk_db 5 "a")).
Proof.
  assert (databases (semilattice_root_view (empty_world 1)) !! 5 = None)
    as Hfresh by reflexivity.
  assert (follows_store 0 (empty_world 1)) as Hfollow
    by by apply follows_store_check.
  split_and!; [done..|].
  destruct (db_create "a" 5 0 (empty_world 1)) as [[[[]|e] w']| | |] eqn:Hrun;
    try by vm_compute in Hrun.
  exists w'. split; [done|].
  by destruct (db_create_then_db_find "a" 5 0 (empty_world 1) w' Hfresh Hfollow Hrun)
    as (_ & _ & Hfind & _).
Defined.

(** X4 at the copy with the live tables [a] and [b] of database [d]. *)
Lemma table_list_live_tables_witness :
  ql.name examples.db_d ≠ rethinkdb
  ∧ get_namespaces_metadata 0 (examples.world_of_tables examples.tables_live)
    = Returned examples.tables_live
  ∧ ∃ names, table_list examples.db_d 0 (examples.world_of_tables examples.tables_live)
             = Returned names
      ∧ "a" ∈ names.
Proof.
  assert (ql.name examples.db_d ≠ rethinkdb) as Hdb by done.
  assert (get_namespaces_metadata 0 (examples.world_of_tables examples.tables_live)
          = Returned examples.tables_live) as Hcopy by reflexivity.
  split_and!; [done..|].
  destruct (table_list_live_tables examples.db_d 0
              (examples.world_of_tables examples.tables_live) _ Hdb Hcopy)
    as (names & m & Hlist & _ & Hin & _).
  exists names. split; [done|]. apply Hin.
  by exists 9, (examples.table examples.db_d "a").
Defined.

(** X5 at the same copy: the table [a] is found under id 9, with its
    primary key. *)
Lemma table_find_not_found_iff_witness :
  ql.name examples.db_d ≠ rethinkdb
  ∧ get_namespaces_metadata 0 (examples.world_of_tables examples.tables_live)
    = Returned examples.tables_live
  ∧ table_names_unique examples.tables_live
  ∧ table_find N examples.interface_of "a" examples.db_d 0
      (examples.world_of_tables examples.tables_live)
    = Returned (Success (mk_real_table N 9 9 "id")).
Proof.
  assert (ql.name examples.db_d ≠ rethinkdb) as Hdb by done.
  assert (get_namespaces_metadata 0 (examples.world_of_tables examples.tables_live)
          = Returned examples.tables_live) as Hcopy by reflexivity.
  assert (table_names_unique examples.tables_live)
    as Huniq by (apply table_names_unique_check; compute_done).
  split_and!; [done..|].
  destruct (table_find_not_found_iff examples.interface_of "a" examples.db_d 0
              (examples.world_of_tables examples.tables_live) _ Hdb Hcopy Huniq)
    as (_ & _ & Hfound).
  by apply (Hfound 9 (examples.table examples.db_d "a")).
Defined.

(** X6 at the store with the live tables [a] and [b]: [table_drop] of [a]
    leaves a tombstone under id 9. *)
Lemma table_drop_not_found_iff_witness :
  ql.name examples.db_d ≠ rethinkdb
  ∧ table_names_unique
      (rdb_namespaces
         (semilattice_root_view (examples.world_of_tables examples.tables_live)))
  ∧ has_watchables 0 (examples.world_of_tables examples.tables_live)
  ∧ ∃ w', table_drop "a" examples.db_d 0 (examples.world_of_tables examples.tables_live)
          = Returned (Success (), w')
      ∧ rdb_namespaces (semilattice_root_view w') !! 9 = Some Deleted.
Proof.
  assert (ql.name examples.db_d ≠ rethinkdb) as Hdb by done.
  assert (table_names_unique
            (rdb_namespaces
               (semilattice_root_view (examples.world_of_tables examples.tables_live))))
    as Huniq by (apply table_names_unique_check; compute_done).
  assert (has_watchables 0 (examples.world_of_tables examples.tables_live)) as Hhas
    by (split; by eexists).
  split_and!; [done..|].
  destruct (table_drop_not_found_iff "a" examples.db_d 0
              (examples.world_of_tables examples.tables_live) Hdb Huniq Hhas)
    as (_ & _ & Hdrop).
  destruct (Hdrop 9) as (w' & Hrun & Hgone & _).
  { apply resolves_check. by exists (examples.table examples.db_d "a"). }
  by exists w'.
Defined.

(** X7 at the same world: after the drop, [table_list] on the thread has
    lost [a]. *)
Lemma table_drop_then_table_list_witness :
  follows_store 0 (examples.world_of_tables examples.tables_live)
  ∧ ∃ w', table_drop "a" examples.db_d 0 (examples.world_of_tables examples.tables_live)
          = Returned (Success (), w')
      ∧ ∃ names, table_list examples.db_d 0 w' = Returned names ∧ "a" ∉ names.
Proof.
  assert (follows_store 0 (examples.world_of_tables examples.tables_live))
    as Hfollow by by apply follows_store_check.
  split; [done|].
  destruct (table_drop "a" examples.db_d 0
              (examples.world_of_tables examples.tables_live))
    as [[[[]|e] w']| | |] eqn:Hrun; try by vm_compute in Hrun.
  exists w'. split; [done|].
  by destruct (table_drop_then_table_list "a" examples.db_d 0 _ w' Hfollow Hrun)
    as (_ & Hlist & _).
Defined.

(** X8 at the world with database [a] and its table: after the drop,
    [db_find] on the thread fails. *)
Lemma db_drop_then_reads_witness :
  follows_store 0 examples.world_to_drop
  ∧ ∃ w', db_drop "a" 0 examples.world_to_drop = Returned (Success (), w')
      ∧ db_find "a" 0 w' = Returned (Failure (NotFound "Database" "a")).
Proof.
  assert (follows_store 0 examples.world_to_drop) as Hfollow
    by by apply follows_store_check.
  split; [done|].
  destruct (db_drop "a" 0 examples.world_to_drop)
    as [[[[]|e] w']| | |] eqn:Hrun; try by vm_compute in Hrun.
  exists w'. split; [done|].
  by destruct (db_drop_then_reads "a" 0 _ w' Hfollow Hrun) as (_ & Hfind & _).
Defined.

(** X9 at the store with the live tables [a] and [b]: a second table [a]
    is refused. *)
Lemma table_create_failures_witness :
  ql.name examples.db_d ≠ rethinkdb
  ∧ table_names_unique
      (rdb_namespaces
         (semilattice_root_view (examples.world_of_tables examples.tables_live)))
  ∧ table_create examples.usage_unchanged examples.generate_one_replica
      "a" examples.db_d None true "id" 7 0
      (examples.world_of_tables examples.tables_live)
    = Returned (Failure (AlreadyExists "Table" "d.a"),
                examples.world_of_tables examples.tables_live).
Proof.
  assert (ql.name examples.db_d ≠ rethinkdb) as Hdb by done.
  assert (table_names_unique
            (rdb_namespaces
               (semilattice_root_view (examples.world_of_tables examples.tables_live))))
    as Huniq by (apply table_names_unique_check; compute_done).
  split_and!; [done..|].
  destruct (table_create_failures examples.usage_unchanged
              examples.generate_one_replica "a" examples.db_d None true "id" 7 0
              (examples.world_of_tables examples.tables_live) Hdb Huniq)
    as (Hexists & _).
  apply Hexists. exists 9. apply resolves_check.
  by exists (examples.table examples.db_d "a").
Defined.

(** X10 at the empty world with two threads: [table_create] of [t] under
    id 7, called on thread 1. *)
Lemma table_create_postcondition_witness :
  rdb_namespaces (semilattice_root_view (empty_world 2)) !! 7 = None
  ∧ ∃ w', table_create examples.usage_unchanged examples.generate_one_replica
            "t" examples.db_d None true "id" 7 1 (empty_world 2)
          = Returned (Success (), w')
      ∧ rdb_namespaces (semilattice_root_view w') !! 7
        = Some (Live (examples.table examples.db_d "t")).
Proof.
  assert (rdb_namespaces (semilattice_root_view (empty_world 2)) !! 7 = None)
    as Hfresh by reflexivity.
  split; [done|].
  destruct (table_create examples.usage_unchanged examples.generate_one_replica
              "t" examples.db_d None true "id" 7 1 (empty_world 2))
    as [[[[]|e] w']| | |] eqn:Hrun; try by vm_compute in Hrun.
  exists w'. split; [done|].
  destruct (table_create_postcondition examples.usage_unchanged
              examples.generate_one_replica "t" examples.db_d None true "id" 7 1
              (empty_world 2) w' Hfresh Hrun)
    as (cfg & Hgen & _ & Hnew & _).
  injection Hgen as <-. exact Hnew.
Defined.

(** X11 at the same call: [table_find] on the calling thread finds the new
    table, with the primary key given. *)
Lemma table_create_then_table_find_witness :
  rdb_namespaces (semilattice_root_view (empty_world 2)) !! 7 = None
  ∧ follows_store 1 (empty_world 2)
  ∧ ∃ w', table_create examples.usage_unchanged examples.generate_one_replica
            "t" examples.db_d None true "id" 7 1 (empty_world 2)
          = Returned (Success (), w')
      ∧ table_find N examples.interface_of "t" examples.db_d 1 w'
        = Returned (Success (mk_real_table N 7 7 "id")).
Proof.
  assert (rdb_namespaces (semilattice_root_view (empty_world 2)) !! 7 = None)
    as Hfresh by reflexivity.
  assert (follows_store 1 (empty_world 2)) as Hfollow
    by by apply follows_store_check.
  split_and!; [done..|].
  destruct (table_create examples.usage_unchanged examples.generate_one_replica
              "t" examples.db_d None true "id" 7 1 (empty_world 2))
    as [[[[]|e] w']| | |] eqn:Hrun; try by vm_compute in Hrun.
  exists w'. split; [done|].
  by destruct (table_create_then_table_find examples.usage_unchanged
                 examples.generate_one_replica examples.interface_of
                 "t" examples.db_d None true "id" 7 1 (empty_world 2) w'
                 Hfresh Hfollow Hrun)
    as (_ & _ & _ & Hfind).
Defined.

(** X12 at the map of the tables [a] (id 9) and [b] (id 3): with a row for
    table 3 only, the message names [a]; with no row, it names [b]. *)
Example deleted_table_error_message_names_least :
  artificial_table_backend_t.deleted_table_error_message
    (λ row, Some (row_id row)) examples.db_d {[ 3 := "b"; 9 := "a" ]}
    [mk_row 3 finished]
  = Returned (NotFound "Table" "d.a")
  ∧ artificial_table_backend_t.deleted_table_error_message
      (λ row, Some (row_id row)) examples.db_d {[ 3 := "b"; 9 := "a" ]} []
    = Returned (NotFound "Table" "d.b")
  ∧ artificial_table_backend_t.deleted_table_error_message
      (λ row, Some (row_id row)) examples.db_d {[ 3 := "b"; 9 := "a" ]}
      [mk_row 3 finished; mk_row 9 finished]
    = GuaranteeFailed.
Proof. split_and!; by vm_compute. Qed.

(** X14 at the copy with the live tables [a] and [b], against a backend
    that has a row for table 9 only: the request for both names fails and
    names [b], the table of id 3. *)
Lemma table_config_rows_witness :
  ql.name examples.db_d ≠ rethinkdb
  ∧ get_namespaces_metadata 0 (examples.world_of_tables examples.tables_live)
    = Returned examples.tables_live
  ∧ table_names_unique examples.tables_live
  ∧ NoDup ["a"; "b"]
  ∧ (∀ id, table_status_backend examples.status_without_b id
           = Returned (Success (read_row examples.status_without_b id)))
  ∧ (∀ id row, read_row examples.status_without_b id = Some row →
               Some (row_id row) = Some id)
  ∧ artificial_table_backend_t.table_config (λ row, Some (row_id row))
      (table_status_backend examples.status_without_b)
      examples.db_d ["a"; "b"] 0 (examples.world_of_tables examples.tables_live)
    = Returned (Failure (NotFound "Table" "d.b")).
Proof.
  assert (ql.name examples.db_d ≠ rethinkdb) as Hdb by done.
  assert (get_namespaces_metadata 0 (examples.world_of_tables examples.tables_live)
          = Returned examples.tables_live) as Hcopy by reflexivity.
  assert (table_names_unique examples.tables_live)
    as Huniq by (apply table_names_unique_check; compute_done).
  assert (NoDup ["a"; "b"]) as Hnd by compute_done.
  assert (∀ id, table_status_backend examples.status_without_b id
                = Returned (Success (read_row examples.status_without_b id)))
    as Hread by reflexivity.
  assert (∀ id row, read_row examples.status_without_b id = Some row →
                    Some (row_id row) = Some id) as Hid.
  { intros id row. unfold read_row.
    destruct (examples.status_without_b !! id); simpl; [|done]. by intros [= <-]. }
  split_and!; [done..|].
  destruct (table_config_rows (λ row, Some (row_id row))
              (table_status_backend examples.status_without_b)
              (read_row examples.status_without_b)
              examples.db_d ["a"; "b"] 0
              (examples.world_of_tables examples.tables_live) examples.tables_live
              Hdb Hcopy Huniq Hnd Hread Hid)
    as (_ & Hresolved & _).
  destruct Hresolved as (table_map & Hres & _ & Hnorow & _).
  { repeat constructor.
    - exists 9. apply resolves_check. by exists (examples.table examples.db_d "a").
    - exists 3. apply resolves_check. by exists (examples.table examples.db_d "b"). }
  assert (get_table_ids_for_query examples.db_d ["a"; "b"] 0
            (examples.world_of_tables examples.tables_live)
          = Returned (Success {[ 3 := "b"; 9 := "a" ]})) as Hmap by by vm_compute.
  rewrite Hmap in Hres. injection Hres as <-.
  apply (Hnorow ltac:(done) 3 "b"); [by vm_compute|by vm_compute|].
  intros id' [n Hm] _.
  apply lookup_insert_Some in Hm as [[<- _] | [_ Hm]]; [lia|].
  apply lookup_singleton_Some in Hm as [<- _]. lia.
Defined.

(** X13 at the same map: the row of table 3 comes before the row of table
    9, and a failing read of table 3 ends the call before table 9 is
    read. *)
Example table_meta_read_rows_in_id_order :
  artificial_table_backend_t.table_meta_read
    (table_status_backend {[ 9 := writes; 3 := finished ]})
    {[ 9 := "a"; 3 := "b" ]}
  = Returned (Success [mk_row 3 finished; mk_row 9 writes])
  ∧ artificial_table_backend_t.table_meta_read
      (λ id, if bool_decide (id = 3)
             then Returned (Failure (ConfigurationError "unreachable"))
             else Interrupted)
      ({[ 9 := "a"; 3 := "b" ]} : gmap N name_string_t)
    = Returned (Failure (ConfigurationError "unreachable") : reql_result (list unit)).
Proof. split; by vm_compute. Qed.

(** X15 at the world in which table [b] becomes ready at the next change
    of the directory: the wait for both tables returns their two rows, in
    the order of the ids, and [table_status] then returns the same. *)
Lemma table_wait_then_table_status_witness :
  ∃ w', table_wait examples.db_d ["a"; "b"] writes true 0 examples.world_with_status
        = Returned (Success (Some [mk_row 3 finished; mk_row 9 writes]), w')
    ∧ table_status examples.db_d ["a"; "b"] 0 w'
      = Returned (Success [mk_row 3 finished; mk_row 9 writes]).
Proof.
  destruct (table_wait examples.db_d ["a"; "b"] writes true 0
              examples.world_with_status) as [[res w']| | |] eqn:Hrun;
    try by vm_compute in Hrun.
  assert (res = Success (Some [mk_row 3 finished; mk_row 9 writes])) as ->.
  { vm_compute in Hrun. by injection Hrun as <- _. }
  exists w'. split; [done|].
  exact (table_wait_then_table_status examples.db_d ["a"; "b"] writes 0
           examples.world_with_status w' _ Hrun).
Defined.

(** X16 at the world with the tables [a] and [b]: the directory takes two
    values, both tables resolve, and the wait returns their two rows, each
    at the readiness asked for or above. *)
Lemma table_wait_rows_ready_witness :
  get_table_ids_for_query examples.db_d ["a"; "b"] 0 examples.world_with_status
  = Returned (Success {[ 3 := "b"; 9 := "a" ]})
  ∧ counts_in_int (directory examples.world_with_status)
  ∧ ∃ rows w',
      table_wait examples.db_d ["a"; "b"] writes true 0 examples.world_with_status
      = Returned (Success (Some rows), w')
      ∧ Forall (λ row,
                  is_Some (({[ 3 := "b"; 9 := "a" ]} : gmap N name_string_t)
                             !! row_id row)
                  ∧ w_value (directory w') !! row_id row = Some (row_readiness row))
               rows
      ∧ Forall (λ row,
                  readiness_rank writes ≤ readiness_rank (row_readiness row))
               rows.
Proof.
  assert (get_table_ids_for_query examples.db_d ["a"; "b"] 0
            examples.world_with_status
          = Returned (Success {[ 3 := "b"; 9 := "a" ]})) as Hres by by vm_compute.
  assert (counts_in_int (directory examples.world_with_status)) as Hfit
    by by apply Z.leb_le.
  split; [done|]. split; [done|].
  destruct (table_wait examples.db_d ["a"; "b"] writes true 0
              examples.world_with_status) as [[[[rows|]|e] w']| | |] eqn:Hrun;
    try by vm_compute in Hrun.
  exists rows, w'. split; [done|].
  destruct (table_wait_rows_ready examples.db_d ["a"; "b"] writes 0
              examples.world_with_status w' _ _ Hres Hrun)
    as (_ & rows' & [= <-] & _ & _ & Hall & Hrank & _).
  split; [exact Hall|]. apply Hrank. by right.
Defined.

(** X17 at the same world: table [a] is ready for writes at the call, and
    the wait for it returns at once. *)
Lemma table_wait_immediate_witness :
  get_table_ids_for_query examples.db_d ["a"] 0 examples.world_with_status
  = Returned (Success {[ 9 := "a" ]})
  ∧ (∀ id n, ({[ 9 := "a" ]} : gmap N name_string_t) !! id = Some n →
       ready_or_deleted (w_value (directory examples.world_with_status)) writes id
       = true)
  ∧ table_wait examples.db_d ["a"] writes false 0 examples.world_with_status
    = Returned (Success None, examples.world_with_status).
Proof.
  assert (get_table_ids_for_query examples.db_d ["a"] 0 examples.world_with_status
          = Returned (Success {[ 9 := "a" ]})) as Hres by by vm_compute.
  assert (∀ id n, ({[ 9 := "a" ]} : gmap N name_string_t) !! id = Some n →
            ready_or_deleted (w_value (directory examples.world_with_status))
              writes id = true) as Hready.
  { intros id n Hm. apply lookup_singleton_Some in Hm as [<- _]. by vm_compute. }
  split_and!; [done..|].
  exact (table_wait_immediate examples.db_d ["a"] writes 0
           examples.world_with_status _ Hres Hready).
Defined.

(** X18 at a copy that has to skip a value to pass the barrier. *)
Lemma wait_for_metadata_to_propagate_idempotent_witness :
  let target := mk_cluster examples.tables_dropped ∅ in
  let w := mk_world target 0%nat
             [mk_watchable ∅ [examples.tables_live; examples.tables_dropped]]
             [mk_watchable ∅ []] (mk_watchable ∅ []) in
  ∃ w', wait_for_metadata_to_propagate target 0 w = Returned w'
    ∧ w' ≠ w
    ∧ wait_for_metadata_to_propagate target 0 w' = Returned w'.
Proof.
  intros target w.
  destruct (wait_for_metadata_to_propagate target 0 w) as [w'| | |] eqn:Hrun;
    try by vm_compute in Hrun.
  exists w'. split_and!; [done| |].
  - vm_compute in Hrun. injection Hrun as <-. by vm_compute.
  - exact (wait_for_metadata_to_propagate_idempotent target 0 w w' Hrun).
Defined.

(** X19 at the world with database [a]: after the drop of [a] the entries
    of the database and of its table are tombstones, and still there. *)
Example db_drop_keeps_entries :
  ∃ w', db_drop "a" 0 examples.world_to_drop = Returned (Success (), w')
    ∧ databases (semilattice_root_view w') !! 5 = Some Deleted
    ∧ rdb_namespaces (semilattice_root_view w') !! 10 = Some Deleted
    ∧ rdb_namespaces (semilattice_root_view w') !! 11
      = rdb_namespaces (semilattice_root_view examples.world_to_drop) !! 11.
Proof. eexists. split_and!; by vm_compute. Qed.

(** X20 at the store with the live tables [a] and [b]: after the table [a]
    is reconfigured, the name still resolves to id 9. *)
Lemma table_reconfigure_keeps_names_witness :
  ql.name examples.db_d ≠ rethinkdb
  ∧ table_names_unique
      (rdb_namespaces
         (semilattice_root_view (examples.world_of_tables examples.tables_live)))
  ∧ ∃ d w', examples.reconfigure_a false = Returned (Success d, w')
      ∧ resolves (rdb_namespaces (semilattice_root_view w')) examples.db_d "a" 9.
Proof.
  assert (ql.name examples.db_d ≠ rethinkdb) as Hdb by done.
  assert (table_names_unique
            (rdb_namespaces
               (semilattice_root_view (examples.world_of_tables examples.tables_live))))
    as Huniq by (apply table_names_unique_check; compute_done).
  split_and!; [done..|].
  destruct (examples.reconfigure_a false) as [[[d|e] w']| | |] eqn:Hrun;
    try by vm_compute in Hrun.
  exists d, w'. split; [done|]. unfold examples.reconfigure_a in Hrun.
  destruct (table_reconfigure_keeps_names examples.usage_unchanged
              examples.generate_two_shards examples.split_in_two table_config_t
              (λ c, c) examples.db_d "a"
              (mk_params 2 {[ "default" := 1%Z ]} "default") false
              (examples.world_of_tables examples.tables_live) Hdb Huniq)
    as (_ & _ & Hsucc).
  destruct (Hsucc d w' Hrun) as (_ & Hsame & _).
  apply Hsame. apply resolves_check. by exists (examples.table examples.db_d "a").
Defined.

(** X12 at the map of the tables [a] (id 9) and [b] (id 3), with a row for
    table 3 only: the message names [a]. *)
Lemma deleted_table_error_message_least_id_witness :
  artificial_table_backend_t.deleted_table_error_message
    (λ row, Some (row_id row)) examples.db_d {[ 3 := "b"; 9 := "a" ]}
    [mk_row 3 finished]
  = Returned (NotFound "Table" "d.a").
Proof.
  destruct (deleted_table_error_message_least_id
              (λ row, Some (row_id row)) examples.db_d
              {[ 3 := "b"; 9 := "a" ]} [mk_row 3 finished])
    as [_ Hrows].
  destruct Hrows as (Hleast & _).
  { constructor; [by eexists|constructor]. }
  apply (Hleast 9 "a"); [by vm_compute|compute_done|].
  intros id' [n Hm] Hnin.
  apply lookup_insert_Some in Hm as [[<- _] | [_ Hm]].
  - destruct Hnin. left.
  - apply lookup_singleton_Some in Hm as [<- _]. lia.
Defined.

(** X13 at the same map, against the status backend. *)
Lemma table_meta_read_in_id_order_witness :
  artificial_table_backend_t.table_meta_read
    (table_status_backend {[ 9 := writes; 3 := finished ]})
    {[ 9 := "a"; 3 := "b" ]}
  = Returned (Success [mk_row 3 finished; mk_row 9 writes]).
Proof.
  destruct (table_meta_read_in_id_order
              (table_status_backend {[ 9 := writes; 3 := finished ]})
              {[ 9 := "a"; 3 := "b" ]})
    as (_ & _ & Hall & _).
  rewrite (Hall (read_row {[ 9 := writes; 3 := finished ]})) by done.
  by vm_compute.
Defined.

(** X19 at the world with database [a]: the drop keeps every entry. *)
Lemma create_and_drop_keep_entries_witness :
  ∃ w', db_drop "a" 0 examples.world_to_drop = Returned (Success (), w')
    ∧ entries_le (databases (semilattice_root_view examples.world_to_drop))
                 (databases (semilattice_root_view w'))
    ∧ entries_le (rdb_namespaces (semilattice_root_view examples.world_to_drop))
                 (rdb_namespaces (semilattice_root_view w')).
Proof.
  destruct (db_drop "a" 0 examples.world_to_drop)
    as [[[[]|e] w']| | |] eqn:Hrun; try by vm_compute in Hrun.
  exists w'. split; [done|].
  destruct (create_and_drop_keep_entries examples.usage_unchanged
              examples.generate_one_replica) as (_ & Hdrop & _).
  by destruct (Hdrop "a" 0%nat examples.world_to_drop _ w' Hrun) as [Hn Hd].
Defined.

(** X21 at the empty world with two threads: thread 0 still follows the
    store after thread 1 created a database. *)
Lemma follows_store_is_kept_witness :
  ∃ w', db_create "a" 5 1 (empty_world 2) = Returned (Success (), w')
    ∧ follows_store 0 w'.
Proof.
  destruct (db_create "a" 5 1 (empty_world 2))
    as [[[[]|e] w']| | |] eqn:Hrun; try by vm_compute in Hrun.
  exists w'. split; [done|].
  destruct (follows_store_is_kept examples.usage_unchanged
              examples.generate_one_replica examples.split_in_two
              table_config_t (λ c, c))
    as (Hempty & _ & Hcreate & _).
  apply (Hcreate 0%nat "a" 5 1%nat (empty_world 2) _ w' Hrun).
  apply Hempty. lia.
Defined.

(** ** One id for each name *)

(** X22. For a database other than the reserved one, on a thread whose
    copy of the tables satisfies the uniqueness invariant: when
    [get_table_ids_for_query] returns [true] for a non-empty set of names,
    every name of the set resolved, to a live table of the database with
    that name; no name has two ids in the map; and the map has exactly as
    many entries as there are names, which is what the comparison of the
    number of names with the number of rows relies on. *)
Theorem get_table_ids_for_query_one_id_per_name (db : ql.db_t)
    (tables : list name_string_t) (threadnum : nat) (w : world)
    (nss : namespaces_semilattice_metadata_t) (table_map : gmap N name_string_t) :
  ql.name db ≠ rethinkdb →
  get_namespaces_metadata threadnum w = Returned nss →
  table_names_unique nss →
  NoDup tables →
  tables ≠ [] →
  get_table_ids_for_query db tables threadnum w = Returned (Success table_map) →
  Forall (λ n, ∃ id, table_map !! id = Some n ∧ resolves nss db n id) tables
  ∧ (∀ id1 id2 n, table_map !! id1 = Some n → table_map !! id2 = Some n → id1 = id2)
  ∧ size table_map = length tables.
Proof.
  intros Hdb Hcopy Huniq Hnd Hne Hres.
  destruct (resolves_all_or_first_missing nss db tables Huniq)
    as [Hall | (pre & missing & post & -> & Hpre & Hmiss)].
  2:{ rewrite (get_table_ids_for_query_missing db pre missing post threadnum w nss)
        in Hres by done. done. }
  destruct (get_table_ids_for_query_named db tables threadnum w nss)
    as (m & Hrun & Hm); [done..|].
  rewrite Hrun in Hres. injection Hres as ->. split_and!.
  - apply Forall_forall. intros n Hin. rewrite Forall_forall in Hall.
    destruct (Hall n Hin) as [id Hid]. exists id. split; [|done]. by apply Hm.
  - intros id1 id2 n [_ H1]%Hm [_ H2]%Hm. by apply (resolves_unique nss db n).
  - rewrite <- (resolved_map_size nss db tables table_map) by done.
    unfold std_map_elements. rewrite merge_sort_Permutation.
    by rewrite length_map_to_list.
Qed.

(** ** The barrier on a thread that is up to date *)

(** X23. A thread that reads the store from its copies is not held up by
    the barrier on the value of the store: [wait_for_metadata_to_propagate]
    returns at once and changes nothing. *)
Theorem wait_for_metadata_to_propagate_up_to_date (threadnum : nat) (w : world) :
  reads_store threadnum w →
  wait_for_metadata_to_propagate (semilattice_root_view w) threadnum w = Returned w.
Proof.
  intros [Hn Hd]. unfold get_namespaces_metadata, get_databases_metadata in *.
  destruct (cross_thread_namespace_watchables w !! threadnum) as [nsw|] eqn:Hnw;
    [|done].
  destruct (cross_thread_database_watchables w !! threadnum) as [dbw|] eqn:Hdw;
    [|done].
  simpl in Hn, Hd. injection Hn as Hn. injection Hd as Hd.
  assert (is_joined (w_value nsw) (rdb_namespaces (semilattice_root_view w)) = true)
    as Hjn by (rewrite Hn; apply is_joined_true, namespaces_join_idemp).
  assert (is_joined (w_value dbw) (databases (semilattice_root_view w)) = true)
    as Hjd by (rewrite Hd; apply is_joined_true, databases_join_idemp).
  unfold wait_for_metadata_to_propagate. rewrite Hnw. simpl.
  rewrite run_until_satisfied_now by done. simpl. rewrite Hdw. simpl.
  rewrite run_until_satisfied_now by done. simpl.
  unfold set_database_watchable, set_namespace_watchable. simpl.
  rewrite !list_insert_id by done. by destruct w.
Qed.

(** ** The uniqueness invariants *)

Lemma table_names_unique_mark_tables_deleted db_id nss :
  table_names_unique nss → table_names_unique (mark_tables_deleted db_id nss).
Proof.
  intros Huniq i1 i2 n1 n2 H1 H2.
  rewrite mark_tables_deleted_lookup in H1, H2.
  destruct (nss !! i1) as [[x1|]|] eqn:E1; try done.
  destruct (nss !! i2) as [[x2|]|] eqn:E2;
    try (by destruct (bool_decide _)).
  destruct (bool_decide _) in H1; [done|].
  destruct (bool_decide _) in H2; [done|].
  simplify_eq. by apply Huniq.
Qed.

Lemma database_names_unique_std_map_insert dbs k name :
  database_names_unique dbs → ¬ names_database dbs name →
  database_names_unique
    (std_map_insert k (Live (mk_database (Versioned.make name))) dbs).
Proof.
  intros Huniq Hfree. unfold std_map_insert. destruct (dbs !! k); [done|].
  by apply database_names_unique_insert.
Qed.

Lemma table_names_unique_std_map_insert nss k ns db :
  table_names_unique nss →
  Versioned.get_ref (ns_database ns) = ql.id db →
  (∀ id, ¬ resolves nss db (Versioned.get_ref (ns_name ns)) id) →
  table_names_unique (std_map_insert k (Live ns) nss).
Proof.
  intros Huniq Hd Hfree. unfold std_map_insert. destruct (nss !! k); [done|].
  by apply (table_names_unique_insert nss k ns db).
Qed.

Section unique.
Variable calculate_server_usage : table_config_t → gmap N Z → gmap N Z.
Variable table_generate_config :
  uuid_u → option table_status_t → gmap N Z → table_generate_config_params_t →
  table_shard_scheme_t → outcome (reql_result table_config_t).
Variable calculate_split_points_intelligently :
  namespace_id_t → Z → table_shard_scheme_t →
  outcome (reql_result table_shard_scheme_t).
Variable datum_t : Type.
Variable convert_table_config_to_datum : table_config_t → datum_t.

(** X24. The interface keeps the uniqueness invariants it relies on: they
    hold in the empty world, and whenever [db_create], [db_drop],
    [table_create], [table_drop] or [table_reconfigure] returns in a world
    in which the names of the live databases are unique and the pairs of
    database and name of the live tables are unique, they are still unique
    in the world it leaves, whatever the generated ids. *)
Theorem uniqueness_is_kept :
  let unique (w : world) :=
    database_names_unique (databases (semilattice_root_view w))
    ∧ table_names_unique (rdb_namespaces (semilattice_root_view w)) in
  (∀ num_threads, unique (empty_world num_threads))
  ∧ (∀ name fresh threadnum w r w',
       db_create name fresh threadnum w = Returned (r, w') → unique w → unique w')
  ∧ (∀ name threadnum w r w',
       db_drop name threadnum w = Returned (r, w') → unique w → unique w')
  ∧ (∀ name db primary_dc hard_durability primary_key fresh threadnum w r w',
       table_create calculate_server_usage table_generate_config
         name db primary_dc hard_durability primary_key fresh threadnum w
       = Returned (r, w') →
       unique w → unique w')
  ∧ (∀ name db threadnum w r w',
       table_drop name db threadnum w = Returned (r, w') → unique w → unique w')
  ∧ (∀ db name params dry_run w r w',
       table_reconfigure calculate_server_usage table_generate_config
         calculate_split_points_intelligently datum_t convert_table_config_to_datum
         db name params dry_run w
       = Returned (r, w') →
       unique w → unique w').
Proof.
  intros unique. subst unique. cbv beta. split_and!.
  - intros num_threads. simpl. split.
    + intros i1 i2 d1 d2 H1. by rewrite lookup_empty in H1.
    + intros i1 i2 n1 n2 H1. by rewrite lookup_empty in H1.
  - intros name fresh threadnum w r w' Hrun [Hd Hn].
    apply db_create_inv in Hrun as [_ [(_ & -> & _) | (_ & Hfree & Hwait)]]; [done|].
    cbv zeta in Hwait.
    apply join_then_wait in Hwait as (-> & _);
      [|apply entries_le_refl|apply entries_le_std_map_insert].
    simpl. split; [|done]. by apply database_names_unique_std_map_insert.
  - intros name threadnum w r w' Hrun [Hd Hn].
    apply db_drop_inv in Hrun as [_ [(_ & -> & _) | (_ & id & db & _ & _ & _ & Hwait)]];
      [done|].
    cbv zeta in Hwait.
    apply join_then_wait in Hwait as (-> & _);
      [|apply entries_le_mark_tables_deleted|apply entries_le_mark_deleted].
    simpl. split.
    + by apply database_names_unique_delete.
    + by apply table_names_unique_mark_tables_deleted.
  - intros name db primary_dc hard_durability primary_key fresh threadnum
      w r w' Hrun [Hd Hn].
    destruct r as [[]|e].
    + apply table_create_success in Hrun as (cfg & _ & _ & Hfree & -> & _). simpl.
      split; [done|]. by apply (table_names_unique_std_map_insert _ _ _ db).
    + apply table_create_inv in Hrun
        as [_ [(_ & -> & _) | (_ & [(e' & _ & _ & ->) | (? & ? & ? & ? & _ & ? & _)])]];
        done.
  - intros name db threadnum w r w' Hrun [Hd Hn].
    apply table_drop_inv in Hrun as [_ [(_ & -> & _) | (_ & id & _ & _ & Hwait)]];
      [done|].
    cbv zeta in Hwait.
    apply join_then_wait in Hwait as (-> & _);
      [|apply entries_le_mark_deleted|apply entries_le_refl].
    simpl. split; [done|]. by apply table_names_unique_delete.
  - intros db name params dry_run w r w' Hrun [Hd Hn].
    destruct r as [d|e].
    2:{ by apply table_reconfigure_failure in Hrun as ->. }
    apply table_reconfigure_success in Hrun
      as (table_id & ns & usage & scheme & cfg & _ & Hm & _ & _ & _ & ->).
    destruct dry_run; [done|].
    unfold root_view_join. simpl semilattice_root_view.
    rewrite cluster_join_reconfigured by done. simpl. split; [done|].
    intros i1 i2 n1 n2 H1 H2 Hname Hdb.
    apply (resolves_unique (rdb_namespaces (semilattice_root_view w))
             (ql.mk_db (Versioned.get_ref (ns_database n1)) "")
             (Versioned.get_ref (ns_name n1))); [done|..].
    + eapply resolves_set_replication_info; [exact Hm|]. by exists n1.
    + eapply resolves_set_replication_info; [exact Hm|]. exists n2.
      by rewrite Hname, Hdb.
Qed.
End unique.

(** X22 at the copy with the live tables [a] and [b]. *)
Lemma get_table_ids_for_query_one_id_per_name_witness :
  ql.name examples.db_d ≠ rethinkdb
  ∧ get_namespaces_metadata 0 (examples.world_of_tables examples.tables_live)
    = Returned examples.tables_live
  ∧ table_names_unique examples.tables_live
  ∧ NoDup ["a"; "b"]
  ∧ ["a"; "b"] ≠ []
  ∧ get_table_ids_for_query examples.db_d ["a"; "b"] 0
      (examples.world_of_tables examples.tables_live)
    = Returned (Success {[ 3 := "b"; 9 := "a" ]})
  ∧ size ({[ 3 := "b"; 9 := "a" ]} : gmap N name_string_t) = 2%nat.
Proof.
  assert (ql.name examples.db_d ≠ rethinkdb) as Hdb by done.
  assert (get_namespaces_metadata 0 (examples.world_of_tables examples.tables_live)
          = Returned examples.tables_live) as Hcopy by reflexivity.
  assert (table_names_unique examples.tables_live)
    as Huniq by (apply table_names_unique_check; compute_done).
  assert (NoDup ["a"; "b"]) as Hnd by compute_done.
  assert (["a"; "b"] ≠ []) as Hne by done.
  assert (get_table_ids_for_query examples.db_d ["a"; "b"] 0
            (examples.world_of_tables examples.tables_live)
          = Returned (Success {[ 3 := "b"; 9 := "a" ]})) as Hres by by vm_compute.
  split_and!; [done..|].
  by destruct (get_table_ids_for_query_one_id_per_name examples.db_d ["a"; "b"] 0
                 (examples.world_of_tables examples.tables_live) examples.tables_live
                 _ Hdb Hcopy Huniq Hnd Hne Hres) as (_ & _ & Hsize).
Defined.

(** X23 at the world with database [a]. *)
Lemma wait_for_metadata_to_propagate_up_to_date_witness :
  reads_store 0 examples.world_to_drop
  ∧ wait_for_metadata_to_propagate
      (semilattice_root_view examples.world_to_drop) 0 examples.world_to_drop
    = Returned examples.world_to_drop.
Proof.
  assert (reads_store 0 examples.world_to_drop) as Hreads by (split; reflexivity).
  split; [done|].
  exact (wait_for_metadata_to_propagate_up_to_date 0 examples.world_to_drop Hreads).
Defined.

(** X24 at the world with database [a]: uniqueness holds after the
    drop. *)
Lemma uniqueness_is_kept_witness :
  ∃ w', db_drop "a" 0 examples.world_to_drop = Returned (Success (), w')
    ∧ database_names_unique (databases (semilattice_root_view w'))
    ∧ table_names_unique (rdb_namespaces (semilattice_root_view w')).
Proof.
  destruct (db_drop "a" 0 examples.world_to_drop)
    as [[[[]|e] w']| | |] eqn:Hrun; try by vm_compute in Hrun.
  exists w'. split; [done|].
  destruct (uniqueness_is_kept examples.usage_unchanged
              examples.generate_one_replica examples.split_in_two
              table_config_t (λ c, c)) as (_ & _ & Hdrop & _).
  apply (Hdrop "a" 0%nat examples.world_to_drop _ w' Hrun). split.
  - apply database_names_unique_check; compute_done.
  - apply table_names_unique_check; compute_done.
Defined.
(** ** Liveness of the readiness waits *)

Lemma last_w_history_suffix {T} (a b : watchable T) skipped :
  w_history a = skipped ++ w_history b → last (w_history a) = last (w_history b).
Proof.
  intros ->. rewrite last_app.
  destruct (last (w_history b)) eqn:Hl; [done|].
  unfold w_history in Hl. rewrite last_cons in Hl.
  by destruct (last (w_pending b)).
Qed.

(** A waiter whose table is ready or absent in the last status of the
    directory is not left waiting. *)
Lemma wait_ready_returns r self dir st :
  last (w_history dir) = Some st →
  ready_or_deleted st r (table_id self) = true →
  ∃ res self' dir',
    wait_ready r self dir = Some (res, self', dir')
    ∧ last (w_history dir') = Some st.
Proof.
  intros Hlast Hready.
  pose proof (wait_ready_cases r self dir) as Hc.
  destruct (wait_ready r self dir) as [[[res self'] dir']|].
  - destruct Hc as (skipped & Heq & _).
    exists res, self', dir'. split; [done|].
    by rewrite <- (last_w_history_suffix dir dir' skipped).
  - exfalso. apply last_Some_elem_of in Hlast.
    rewrite Forall_forall in Hc. specialize (Hc _ Hlast). congruence.
Qed.

Lemma wait_each_returns r ws : ∀ imm dir st,
  last (w_history dir) = Some st →
  Forall (λ x, ready_or_deleted st r (table_id x) = true) ws →
  ∃ imm' ws' dir',
    wait_each r ws imm dir = Some (imm', ws', dir')
    ∧ last (w_history dir') = Some st.
Proof.
  induction ws as [|x ws IH]; intros imm dir st Hlast Hall; simpl.
  - by exists imm, [], dir.
  - apply Forall_cons in Hall as [Hx Hall].
    destruct (wait_ready_returns r x dir st Hlast Hx)
      as (res & x' & dir1 & -> & Hlast1).
    destruct (IH (imm && bool_decide (res = IMMEDIATE)) dir1 st Hlast1 Hall)
      as (imm' & ws' & dir' & -> & Hlast').
    by exists imm', (x' :: ws'), dir'.
Qed.

(** When every table is ready or absent in the last status of the
    directory, the loop of [table_wait] is not interrupted. *)
Lemma table_wait_loop_returns r fuel : ∀ ws dir st,
  last (w_history dir) = Some st →
  Forall (λ x, ready_or_deleted st r (table_id x) = true) ws →
  table_wait_loop fuel r ws dir = None
  ∨ ∃ ws' dir', table_wait_loop fuel r ws dir = Some (Returned (ws', dir')).
Proof.
  induction fuel as [|fuel IH]; intros ws dir st Hlast Hall; simpl; [by left|].
  destruct (wait_each_returns r ws true dir st Hlast Hall)
    as (imm & ws1 & dir1 & Hwe & Hlast1).
  pose proof (wait_each_cases r ws true dir) as Hpass.
  rewrite Hwe in Hpass. destruct Hpass as (Hids & _). rewrite Hwe.
  destruct (negb imm && bool_decide (1 < length ws1)%nat); [|right; by eexists _, _].
  pose proof (second_pass_cases r dir1 ws1) as [Hids2 _].
  destruct (second_pass r ws1 dir1) as [[] ws2]; [|right; by eexists _, _].
  simpl in Hids2. apply (IH ws2 dir1 st Hlast1).
  apply (Forall_fmap table_id (λ i, ready_or_deleted st r i = true)).
  rewrite Hids2, Hids.
  by apply (Forall_fmap table_id (λ i, ready_or_deleted st r i = true)).
Qed.

Lemma table_wait_loop_ends r (table_map : gmap N name_string_t) dir st :
  last (w_history dir) = Some st →
  (∀ id n, table_map !! id = Some n → ready_or_deleted st r id = true) →
  ∃ ws' dir',
    table_wait_loop (table_wait_fuel dir) r
      ((λ pair, new pair.1) <$> std_map_elements table_map) dir
    = Some (Returned (ws', dir')).
Proof.
  intros Hlast Hready.
  destruct (table_wait_loop_returns r (table_wait_fuel dir)
              ((λ pair, new pair.1) <$> std_map_elements table_map) dir st Hlast)
    as [Hnone | Hsome]; [| |done].
  - apply Forall_fmap, Forall_forall. intros [id n] Hin. simpl.
    apply elem_of_std_map_elements in Hin. by apply (Hready id n).
  - exfalso. revert Hnone. apply table_wait_loop_fuel. unfold table_wait_fuel. lia.
Qed.

Lemma table_wait_ends db tables readiness threadnum w
    (table_map : gmap N name_string_t) st :
  get_table_ids_for_query db tables threadnum w = Returned (Success table_map) →
  last (w_history (directory w)) = Some st →
  (∀ id n, table_map !! id = Some n → ready_or_deleted st readiness id = true) →
  ∃ dir',
    table_wait db tables readiness false threadnum w
    = Returned (Success None, set_directory w dir').
Proof.
  intros Hres Hlast Hready.
  destruct (table_wait_loop_ends readiness table_map (directory w) st Hlast Hready)
    as (ws' & dir' & Hloop).
  exists dir'. unfold table_wait. rewrite Hres.
  cbv beta iota zeta delta [mbind outcome_bind]. by rewrite Hloop.
Qed.

(** X25. [table_wait] without [resp_out] is not left waiting when the
    tables get ready: if the names resolve and, in the last status the
    directory takes, every resolved table has the readiness asked for or
    above, or has no entry, then [table_wait] returns [true], having moved
    nothing but the directory; and, with at most one resolved table, or as
    long as the directory takes no more values than the [int] of
    [wait_ready] counts, every resolved table is ready or absent in the
    status it returned at. *)
Theorem table_wait_returns (db : ql.db_t) (tables : list name_string_t)
    (readiness : table_readiness_t) (threadnum : nat) (w : world)
    (table_map : gmap N name_string_t) (st : table_status_t) :
  get_table_ids_for_query db tables threadnum w = Returned (Success table_map) →
  last (w_history (directory w)) = Some st →
  (∀ id n, table_map !! id = Some n → ready_or_deleted st readiness id = true) →
  ∃ w',
    table_wait db tables readiness false threadnum w = Returned (Success None, w')
    ∧ w' = set_directory w (directory w')
    ∧ ((size table_map ≤ 1)%nat ∨ counts_in_int (directory w) →
       ∀ id n, table_map !! id = Some n →
               ready_or_deleted (w_value (directory w')) readiness id = true).
Proof.
  intros Hres Hlast Hready.
  destruct (table_wait_ends db tables readiness threadnum w table_map st
              Hres Hlast Hready) as (dir' & Hrun).
  exists (set_directory w dir'). split; [done|]. split; [done|].
  pose proof (table_wait_cases db tables readiness threadnum w) as Hc.
  rewrite Hrun in Hc. destruct Hc as (_ & _ & m & Hm & Hall).
  rewrite Hres in Hm. injection Hm as <-.
  intros Hcase. apply Hall. by rewrite length_std_map_elements.
Qed.

Lemma resolved_names_size db tables threadnum w nss
    (table_map : gmap N name_string_t) :
  ql.name db ≠ rethinkdb →
  get_namespaces_metadata threadnum w = Returned nss →
  table_names_unique nss →
  NoDup tables →
  tables ≠ [] →
  get_table_ids_for_query db tables threadnum w = Returned (Success table_map) →
  length (std_map_elements table_map) = length tables.
Proof.
  intros Hdb Hcopy Huniq Hnd Hne Hres.
  destruct (resolves_all_or_first_missing nss db tables Huniq)
    as [Hall | (pre & missing & post & -> & Hpre & Hmiss)].
  2:{ rewrite (get_table_ids_for_query_missing db pre missing post threadnum w nss)
        in Hres by done. done. }
  destruct (get_table_ids_for_query_named db tables threadnum w nss)
    as (m & Hrun & Hm); [done..|].
  rewrite Hrun in Hres. injection Hres as ->.
  by apply (resolved_map_size nss db).
Qed.

(** X26. [table_wait] with [resp_out], for a database other than the
    reserved one and a set of names, on a thread whose copy of the tables
    satisfies the uniqueness invariant: if the names resolve and, in the
    last status the directory takes, every resolved table has the readiness
    asked for or above, or has no entry, then [table_wait] returns, with
    the rows or with an error message; it is neither left waiting nor
    stopped by the assertion of [deleted_table_error_message]. *)
Theorem table_wait_with_response_returns (db : ql.db_t)
    (tables : list name_string_t) (readiness : table_readiness_t)
    (threadnum : nat) (w : world) (nss : namespaces_semilattice_metadata_t)
    (table_map : gmap N name_string_t) (st : table_status_t) :
  ql.name db ≠ rethinkdb →
  get_namespaces_metadata threadnum w = Returned nss →
  table_names_unique nss →
  NoDup tables →
  get_table_ids_for_query db tables threadnum w = Returned (Success table_map) →
  last (w_history (directory w)) = Some st →
  (∀ id n, table_map !! id = Some n → ready_or_deleted st readiness id = true) →
  ∃ res w',
    table_wait db tables readiness true threadnum w = Returned (res, w')
    ∧ w' = set_directory w (directory w').
Proof.
  intros Hdb Hcopy Huniq Hnd Hres Hlast Hready.
  destruct (table_wait_loop_ends readiness table_map (directory w) st Hlast Hready)
    as (ws' & dir' & Hloop).
  unfold table_wait. rewrite Hres.
  cbv beta iota zeta delta [mbind outcome_bind]. rewrite Hloop. simpl.
  destruct (negb (bool_decide (tables = []))
            && negb (bool_decide (length tables
                                  = length (table_meta_read (w_value dir') table_map))))
    eqn:Hcheck; [|by eexists _, _].
  apply andb_true_iff in Hcheck as [Hne Hlen].
  apply negb_true_iff, bool_decide_eq_false in Hne.
  apply negb_true_iff, bool_decide_eq_false in Hlen.
  rewrite <- deleted_table_error_message_status.
  destruct (backend_facts.deleted_table_error_message_cases
              (λ row : status_row, Some (row_id row)) db table_map
              (table_meta_read (w_value dir') table_map))
    as [(id0 & n0 & _ & _ & _ & ->) | [Hcov _]].
  - apply Forall_forall. by eexists.
  - by eexists _, _.
  - exfalso. apply Hlen. unfold table_meta_read.
    rewrite length_omap_all.
    + symmetry. by apply (resolved_names_size db tables threadnum w nss).
    + apply Forall_forall. intros [id n] Hin. simpl.
      apply elem_of_std_map_elements in Hin.
      specialize (Hcov id (ex_intro _ n Hin)).
      apply list_elem_of_omap in Hcov as (row & Hrow & Hid).
      unfold table_meta_read in Hrow.
      apply list_elem_of_omap in Hrow as ([id' n'] & _ & Hrd).
      unfold read_row in *. simpl in *.
      destruct (w_value dir' !! id') eqn:Hd; [|done].
      simpl in Hrd. injection Hrd as <-. simpl in Hid. injection Hid as <-.
      rewrite Hd. by eexists.
Qed.

Section create_returns.
Variable calculate_server_usage : table_config_t → gmap N Z → gmap N Z.
Variable table_generate_config :
  uuid_u → option table_status_t → gmap N Z → table_generate_config_params_t →
  table_shard_scheme_t → outcome (reql_result table_config_t).

(** X27. [table_create] is not left waiting when the new table gets ready:
    for a database other than the reserved one, called on a thread that has
    its watchables, in a world in which the copies of the home thread follow
    the store, when no live table of the database has the name, the
    generator returns a configuration and, in the last status the directory
    takes, the table of the new id is ready for writes or has no entry,
    [table_create] returns [true]. *)
Theorem table_create_returns (name : name_string_t) (db : ql.db_t)
    (primary_dc : option name_string_t) (hard_durability : bool)
    (primary_key : string) (fresh : uuid_u) (threadnum : nat) (w : world)
    (repli_info_config : table_config_t) (st : table_status_t) :
  ql.name db ≠ rethinkdb →
  (∀ id, ¬ resolves (rdb_namespaces (semilattice_root_view w)) db name id) →
  table_generate_config nil_uuid None
    (server_usage_of_all calculate_server_usage
       (rdb_namespaces (semilattice_root_view w)))
    (mk_params 1 {[ "default" := 1%Z ]} "default") one_shard
  = Returned (Success repli_info_config) →
  follows_store (home_thread w) w →
  has_watchables threadnum w →
  last (w_history (directory w)) = Some st →
  ready_or_deleted st writes fresh = true →
  ∃ w',
    table_create calculate_server_usage table_generate_config
      name db primary_dc hard_durability primary_key fresh threadnum w
    = Returned (Success (), w').
Proof.
  intros Hdb Hfree Hgen Hhome Hthr Hlast Hready.
  destruct (table_create_reaches_wait calculate_server_usage table_generate_config
              name db primary_dc hard_durability primary_key fresh threadnum w
              repli_info_config Hdb Hfree Hgen
              (follows_store_has_watchables _ _ Hhome) Hthr)
    as (w1 & Hwait1 & Hsub & ->).
  assert (ql.mk_db (ql.id db) (ql.name db) = db) as -> by by destruct db.
  set (md := mk_cluster
          (std_map_insert fresh
             (Live (new_table_metadata name db primary_key repli_info_config))
             (rdb_namespaces (semilattice_root_view w)))
          (databases (semilattice_root_view w))) in *.
  assert (semilattice_join (semilattice_root_view w) md = md) as Hj.
  { apply cluster_join_later; simpl.
    - apply entries_le_std_map_insert.
    - apply entries_le_refl. }
  assert (semilattice_root_view (root_view_join md w) = md) as Hmd by done.
  assert (reads_store (home_thread w) w1) as [Hrn _].
  { eapply reads_store_wait; [|exact Hwait1].
    by apply follows_store_root_view_join. }
  pose proof (wait_for_metadata_to_propagate_cases
                (semilattice_root_view (root_view_join md w)) (home_thread w)
                (root_view_join md w)) as Hc.
  rewrite Hwait1 in Hc. destruct Hc as (Hst1 & _ & Hdir1 & _).
  rewrite Hmd in Hst1. rewrite Hst1 in Hrn. simpl in Hrn, Hdir1.
  assert (∃ r dir2,
            table_wait db [name] writes false (home_thread w) w1
            = Returned (r, set_directory w1 dir2)) as (r & dir2 & Hwait2).
  { destruct (rdb_namespaces (semilattice_root_view w) !! fresh) eqn:Hfresh.
    - exists (Failure (NotFound "Table" (qualified_name db name))), (directory w1).
      rewrite set_directory_id. unfold table_wait, get_table_ids_for_query.
      rewrite bool_decide_eq_true_2 by done. rewrite Hrn. simpl.
      unfold std_map_insert. rewrite Hfresh.
      by rewrite (find_uniq_table_none _ db name Hfree).
    - destruct (table_wait_ends db [name] writes (home_thread w) w1
                  {[ fresh := name ]} st) as (dir2 & Hrun).
      + unfold get_table_ids_for_query.
        rewrite bool_decide_eq_true_2 by done. rewrite Hrn. simpl.
        unfold std_map_insert at 1. rewrite Hfresh.
        rewrite (find_uniq_table_found _ db name fresh
                   (new_table_metadata name db primary_key repli_info_config)).
        * simpl. unfold std_map_insert. by rewrite lookup_empty, insert_empty.
        * apply lookup_insert_eq.
        * done.
        * done.
        * intros id' (ns' & Hm' & Hn' & Hd').
          apply lookup_insert_Some in Hm' as [[<- _] | [_ Hm']]; [done|].
          destruct (Hfree id'). by exists ns'.
      + by rewrite Hdir1.
      + intros id n [<- _]%lookup_singleton_Some. done.
      + by exists (Success None), dir2. }
  rewrite Hwait2. cbv beta iota zeta delta [mbind outcome_bind].
  destruct (wait_will_subsume (semilattice_root_view (root_view_join md w))
              threadnum (set_directory w1 dir2)) as (w3 & Hwait3).
  { by apply will_subsume_set_directory. }
  rewrite Hwait3. by exists w3.
Qed.
End create_returns.

(** X25 at the world with the tables [a] and [b]: table [b] is not ready
    at the call and is so in the last status of the directory, and the wait
    for both returns [true]. *)
Lemma table_wait_returns_witness :
  get_table_ids_for_query examples.db_d ["a"; "b"] 0 examples.world_with_status
  = Returned (Success {[ 3 := "b"; 9 := "a" ]})
  ∧ last (w_history (directory examples.world_with_status))
    = Some {[ 9 := writes; 3 := finished ]}
  ∧ ready_or_deleted (w_value (directory examples.world_with_status)) writes 3
    = false
  ∧ counts_in_int (directory examples.world_with_status)
  ∧ ∃ w', table_wait examples.db_d ["a"; "b"] writes false 0
            examples.world_with_status
          = Returned (Success None, w')
      ∧ ready_or_deleted (w_value (directory w')) writes 3 = true
      ∧ ready_or_deleted (w_value (directory w')) writes 9 = true.
Proof.
  assert (get_table_ids_for_query examples.db_d ["a"; "b"] 0
            examples.world_with_status
          = Returned (Success {[ 3 := "b"; 9 := "a" ]})) as Hres by by vm_compute.
  assert (last (w_history (directory examples.world_with_status))
          = Some ({[ 9 := writes; 3 := finished ]} : table_status_t))
    as Hlast by reflexivity.
  assert (∀ id n, ({[ 3 := "b"; 9 := "a" ]} : gmap N name_string_t) !! id = Some n →
            ready_or_deleted {[ 9 := writes; 3 := finished ]} writes id = true)
    as Hready.
  { intros id n [[<- _] | [_ [<- _]%lookup_singleton_Some]]%lookup_insert_Some;
      by vm_compute. }
  assert (counts_in_int (directory examples.world_with_status)) as Hfit
    by by apply Z.leb_le.
  split_and!; [done|done|by vm_compute|done|].
  destruct (table_wait_returns examples.db_d ["a"; "b"] writes 0
              examples.world_with_status _ _ Hres Hlast Hready)
    as (w' & Hrun & _ & Hall).
  exists w'. split; [done|]. specialize (Hall (or_intror Hfit)).
  split; [by apply (Hall 3 "b")|by apply (Hall 9 "a")].
Defined.

(** X26 at the same world: the wait for both tables, with a response,
    returns. *)
Lemma table_wait_with_response_returns_witness :
  ql.name examples.db_d ≠ rethinkdb
  ∧ get_namespaces_metadata 0 examples.world_with_status
    = Returned examples.tables_live
  ∧ table_names_unique examples.tables_live
  ∧ NoDup ["a"; "b"]
  ∧ get_table_ids_for_query examples.db_d ["a"; "b"] 0 examples.world_with_status
    = Returned (Success {[ 3 := "b"; 9 := "a" ]})
  ∧ last (w_history (directory examples.world_with_status))
    = Some {[ 9 := writes; 3 := finished ]}
  ∧ ∃ res w', table_wait examples.db_d ["a"; "b"] writes true 0
                examples.world_with_status
              = Returned (res, w').
Proof.
  assert (ql.name examples.db_d ≠ rethinkdb) as Hdb by done.
  assert (get_namespaces_metadata 0 examples.world_with_status
          = Returned examples.tables_live) as Hcopy by reflexivity.
  assert (table_names_unique examples.tables_live)
    as Huniq by (apply table_names_unique_check; compute_done).
  assert (NoDup ["a"; "b"]) as Hnd by compute_done.
  assert (get_table_ids_for_query examples.db_d ["a"; "b"] 0
            examples.world_with_status
          = Returned (Success {[ 3 := "b"; 9 := "a" ]})) as Hres by by vm_compute.
  assert (last (w_history (directory examples.world_with_status))
          = Some ({[ 9 := writes; 3 := finished ]} : table_status_t))
    as Hlast by reflexivity.
  assert (∀ id n, ({[ 3 := "b"; 9 := "a" ]} : gmap N name_string_t) !! id = Some n →
            ready_or_deleted {[ 9 := writes; 3 := finished ]} writes id = true)
    as Hready.
  { intros id n [[<- _] | [_ [<- _]%lookup_singleton_Some]]%lookup_insert_Some;
      by vm_compute. }
  split_and!; [done..|].
  destruct (table_wait_with_response_returns examples.db_d ["a"; "b"] writes 0
              examples.world_with_status _ _ _ Hdb Hcopy Huniq Hnd Hres Hlast Hready)
    as (res & w' & Hrun & _).
  by exists res, w'.
Defined.

(** X27 at a world of two threads with an empty store, in which the table
    of id 7 gets ready for writes at the next change of the directory:
    [table_create] of the table [t], called on thread 1 with the id 7,
    returns [true]. *)
Lemma table_create_returns_witness :
  ql.name examples.db_d ≠ rethinkdb
  ∧ (∀ id, ¬ resolves
             (rdb_namespaces (semilattice_root_view examples.world_before_create))
             examples.db_d "t" id)
  ∧ examples.generate_one_replica nil_uuid None
      (server_usage_of_all examples.usage_unchanged
         (rdb_namespaces (semilattice_root_view examples.world_before_create)))
      (mk_params 1 {[ "default" := 1%Z ]} "default") one_shard
    = Returned (Success examples.one_replica)
  ∧ follows_store (home_thread examples.world_before_create)
                  examples.world_before_create
  ∧ has_watchables 1 examples.world_before_create
  ∧ last (w_history (directory examples.world_before_create))
    = Some {[ 7 := writes ]}
  ∧ ready_or_deleted {[ 7 := writes ]} writes 7 = true
  ∧ ∃ w', table_create examples.usage_unchanged examples.generate_one_replica
            "t" examples.db_d None true "id" 7 1 examples.world_before_create
          = Returned (Success (), w').
Proof.
  assert (ql.name examples.db_d ≠ rethinkdb) as Hdb by done.
  assert (∀ id, ¬ resolves
            (rdb_namespaces (semilattice_root_view examples.world_before_create))
            examples.db_d "t" id) as Hfree by by apply not_resolves_check.
  assert (examples.generate_one_replica nil_uuid None
            (server_usage_of_all examples.usage_unchanged
               (rdb_namespaces (semilattice_root_view examples.world_before_create)))
            (mk_params 1 {[ "default" := 1%Z ]} "default") one_shard
          = Returned (Success examples.one_replica)) as Hgen by reflexivity.
  assert (follows_store (home_thread examples.world_before_create)
                        examples.world_before_create) as Hhome
    by by apply follows_store_check.
  assert (has_watchables 1 examples.world_before_create) as Hthr
    by (split; by eexists).
  assert (last (w_history (directory examples.world_before_create))
          = Some ({[ 7 := writes ]} : table_status_t)) as Hlast by reflexivity.
  assert (ready_or_deleted {[ 7 := writes ]} writes 7 = true) as Hready
    by by vm_compute.
  split_and!; [done..|].
  exact (table_create_returns examples.usage_unchanged examples.generate_one_replica
           "t" examples.db_d None true "id" 7 1 examples.world_before_create
           examples.one_replica _ Hdb Hfree Hgen Hhome Hthr Hlast Hready).
Defined.

(** ** The waits and the reconfiguration, at concrete worlds *)



(** C9 at the world with the tables [a] and [b], for table [a], two shards
    and collaborators that answer with one split point and a configuration
    of two shards: both calls return that configuration; the dry run leaves
    the world as it was, and the other call leaves table [a] with the new
    replication info in the store. *)
Lemma table_reconfigure_dry_run_witness :
  ql.name examples.db_d ≠ rethinkdb
  ∧ examples.tables_live !! 9 = Some (Live (examples.table examples.db_d "a"))
  ∧ (∀ id', resolves examples.tables_live examples.db_d "a" id' → id' = 9)
  ∧ examples.reconfigure_a true
    = Returned (Success examples.two_shards,
                examples.world_of_tables examples.tables_live)
  ∧ ∃ w',
      examples.reconfigure_a false = Returned (Success examples.two_shards, w')
      ∧ rdb_namespaces (semilattice_root_view w') !! 9
        = Some (Live (set_replication_info
                        (mk_repli_info examples.two_shards (mk_shard_scheme ["m"]))
                        (examples.table examples.db_d "a")))
      ∧ rdb_namespaces (semilattice_root_view w') !! 3
        = examples.tables_live !! 3.
Proof.
  assert (ql.name examples.db_d ≠ rethinkdb) as Hdb by done.
  assert (examples.tables_live !! 9 = Some (Live (examples.table examples.db_d "a")))
    as Hm by by vm_compute.
  assert (table_names_unique examples.tables_live)
    as Huniq by (apply table_names_unique_check; compute_done).
  assert (∀ id', resolves examples.tables_live examples.db_d "a" id' → id' = 9)
    as Honly.
  { intros id' Hres.
    apply (resolves_unique examples.tables_live examples.db_d "a" id' 9 Huniq Hres).
    by exists (examples.table examples.db_d "a"). }
  split_and!; [done..| |];
    pose proof (table_reconfigure_dry_run examples.usage_unchanged
                  examples.generate_two_shards examples.split_in_two
                  table_config_t (λ c, c) examples.db_d "a"
                  (mk_params 2 {[ "default" := 1%Z ]} "default")
                  (examples.world_of_tables examples.tables_live)) as H;
    cbv zeta in H; destruct H as (_ & Hruns & _ & Hstore & _);
    destruct (Hruns 9 (examples.table examples.db_d "a") (mk_shard_scheme ["m"])
                examples.two_shards Hdb Hm eq_refl eq_refl Honly
                (conj eq_refl eq_refl)) as [Hdry Hcommit].
  - exact Hdry.
  - eexists. split; [exact Hcommit|].
    destruct (Hstore 9 (examples.table examples.db_d "a") (mk_shard_scheme ["m"])
                examples.two_shards Hm) as (Hnew & _ & Hothers & _).
    split; [exact Hnew|]. by apply Hothers.
Defined.
